(** * A shallow embedding of the limit order book

    The development follows the C++ sources:
    - [Order], [Trade], [PriceLevel], [MarketDataSnapshot] and
      [SimpleOrderBook] as declared in [include/simple_order_book.hpp],
    - the member functions of [SimpleOrderBook] in
      [src/simple_order_book.cpp] and of [PriceLevel] in
      [src/price_level.cpp],
    - the member functions of [OrderBookSimulator].

    Unsigned 64-bit integers are integers of [Z] with the wrap-around written
    out ([wrap64]).  Orders are held through [std::shared_ptr]: the same
    object is reachable from the order index, from a price level and from the
    caller.  The model therefore keeps the order objects in a store ([heap])
    and lets the index and the levels hold addresses into it.

    The mutexes are left out: every member function is modelled as one
    atomic step.  The subscriber lists are left out as well; the trades
    handed to [notify_trade] are kept in a log, and [notify_market_data],
    which reads the book and hands a snapshot to the subscribers, has no
    effect on the state. *)

From Stdlib Require Import ZArith Lia.
From stdpp Require Import base option list sorting gmap.

Local Open Scope Z_scope.

(** ** Machine integers *)

Definition wrap64 (x : Z) : Z := x mod 2 ^ 64.

Definition u64 (x : Z) : Prop := 0 <= x < 2 ^ 64.

(** ** Enumerations and the order record *)

Inductive Side := BUY | SELL.
Inductive OrderStatus := NEW | PARTIALLY_FILLED | FILLED | CANCELLED | REJECTED.
Inductive OrderType := LIMIT | MARKET | STOP.

#[global] Instance Side_eq_dec : EqDecision Side.
Proof. solve_decision. Defined.
#[global] Instance OrderStatus_eq_dec : EqDecision OrderStatus.
Proof. solve_decision. Defined.
#[global] Instance OrderType_eq_dec : EqDecision OrderType.
Proof. solve_decision. Defined.

Record Order := mkOrder {
  order_id : Z;
  symbol_id : Z;
  side : Side;
  order_type : OrderType;
  quantity : Z;
  price : Z;
  stop_price : Z;
  timestamp : Z;
  status : OrderStatus;
  filled_quantity : Z
}.

(** [Order()] *)
Definition Order_default : Order :=
  mkOrder 0 0 BUY LIMIT 0 0 0 0 NEW 0.

(** [Order(id, symbol, s, type, qty, px, stop_px)]; [now] is the reading of
    the clock taken by the constructor. *)
Definition Order_new (now id symbol : Z) (s : Side) (type : OrderType)
    (qty px stop_px : Z) : Order :=
  mkOrder id symbol s type qty px stop_px now NEW 0.

Definition is_filled (o : Order) : bool := filled_quantity o =? quantity o.

Definition remaining_quantity (o : Order) : Z :=
  wrap64 (quantity o - filled_quantity o).

Definition set_status (o : Order) (s : OrderStatus) : Order :=
  mkOrder (order_id o) (symbol_id o) (side o) (order_type o) (quantity o)
    (price o) (stop_price o) (timestamp o) s (filled_quantity o).

Definition add_filled (o : Order) (q : Z) : Order :=
  mkOrder (order_id o) (symbol_id o) (side o) (order_type o) (quantity o)
    (price o) (stop_price o) (timestamp o) (status o)
    (wrap64 (filled_quantity o + q)).

#[global] Instance Order_inhabited : Inhabited Order := populate Order_default.

(** ** The store of shared order objects *)

Definition ptr := nat.

Record Mem := mkMem {
  heap : list Order;   (* the objects owned through shared_ptr *)
  clock : Z            (* the reading of high_resolution_clock, in microseconds *)
}.

(** The clock is read for the timestamps of orders, trades and snapshots
    only.  No member function compares timestamps, and the model leaves the
    reading to the environment: the steps below do not advance it. *)

(** [*p].  Addresses come from [make_shared] only and objects are never
    freed while reachable, so a read outside the store does not occur; the
    total lookup returns [Order()] there. *)
Definition deref (m : Mem) (p : ptr) : Order := heap m !!! p.

Definition store (m : Mem) (p : ptr) (o : Order) : Mem :=
  mkMem (<[p := o]> (heap m)) (clock m).

(** [std::make_shared<Order>(o)] *)
Definition make_shared (m : Mem) (o : Order) : ptr * Mem :=
  (length (heap m), mkMem (heap m ++ [o]) (clock m)).

(** ** Trades and snapshots *)

Module Trade.
Record t := mk {
  trade_id : Z;
  buy_order_id : Z;
  sell_order_id : Z;
  symbol_id : Z;
  quantity : Z;
  price : Z;
  timestamp : Z
}.
End Trade.

Module MarketDataSnapshot.
Record t := mk {
  symbol_id : Z;
  timestamp : Z;
  best_bid_price : Z;
  best_bid_quantity : Z;
  best_ask_price : Z;
  best_ask_quantity : Z;
  last_trade_price : Z;
  last_trade_quantity : Z;
  volume : Z
}.

(** [MarketDataSnapshot(symbol)] *)
Definition new (symbol : Z) : t := mk symbol 0 0 0 0 0 0 0 0.
End MarketDataSnapshot.

(** ** Price levels *)

Definition is_live (s : OrderStatus) : bool :=
  match s with
  | FILLED | CANCELLED => false
  | _ => true
  end.

Module PriceLevel.
Record t := mk {
  orders_ : list ptr;
  total_quantity_ : Z
}.

Definition new : t := mk [] 0.

Definition add_order (m : Mem) (lvl : t) (p : ptr) : t :=
  mk (orders_ lvl ++ [p])
     (wrap64 (total_quantity_ lvl + quantity (deref m p))).

(** The scan of [remove_order]: the first entry whose id matches is erased
    and its [quantity] is subtracted from the total. *)
Fixpoint remove_scan (m : Mem) (id : Z) (l : list ptr) (total : Z)
    : list ptr * Z :=
  match l with
  | [] => ([], total)
  | p :: l' =>
      if order_id (deref m p) =? id
      then (l', wrap64 (total - quantity (deref m p)))
      else let '(r, t') := remove_scan m id l' total in (p :: r, t')
  end.

Definition remove_order (m : Mem) (lvl : t) (id : Z) : t :=
  let '(l, total) := remove_scan m id (orders_ lvl) (total_quantity_ lvl) in
  mk l total.

(** The oldest entry whose status is neither FILLED nor CANCELLED. *)
Definition get_best_order (m : Mem) (lvl : t) : option ptr :=
  List.find (fun p => is_live (status (deref m p))) (orders_ lvl).

Definition get_total_quantity (lvl : t) : Z := total_quantity_ lvl.

Definition get_order_count (lvl : t) : nat := length (orders_ lvl).

Definition is_empty (lvl : t) : bool := total_quantity_ lvl =? 0.
End PriceLevel.

(** ** Ladders: [std::map<uint64_t, std::unique_ptr<PriceLevel>>]

    An iterator is the key it points at; [None] is [end()]. *)

Module Ladder.
Abbreviation t := (gmap Z PriceLevel.t).

Definition keys (l : t) : list Z := merge_sort Z.le (elements (dom l)).

Definition begin (l : t) : option Z := head (keys l).

(** [std::prev(end())] *)
Definition rbegin (l : t) : option Z := last (keys l).

(** [++it] *)
Definition next (l : t) (k : Z) : option Z :=
  head (filter (fun x => k < x) (keys l)).

(** [--it] *)
Definition prev (l : t) (k : Z) : option Z :=
  last (filter (fun x => x < k) (keys l)).

Definition is_empty (l : t) : bool := bool_decide (l = ∅).

(** The pairs (price, total quantity) in ascending price order. *)
Definition levels (l : t) : list (Z * Z) :=
  omap (fun k => (fun lvl => (k, PriceLevel.get_total_quantity lvl)) <$> l !! k)
       (keys l).
End Ladder.

(** ** The book of one symbol *)

Module SimpleOrderBook.
Record t := mk {
  symbol_id_ : Z;
  bids_ : Ladder.t;
  asks_ : Ladder.t;
  orders_ : gmap Z ptr;
  next_trade_id_ : Z;
  total_volume_ : Z;
  trade_count_ : Z;
  (* the trades handed to [notify_trade], oldest first *)
  trades_out : list Trade.t
}.

(** [SimpleOrderBook(symbol_id)] *)
Definition new (symbol : Z) : t := mk symbol ∅ ∅ ∅ 1 0 0 [].

Definition get_side (b : t) (s : Side) : Ladder.t :=
  match s with BUY => bids_ b | SELL => asks_ b end.

Definition set_side (b : t) (s : Side) (l : Ladder.t) : t :=
  match s with
  | BUY => mk (symbol_id_ b) l (asks_ b) (orders_ b) (next_trade_id_ b)
             (total_volume_ b) (trade_count_ b) (trades_out b)
  | SELL => mk (symbol_id_ b) (bids_ b) l (orders_ b) (next_trade_id_ b)
              (total_volume_ b) (trade_count_ b) (trades_out b)
  end.

Definition opposite (s : Side) : Side :=
  match s with BUY => SELL | SELL => BUY end.

Definition set_orders (b : t) (ix : gmap Z ptr) : t :=
  mk (symbol_id_ b) (bids_ b) (asks_ b) ix (next_trade_id_ b)
     (total_volume_ b) (trade_count_ b) (trades_out b).

(** [execute_trade(order1, order2, quantity)] *)
Definition execute_trade (m : Mem) (b : t) (order1 order2 : ptr) (q : Z)
    : Mem * t :=
  let buy_order := if decide (side (deref m order1) = BUY) then order1 else order2 in
  let sell_order := if decide (side (deref m order1) = SELL) then order1 else order2 in
  let trade :=
    Trade.mk (next_trade_id_ b) (order_id (deref m buy_order))
      (order_id (deref m sell_order)) (symbol_id_ b) q
      (price (deref m sell_order)) (clock m) in
  let m1 := store m order1 (add_filled (deref m order1) q) in
  let m2 := store m1 order2 (add_filled (deref m1 order2) q) in
  (m2,
   mk (symbol_id_ b) (bids_ b) (asks_ b) (orders_ b)
      (wrap64 (next_trade_id_ b + 1))
      (wrap64 (total_volume_ b + q))
      (wrap64 (trade_count_ b + 1))
      (trades_out b ++ [trade])).

(** One turn of the inner loop of [try_match_order]: the trade against
    [matching_order], the head of the level. *)
Definition fill_turn (m : Mem) (b : t) (order matching_order : ptr)
    (price_level : PriceLevel.t) : Mem * t * PriceLevel.t :=
  let trade_quantity :=
    Z.min (remaining_quantity (deref m order))
          (remaining_quantity (deref m matching_order)) in
  let '(m1, b1) := execute_trade m b order matching_order trade_quantity in
  if is_filled (deref m1 matching_order) then
    let lvl1 := PriceLevel.remove_order m1 price_level
                  (order_id (deref m1 matching_order)) in
    (store m1 matching_order (set_status (deref m1 matching_order) FILLED),
     b1, lvl1)
  else (m1, b1, price_level).

(** The inner loop of [try_match_order]: fills against one price level.
    Every turn of the loop uses one unit of [fuel]; [None] is a run that
    does not finish within it. *)
Fixpoint match_level (fuel : nat) (m : Mem) (b : t) (order : ptr)
    (price_level : PriceLevel.t) : option (Mem * t * PriceLevel.t) :=
  if 0 <? remaining_quantity (deref m order) then
    match PriceLevel.get_best_order m price_level with
    | None => Some (m, b, price_level)
    | Some matching_order =>
        match fuel with
        | O => None
        | S fuel' =>
            let '(m1, b1, lvl1) :=
              fill_turn m b order matching_order price_level in
            match_level fuel' m1 b1 order lvl1
        end
    end
  else Some (m, b, price_level).

Definition price_acceptable (o : Order) (level_price : Z) : bool :=
  match side o with
  | BUY => level_price <=? price o
  | SELL => level_price >=? price o
  end.

(** The outer loop of [try_match_order] over the opposite ladder, from the
    iterator [it].  [None] is a run that does not finish within [fuel], or
    the dereference of an iterator that points at no level. *)
Fixpoint match_levels (fuel : nat) (m : Mem) (b : t) (order : ptr)
    (opposite_side : Ladder.t) (it : option Z)
    : option (Mem * t * Ladder.t) :=
  match it with
  | None => Some (m, b, opposite_side)
  | Some level_price =>
      if 0 <? remaining_quantity (deref m order) then
        match fuel with
        | O => None
        | S fuel' =>
            price_level ← opposite_side !! level_price;
            if negb (price_acceptable (deref m order) level_price)
            then Some (m, b, opposite_side)
            else
              '(m1, b1, lvl1) ←
                match_level (length (PriceLevel.orders_ price_level))
                  m b order price_level;
              let side1 := <[level_price := lvl1]> opposite_side in
              if PriceLevel.is_empty lvl1 then
                (* it = opposite_side.erase(it) *)
                let side2 := delete level_price side1 in
                if Ladder.is_empty side2 then Some (m1, b1, side2)
                else match_levels fuel' m1 b1 order side2
                       (Ladder.next side2 level_price)
              else
                match side (deref m1 order) with
                | BUY =>
                    match_levels fuel' m1 b1 order side1
                      (Ladder.next side1 level_price)
                | SELL =>
                    if decide (Some level_price = Ladder.begin side1)
                    then Some (m1, b1, side1)
                    else match_levels fuel' m1 b1 order side1
                           (Ladder.prev side1 level_price)
                end
        end
      else Some (m, b, opposite_side)
  end.

(** A bound on the turns of the outer loop: a turn erases a level or
    moves the iterator one level on. *)
Definition levels_fuel (l : Ladder.t) : nat :=
  (S (size l) * S (size l))%nat.

(** [try_match_order(order, opposite_side)] *)
Definition try_match_order (m : Mem) (b : t) (order : ptr)
    (opposite_side : Ladder.t) : option (bool * Mem * t * Ladder.t) :=
  if Ladder.is_empty opposite_side then Some (false, m, b, opposite_side)
  else
    let it := match side (deref m order) with
              | BUY => Ladder.begin opposite_side
              | SELL => Ladder.rbegin opposite_side
              end in
    '(m1, b1, side1) ←
      match_levels (levels_fuel opposite_side) m b order opposite_side it;
    Some (0 <? filled_quantity (deref m1 order), m1, b1, side1).

(** [add_to_book(order)] *)
Definition add_to_book (m : Mem) (b : t) (order : ptr) : t :=
  let s := side (deref m order) in
  let px := price (deref m order) in
  let ladder := get_side b s in
  let lvl := default PriceLevel.new (ladder !! px) in
  set_side b s (<[px := PriceLevel.add_order m lvl order]> ladder).

Definition set_order_status (m : Mem) (order : ptr) (s : OrderStatus) : Mem :=
  store m order (set_status (deref m order) s).

(** [process_limit_order(order)] *)
Definition process_limit_order (m : Mem) (b : t) (order : ptr)
    : option (Mem * t) :=
  let opp := opposite (side (deref m order)) in
  '(matched, m1, b1, side1) ← try_match_order m b order (get_side b opp);
  let b2 := set_side b1 opp side1 in
  if (matched : bool) then
    if is_filled (deref m1 order) then
      Some (set_order_status m1 order FILLED, b2)
    else
      let m2 := set_order_status m1 order PARTIALLY_FILLED in
      Some (m2, add_to_book m2 b2 order)
  else
    let m2 := set_order_status m1 order NEW in
    Some (m2, add_to_book m2 b2 order).

(** [process_market_order(order)] *)
Definition process_market_order (m : Mem) (b : t) (order : ptr)
    : option (Mem * t) :=
  let opp := opposite (side (deref m order)) in
  '(matched, m1, b1, side1) ← try_match_order m b order (get_side b opp);
  let b2 := set_side b1 opp side1 in
  if (matched : bool) then
    if is_filled (deref m1 order) then
      Some (set_order_status m1 order FILLED, b2)
    else Some (set_order_status m1 order PARTIALLY_FILLED, b2)
  else Some (set_order_status m1 order REJECTED, b2).

(** [add_order(order)].  The three enumerators of [OrderType] are all the
    values an order type takes, so the [default] branch of the switch is
    not reached and the call returns [true]. *)
Definition add_order (m : Mem) (b : t) (order : ptr)
    : option (bool * Mem * t) :=
  let b0 := set_orders b (<[order_id (deref m order) := order]> (orders_ b)) in
  '(m1, b1) ←
    match order_type (deref m order) with
    | LIMIT => process_limit_order m b0 order
    | MARKET => process_market_order m b0 order
    | STOP => process_limit_order m b0 order
    end;
  Some (true, m1, b1).

(** [cancel_order(order_id)] *)
Definition cancel_order (m : Mem) (b : t) (id : Z) : bool * Mem * t :=
  match orders_ b !! id with
  | None => (false, m, b)
  | Some order =>
      let o := deref m order in
      if decide (status o = FILLED ∨ status o = CANCELLED) then (false, m, b)
      else
        let b1 :=
          if filled_quantity o <? quantity o then
            let ladder := get_side b (side o) in
            match ladder !! price o with
            | Some lvl =>
                let lvl1 := PriceLevel.remove_order m lvl id in
                if PriceLevel.is_empty lvl1
                then set_side b (side o) (delete (price o) ladder)
                else set_side b (side o) (<[price o := lvl1]> ladder)
            | None => b
            end
          else b in
        (true, set_order_status m order CANCELLED, b1)
  end.

(** [modify_order(order_id, new_quantity, new_price)] *)
Definition modify_order (m : Mem) (b : t) (id new_quantity new_price : Z)
    : option (bool * Mem * t) :=
  match orders_ b !! id with
  | None => Some (false, m, b)
  | Some order =>
      let o := deref m order in
      if decide (status o = FILLED ∨ status o = CANCELLED)
      then Some (false, m, b)
      else
        let '(_, m1, b1) := cancel_order m b id in
        let o1 := deref m1 order in
        let '(new_order, m2) :=
          make_shared m1
            (Order_new (clock m1) id (symbol_id o1) (side o1) (order_type o1)
               new_quantity
               (if 0 <? new_price then new_price else price o1) 0) in
        add_order m2 b1 new_order
  end.

(** [get_market_data()] *)
Definition get_market_data (m : Mem) (b : t) : MarketDataSnapshot.t :=
  let bid := match Ladder.rbegin (bids_ b) with
             | Some k => (k, from_option PriceLevel.get_total_quantity 0 (bids_ b !! k))
             | None => (0, 0)
             end in
  let ask := match Ladder.begin (asks_ b) with
             | Some k => (k, from_option PriceLevel.get_total_quantity 0 (asks_ b !! k))
             | None => (0, 0)
             end in
  MarketDataSnapshot.mk (symbol_id_ b) (clock m) bid.1 bid.2 ask.1 ask.2 0 0
    (total_volume_ b).

(** [get_bid_levels(depth)]: best (highest) price first. *)
Definition get_bid_levels (b : t) (depth : Z) : list (Z * Z) :=
  take (Z.to_nat depth) (reverse (Ladder.levels (bids_ b))).

(** [get_ask_levels(depth)]: best (lowest) price first. *)
Definition get_ask_levels (b : t) (depth : Z) : list (Z * Z) :=
  take (Z.to_nat depth) (Ladder.levels (asks_ b)).

Definition get_total_volume (b : t) : Z := total_volume_ b.
Definition get_trade_count (b : t) : Z := trade_count_ b.
Definition get_symbol_id (b : t) : Z := symbol_id_ b.
End SimpleOrderBook.

(** ** Requests against one book

    A caller builds the order with [std::make_shared<Order>(...)] and hands
    it to [add_order], as [OrderBookSimulator::submit_order] and the tests
    do; [cancel_order] and [modify_order] take the id. *)

Inductive Request :=
  | Add (id symbol : Z) (s : Side) (type : OrderType) (qty px : Z)
  | Cancel (id : Z)
  | Modify (id new_quantity new_price : Z).

Definition add_new_order (m : Mem) (b : SimpleOrderBook.t) (o : Order)
    : option (bool * Mem * SimpleOrderBook.t) :=
  let '(p, m1) := make_shared m o in
  SimpleOrderBook.add_order m1 b p.

Definition request (m : Mem) (b : SimpleOrderBook.t) (r : Request)
    : option (bool * Mem * SimpleOrderBook.t) :=
  match r with
  | Add id symbol s type qty px =>
      add_new_order m b (Order_new (clock m) id symbol s type qty px 0)
  | Cancel id => Some (SimpleOrderBook.cancel_order m b id)
  | Modify id q px => SimpleOrderBook.modify_order m b id q px
  end.

(** A sequence of requests, with the value each call returned. *)
Fixpoint requests (m : Mem) (b : SimpleOrderBook.t) (rs : list Request)
    : option (list bool * Mem * SimpleOrderBook.t) :=
  match rs with
  | [] => Some ([], m, b)
  | r :: rs' =>
      '(ret, m1, b1) ← request m b r;
      '(rets, m2, b2) ← requests m1 b1 rs';
      Some (ret :: rets, m2, b2)
  end.

Definition mem0 : Mem := mkMem [] 0.
Definition book0 : SimpleOrderBook.t := SimpleOrderBook.new 100.

(** The order object the index holds for an id. *)
Definition order_of (m : Mem) (b : SimpleOrderBook.t) (id : Z) : option Order :=
  (fun p => deref m p) <$> SimpleOrderBook.orders_ b !! id.

(** ** The multi-symbol engine: [OrderBookSimulator]

    The engine keeps one book per symbol.  Its book class has the interface
    of [SimpleOrderBook], whose member functions are the ones modelled above;
    the worker threads and the latency counters play no part in the calls
    below and are left out. *)

Module OrderBookSimulator.
Record t := mk {
  order_books_ : gmap Z SimpleOrderBook.t;
  next_order_id_ : Z
}.

(** The state after construction. *)
Definition new : t := mk ∅ 1.

(** [submit_order(symbol_id, side, type, quantity, price, stop_price)] *)
Definition submit_order (m : Mem) (s : t) (symbol : Z) (sd : Side)
    (type : OrderType) (qty px stop_px : Z) : option (Z * Mem * t) :=
  let id := next_order_id_ s in
  let '(order, m1) :=
    make_shared m (Order_new (clock m) id symbol sd type qty px stop_px) in
  let book := default (SimpleOrderBook.new symbol) (order_books_ s !! symbol) in
  '(_, m2, book') ← SimpleOrderBook.add_order m1 book order;
  Some (id, m2, mk (<[symbol := book']> (order_books_ s)) (wrap64 (id + 1))).

(** The scan of [cancel_order] over the books: the first book whose
    [cancel_order] returns true ends it.  [std::unordered_map] fixes no
    iteration order; the model takes the order of [map_to_list]. *)
Fixpoint cancel_scan (m : Mem) (books : list (Z * SimpleOrderBook.t)) (id : Z)
    : option (Z * Mem * SimpleOrderBook.t) :=
  match books with
  | [] => None
  | (symbol, book) :: rest =>
      let '(ok, m1, book1) := SimpleOrderBook.cancel_order m book id in
      if (ok : bool) then Some (symbol, m1, book1) else cancel_scan m rest id
  end.

(** [cancel_order(order_id)] *)
Definition cancel_order (m : Mem) (s : t) (id : Z) : bool * Mem * t :=
  match cancel_scan m (map_to_list (order_books_ s)) id with
  | Some (symbol, m1, book1) =>
      (true, m1, mk (<[symbol := book1]> (order_books_ s)) (next_order_id_ s))
  | None => (false, m, s)
  end.

(** The scan of [modify_order] over the books; the outer [option] is the
    one of [SimpleOrderBook.modify_order]. *)
Fixpoint modify_scan (m : Mem) (books : list (Z * SimpleOrderBook.t))
    (id new_quantity new_price : Z)
    : option (option (Z * Mem * SimpleOrderBook.t)) :=
  match books with
  | [] => Some None
  | (symbol, book) :: rest =>
      '(ok, m1, book1) ←
        SimpleOrderBook.modify_order m book id new_quantity new_price;
      if (ok : bool) then Some (Some (symbol, m1, book1))
      else modify_scan m rest id new_quantity new_price
  end.

(** [modify_order(order_id, new_quantity, new_price)] *)
Definition modify_order (m : Mem) (s : t) (id new_quantity new_price : Z)
    : option (bool * Mem * t) :=
  r ← modify_scan m (map_to_list (order_books_ s)) id new_quantity new_price;
  match r with
  | Some (symbol, m1, book1) =>
      Some (true, m1,
            mk (<[symbol := book1]> (order_books_ s)) (next_order_id_ s))
  | None => Some (false, m, s)
  end.

(** [get_market_data(symbol_id)] *)
Definition get_market_data (m : Mem) (s : t) (symbol : Z)
    : MarketDataSnapshot.t :=
  match order_books_ s !! symbol with
  | Some book => SimpleOrderBook.get_market_data m book
  | None => MarketDataSnapshot.new symbol
  end.

(** [get_bid_levels(symbol_id, depth)] *)
Definition get_bid_levels (s : t) (symbol depth : Z) : list (Z * Z) :=
  match order_books_ s !! symbol with
  | Some book => SimpleOrderBook.get_bid_levels book depth
  | None => []
  end.

(** [get_ask_levels(symbol_id, depth)] *)
Definition get_ask_levels (s : t) (symbol depth : Z) : list (Z * Z) :=
  match order_books_ s !! symbol with
  | Some book => SimpleOrderBook.get_ask_levels book depth
  | None => []
  end.
End OrderBookSimulator.

(** Calls to the engine. *)
Inductive Call :=
  | Submit (symbol : Z) (s : Side) (type : OrderType) (qty px stop_px : Z)
  | CancelOrder (id : Z)
  | ModifyOrder (id new_quantity new_price : Z).

Definition call (m : Mem) (s : OrderBookSimulator.t) (c : Call)
    : option (Mem * OrderBookSimulator.t) :=
  match c with
  | Submit symbol sd type qty px stop_px =>
      '(_, m1, s1) ← OrderBookSimulator.submit_order m s symbol sd type qty px stop_px;
      Some (m1, s1)
  | CancelOrder id =>
      let '(_, m1, s1) := OrderBookSimulator.cancel_order m s id in Some (m1, s1)
  | ModifyOrder id q px =>
      '(_, m1, s1) ← OrderBookSimulator.modify_order m s id q px;
      Some (m1, s1)
  end.

Fixpoint calls (m : Mem) (s : OrderBookSimulator.t) (cs : list Call)
    : option (Mem * OrderBookSimulator.t) :=
  match cs with
  | [] => Some (m, s)
  | c :: cs' => '(m1, s1) ← call m s c; calls m1 s1 cs'
  end.

(** The symbol a call names, if it names one. *)
Definition call_symbol (c : Call) : option Z :=
  match c with
  | Submit symbol _ _ _ _ _ => Some symbol
  | _ => None
  end.

(** ** Observations on a book *)

(** The addresses a ladder holds, level by level. *)
Definition resting_in (l : Ladder.t) : list ptr :=
  map_to_list l ≫= (fun kv => PriceLevel.orders_ kv.2).

(** Both ladders hold a level and the best bid is not below the best ask. *)
Definition crossed (b : SimpleOrderBook.t) : bool :=
  match Ladder.rbegin (SimpleOrderBook.bids_ b),
        Ladder.begin (SimpleOrderBook.asks_ b) with
  | Some best_bid, Some best_ask => best_ask <=? best_bid
  | _, _ => false
  end.

(** The sum of [quantity - filled_quantity] over the entries of a level whose
    status is neither FILLED nor CANCELLED. *)
Definition live_remaining (m : Mem) (lvl : PriceLevel.t) : Z :=
  foldr (fun p acc =>
           if is_live (status (deref m p))
           then remaining_quantity (deref m p) + acc else acc)
        0 (PriceLevel.orders_ lvl).

(** The trades a call added to the log. *)
Definition new_trades (b b' : SimpleOrderBook.t) : list Trade.t :=
  drop (length (SimpleOrderBook.trades_out b)) (SimpleOrderBook.trades_out b').

Definition traded_quantity (ts : list Trade.t) : Z :=
  foldr (fun t acc => Trade.quantity t + acc) 0 ts.

(** What a test reads off a trade. *)
Definition trade_view (t : Trade.t) : Z * Z * Z * Z :=
  (Trade.buy_order_id t, Trade.sell_order_id t, Trade.quantity t, Trade.price t).

(** ** Well-formed states

    The quantities of the stored orders are 64-bit values and the ladders
    hold addresses of stored orders only. *)

Definition quantities_u64 (m : Mem) : Prop :=
  Forall (fun o => u64 (quantity o)) (heap m).


(** Every address of the ladder is below [n]. *)
Definition ptrs_below (n : nat) (l : Ladder.t) : Prop :=
  map_Forall (fun _ lvl =>
                Forall (fun p => (p < n)%nat) (PriceLevel.orders_ lvl)) l.

Record well_formed (m : Mem) (b : SimpleOrderBook.t) : Prop := {
  wf_quantities : quantities_u64 m;
  wf_bids : ptrs_below (length (heap m)) (SimpleOrderBook.bids_ b);
  wf_asks : ptrs_below (length (heap m)) (SimpleOrderBook.asks_ b)
}.

(** The quantity a request carries is a 64-bit value. *)
Definition request_u64 (r : Request) : Prop :=
  match r with
  | Add _ _ _ _ qty _ => u64 qty
  | Cancel _ => True
  | Modify _ q _ => u64 q
  end.

(** The number of entries of a level that [get_best_order] can still return. *)
Definition live_count (m : Mem) (l : list ptr) : nat :=
  length (filter (fun p => is_live (status (deref m p)) = true) l).

(** The fields of an order that no member function writes. *)
Definition identity (o : Order) : Z * Z * Side * OrderType * Z * Z * Z * Z :=
  (order_id o, symbol_id o, side o, order_type o, quantity o, price o,
   stop_price o, timestamp o).

(** The levels from the iterator on, in the direction the incoming order
    walks the ladder. *)
Definition ahead (l : Ladder.t) (s : Side) (k : Z) : nat :=
  match s with
  | BUY => length (filter (fun x => k <= x) (Ladder.keys l))
  | SELL => length (filter (fun x => x <= k) (Ladder.keys l))
  end.

(** A measure of the outer loop of [try_match_order]: it drops with every
    turn, which erases a level or moves the iterator. *)
Definition turns_left (l : Ladder.t) (s : Side) (it : option Z) : nat :=
  (size l * S (size l) + from_option (ahead l s) 0 it)%nat.

(** [m'] holds the objects of [m], changed in fills and status at most. *)
Definition same_objects (m m' : Mem) : Prop :=
  length (heap m') = length (heap m) ∧ clock m' = clock m
  ∧ ∀ p, identity (deref m' p) = identity (deref m p).

(** [b'] is [b] up to the counters and the trade log. *)
Definition same_ladders (b b' : SimpleOrderBook.t) : Prop :=
  SimpleOrderBook.symbol_id_ b' = SimpleOrderBook.symbol_id_ b
  ∧ SimpleOrderBook.bids_ b' = SimpleOrderBook.bids_ b
  ∧ SimpleOrderBook.asks_ b' = SimpleOrderBook.asks_ b
  ∧ SimpleOrderBook.orders_ b' = SimpleOrderBook.orders_ b.

(** Every level of [l'] is a level of [l] that lost entries at most. *)
Definition ladder_within (l' l : Ladder.t) : Prop :=
  ∀ k lvl', l' !! k = Some lvl' →
    ∃ lvl, l !! k = Some lvl
           ∧ PriceLevel.orders_ lvl' `sublist_of` PriceLevel.orders_ lvl.

(** The trade that [execute_trade(order, matching_order, q)] builds from an
    incoming order [o] and a resting order [om]: the ids go by the side of
    the incoming order, and the price is the one of the order on the sell
    side. *)
Definition trade_between (o om : Order) (t : Trade.t) : Prop :=
  match side o with
  | BUY =>
      Trade.buy_order_id t = order_id o ∧ Trade.sell_order_id t = order_id om
      ∧ Trade.price t = price om
  | SELL =>
      Trade.sell_order_id t = order_id o ∧ Trade.buy_order_id t = order_id om
      ∧ Trade.price t = price o
  end.

(** The state a fresh book reaches by a sequence of requests. *)
Definition state_after (rs : list Request) : Mem * SimpleOrderBook.t :=
  match requests mem0 book0 rs with
  | Some (_, m, b) => (m, b)
  | None => (mem0, book0)
  end.

(** The state the engine reaches from its initial state by a sequence of
    calls. *)
Definition engine_after (cs : list Call) : Mem * OrderBookSimulator.t :=
  match calls mem0 OrderBookSimulator.new cs with
  | Some st => st
  | None => (mem0, OrderBookSimulator.new)
  end.

(** ** Invariants of the states a book reaches *)

(** The sum of the [quantity] of the entries of a level. *)
Definition level_quantity (m : Mem) (l : list ptr) : Z :=
  foldr (fun p acc => quantity (deref m p) + acc) 0 l.

(** The total of a level as [add_order] and [remove_order] keep it. *)
Definition total_ok (m : Mem) (lvl : PriceLevel.t) : Prop :=
  PriceLevel.total_quantity_ lvl
  = wrap64 (level_quantity m (PriceLevel.orders_ lvl)).

Definition totals_ok (m : Mem) (b : SimpleOrderBook.t) : Prop :=
  ∀ s k lvl, SimpleOrderBook.get_side b s !! k = Some lvl → total_ok m lvl.

(** Every order has filled no more than its quantity, and a FILLED order has
    filled all of it. *)
Definition fills_ok (m : Mem) : Prop :=
  Forall (fun o => 0 <= filled_quantity o <= quantity o
                   ∧ (status o = FILLED → filled_quantity o = quantity o))
         (heap m).

(** Every entry of a level is an order of that side and that price. *)
Definition placed_ok (m : Mem) (b : SimpleOrderBook.t) : Prop :=
  ∀ s k lvl p,
    SimpleOrderBook.get_side b s !! k = Some lvl →
    p ∈ PriceLevel.orders_ lvl →
    side (deref m p) = s ∧ price (deref m p) = k
    ∧ order_type (deref m p) ≠ MARKET.

(** The index maps an id to a stored order with that id. *)
Definition index_ok (m : Mem) (b : SimpleOrderBook.t) : Prop :=
  ∀ id p,
    SimpleOrderBook.orders_ b !! id = Some p →
    (p < length (heap m))%nat ∧ order_id (deref m p) = id.

(** The counters of a book against its trade log. *)
Definition counters_ok (b : SimpleOrderBook.t) : Prop :=
  SimpleOrderBook.total_volume_ b
  = wrap64 (traded_quantity (SimpleOrderBook.trades_out b))
  ∧ SimpleOrderBook.trade_count_ b
    = wrap64 (Z.of_nat (length (SimpleOrderBook.trades_out b)))
  ∧ SimpleOrderBook.next_trade_id_ b
    = wrap64 (1 + Z.of_nat (length (SimpleOrderBook.trades_out b)))
  ∧ ∀ k t, SimpleOrderBook.trades_out b !! k = Some t →
           Trade.trade_id t = wrap64 (1 + Z.of_nat k).

(** The sum of [filled_quantity] over all stored orders. *)
Definition filled_total (m : Mem) : Z :=
  foldr (fun o acc => filled_quantity o + acc) 0 (heap m).

(** ** The states of the engine *)

(** The quantity a call carries is a 64-bit value. *)
Definition call_u64 (c : Call) : Prop :=
  match c with
  | Submit _ _ _ qty _ _ => u64 qty
  | CancelOrder _ => True
  | ModifyOrder _ q _ => u64 q
  end.

(** The number of [submit_order] calls in a sequence. *)
Definition submits (cs : list Call) : Z :=
  Z.of_nat (length (filter (fun c => is_Some (call_symbol c)) cs)).

(** The next id is a 64-bit value, and every book of the engine is well
    formed over the one store and carries the symbol it is filed under. *)
Definition engine_wf (m : Mem) (s : OrderBookSimulator.t) : Prop :=
  quantities_u64 m
  ∧ u64 (OrderBookSimulator.next_order_id_ s)
  ∧ ∀ symbol book,
      OrderBookSimulator.order_books_ s !! symbol = Some book →
      well_formed m book ∧ SimpleOrderBook.symbol_id_ book = symbol.

(** The book knows an order under the id. *)
Definition knows (id : Z) (book : SimpleOrderBook.t) : Prop :=
  is_Some (SimpleOrderBook.orders_ book !! id).

(** The ids the books know have been handed out by the engine, each to one
    book. *)
Definition ids_ok (s : OrderBookSimulator.t) : Prop :=
  (∀ symbol book id,
      OrderBookSimulator.order_books_ s !! symbol = Some book →
      knows id book → 1 <= id < OrderBookSimulator.next_order_id_ s)
  ∧ ∀ symbol1 symbol2 book1 book2 id,
      OrderBookSimulator.order_books_ s !! symbol1 = Some book1 →
      OrderBookSimulator.order_books_ s !! symbol2 = Some book2 →
      knows id book1 → knows id book2 → symbol1 = symbol2.

(** The addresses a book holds: in its ladders and in its index. *)
Definition held_by (book : SimpleOrderBook.t) (p : ptr) : Prop :=
  p ∈ resting_in (SimpleOrderBook.bids_ book)
  ∨ p ∈ resting_in (SimpleOrderBook.asks_ book)
  ∨ ∃ id, SimpleOrderBook.orders_ book !! id = Some p.

(** Every order a book holds is a stored order of the symbol the book is
    filed under. *)
Definition filed_ok (m : Mem) (s : OrderBookSimulator.t) : Prop :=
  ∀ symbol book p,
    OrderBookSimulator.order_books_ s !! symbol = Some book →
    held_by book p →
    (p < length (heap m))%nat ∧ symbol_id (deref m p) = symbol.

(** * Properties *)

Import SimpleOrderBook.

(** ** Machine arithmetic *)

Lemma wrap64_u64 x : u64 (wrap64 x).
Proof. unfold u64, wrap64. apply Z.mod_pos_bound. lia. Qed.

Lemma wrap64_small x : u64 x → wrap64 x = x.
Proof. unfold u64, wrap64. intros H. apply Z.mod_small. lia. Qed.

Lemma wrap64_fill f q : u64 q → wrap64 (f + wrap64 (q - f)) = q.
Proof.
  intros Hq. unfold wrap64. rewrite Z.add_mod_idemp_r by lia.
  replace (f + (q - f)) with q by lia. apply Z.mod_small. exact Hq.
Qed.

(** ** The store *)

Lemma length_store m p o : length (heap (store m p o)) = length (heap m).
Proof. unfold store. simpl. apply length_insert. Qed.

Lemma deref_store_eq m p o :
  (p < length (heap m))%nat → deref (store m p o) p = o.
Proof. intros H. unfold deref, store. simpl. by apply list_lookup_total_insert_eq. Qed.

Lemma deref_store_ne m p p' o : p ≠ p' → deref (store m p o) p' = deref m p'.
Proof. intros H. unfold deref, store. simpl. by apply list_lookup_total_insert_ne. Qed.

Lemma deref_lookup m p o : heap m !! p = Some o → deref m p = o.
Proof. intros H. unfold deref. by apply list_lookup_total_correct. Qed.

Lemma quantities_u64_deref m p :
  quantities_u64 m → (p < length (heap m))%nat → u64 (quantity (deref m p)).
Proof.
  intros Hq Hp. destruct (lookup_lt_is_Some_2 (heap m) p Hp) as [o Ho].
  rewrite (deref_lookup _ _ _ Ho).
  unfold quantities_u64 in Hq. rewrite Forall_lookup in Hq. by eapply Hq.
Qed.

Lemma identity_fields o o' :
  identity o = identity o' →
  order_id o = order_id o' ∧ symbol_id o = symbol_id o' ∧ side o = side o'
  ∧ order_type o = order_type o' ∧ quantity o = quantity o'
  ∧ price o = price o'.
Proof. unfold identity. intros H. by simplify_eq. Qed.

(** A store with the same objects, up to fills and status, keeps the
    quantities in range. *)
Lemma quantities_u64_identity m m' :
  length (heap m') = length (heap m) →
  (∀ p, identity (deref m' p) = identity (deref m p)) →
  quantities_u64 m → quantities_u64 m'.
Proof.
  intros Hlen Hid Hq. unfold quantities_u64. apply Forall_lookup.
  intros i o Hi. specialize (Hid i). rewrite (deref_lookup _ _ _ Hi) in Hid.
  assert (Hi' : (i < length (heap m))%nat)
    by (rewrite <- Hlen; by eapply lookup_lt_Some).
  pose proof (quantities_u64_deref m i Hq Hi') as Hu.
  apply identity_fields in Hid as (_ & _ & _ & _ & -> & _). done.
Qed.

Lemma deref_store_proj {A} (f : Order → A) m p o p' :
  f o = f (deref m p) → f (deref (store m p o) p') = f (deref m p').
Proof.
  intros Ho. destruct (decide (p = p')) as [<-|Hne].
  - destruct (decide (p < length (heap m))%nat) as [Hlt|Hge].
    + by rewrite deref_store_eq.
    + unfold deref, store. simpl. rewrite list_insert_ge by lia. done.
  - by rewrite deref_store_ne.
Qed.

(** ** Price levels *)

Lemma remove_scan_sublist m id l total :
  (PriceLevel.remove_scan m id l total).1 `sublist_of` l.
Proof.
  induction l as [|p l IH]; simpl; [done|].
  destruct (order_id (deref m p) =? id).
  - simpl. by apply sublist_cons.
  - destruct (PriceLevel.remove_scan m id l total) as [r t'] eqn:E. simpl in *.
    by apply sublist_skip.
Qed.

Lemma remove_order_sublist m lvl id :
  PriceLevel.orders_ (PriceLevel.remove_order m lvl id)
    `sublist_of` PriceLevel.orders_ lvl.
Proof.
  unfold PriceLevel.remove_order.
  pose proof (remove_scan_sublist m id (PriceLevel.orders_ lvl)
                (PriceLevel.total_quantity_ lvl)) as H.
  destruct (PriceLevel.remove_scan _ _ _ _) as [l t']. exact H.
Qed.

Lemma get_best_order_Some m lvl p :
  PriceLevel.get_best_order m lvl = Some p →
  p ∈ PriceLevel.orders_ lvl ∧ is_live (status (deref m p)) = true.
Proof.
  unfold PriceLevel.get_best_order. intros H.
  apply find_some in H as [Hin Hl]. split; [by apply list_elem_of_In | done].
Qed.

Lemma live_count_sublist m l1 l2 :
  l1 `sublist_of` l2 → (live_count m l1 ≤ live_count m l2)%nat.
Proof.
  intros H. unfold live_count. apply sublist_length.
  induction H as [|x l1 l2 H IH|x l1 l2 H IH]; [done| |].
  - rewrite !filter_cons. destruct (decide _); [by apply sublist_skip | done].
  - rewrite filter_cons. destruct (decide _); [by apply sublist_cons | done].
Qed.

(** Statuses only move away from live on the entries of [l], and one live
    entry moved: the count drops. *)
Lemma live_count_drop m m' l pm :
  (∀ p, p ∈ l → is_live (status (deref m' p)) = true →
        is_live (status (deref m p)) = true) →
  pm ∈ l → is_live (status (deref m pm)) = true →
  is_live (status (deref m' pm)) = false →
  (live_count m' l < live_count m l)%nat.
Proof.
  unfold live_count. induction l as [|p l IH]; intros Hmono Hin Hl Hd.
  - by apply elem_of_nil in Hin.
  - rewrite !filter_cons.
    assert (Hle : (length (filter (λ p, is_live (status (deref m' p)) = true) l)
                   ≤ length (filter (λ p, is_live (status (deref m p)) = true) l))%nat).
    { clear -Hmono. induction l as [|q l IH]; [done|].
      rewrite !filter_cons.
      assert (Hm : ∀ p0, p0 ∈ p :: l → is_live (status (deref m' p0)) = true
                         → is_live (status (deref m p0)) = true).
      { intros p0 Hp0. apply Hmono. apply elem_of_cons in Hp0 as [->|Hp0];
          [by left | right; by right]. }
      specialize (IH Hm).
      destruct (decide (is_live (status (deref m' q)) = true)) as [H1|H1].
      - rewrite decide_True by (apply Hmono; [right; by left | done]).
        simpl. lia.
      - destruct (decide (is_live (status (deref m q)) = true)); simpl; lia. }
    apply elem_of_cons in Hin as [->|Hin].
    + rewrite (decide_True _ _ Hl), decide_False by congruence. simpl. lia.
    + assert (IH' := IH (λ q Hq, Hmono q (list_elem_of_further _ _ _ Hq)) Hin Hl Hd).
      destruct (decide (is_live (status (deref m' p)) = true)) as [H1|H1].
      * rewrite decide_True by (apply Hmono; [by left | done]). simpl. lia.
      * destruct (decide (is_live (status (deref m p)) = true)); simpl; lia.
Qed.

(** ** One trade *)

Section execute_trade.
Context (m : Mem) (b : t) (order matching_order : ptr) (q : Z).

Local Abbreviation m' := (execute_trade m b order matching_order q).1.
Local Abbreviation b' := (execute_trade m b order matching_order q).2.

Lemma execute_trade_length : length (heap m') = length (heap m).
Proof. unfold execute_trade. simpl. by rewrite !length_insert. Qed.

Lemma execute_trade_proj {A} (f : Order → A) p :
  (∀ o, f (add_filled o q) = f o) → f (deref m' p) = f (deref m p).
Proof.
  intros Hf. unfold execute_trade. simpl.
  rewrite deref_store_proj by apply Hf.
  by rewrite deref_store_proj by apply Hf.
Qed.

Lemma execute_trade_other p :
  p ≠ order → p ≠ matching_order → deref m' p = deref m p.
Proof.
  intros H1 H2. unfold execute_trade. simpl.
  by rewrite !deref_store_ne by done.
Qed.

Lemma execute_trade_order :
  order ≠ matching_order → (order < length (heap m))%nat →
  deref m' order = add_filled (deref m order) q.
Proof.
  intros Hne Hlt. unfold execute_trade. simpl.
  rewrite deref_store_ne by done. by rewrite deref_store_eq.
Qed.

Lemma execute_trade_matching :
  order ≠ matching_order → (matching_order < length (heap m))%nat →
  deref m' matching_order = add_filled (deref m matching_order) q.
Proof.
  intros Hne Hlt. unfold execute_trade. simpl.
  rewrite deref_store_eq by (by rewrite length_store).
  by rewrite deref_store_ne.
Qed.
End execute_trade.

(** ** One turn of the inner loop *)

Section fill_turn.
Context (m : Mem) (b : t) (order matching_order : ptr) (lvl : PriceLevel.t).
Context (m1 : Mem) (b1 : t) (lvl1 : PriceLevel.t).
Context (Hturn : fill_turn m b order matching_order lvl = (m1, b1, lvl1)).

Local Abbreviation q := (Z.min (remaining_quantity (deref m order))
                           (remaining_quantity (deref m matching_order))).

Local Ltac open_turn :=
  unfold fill_turn in Hturn;
  destruct (execute_trade m b order matching_order q) as [me be] eqn:HE;
  destruct (is_filled (deref me matching_order)) eqn:Hfilled;
  inversion Hturn; subst; clear Hturn.

Lemma fill_turn_length : length (heap m1) = length (heap m).
Proof.
  pose proof (execute_trade_length m b order matching_order q) as H.
  open_turn; simpl in H; [by rewrite length_store | done].
Qed.

Lemma fill_turn_proj {A} (f : Order → A) p :
  (∀ o x, f (add_filled o x) = f o) → (∀ o s, f (set_status o s) = f o) →
  f (deref m1 p) = f (deref m p).
Proof.
  intros Hf Hs.
  pose proof (execute_trade_proj m b order matching_order q f p (λ o, Hf o q)) as H.
  open_turn; simpl in H; [|done].
  rewrite deref_store_proj by apply Hs. done.
Qed.

Lemma fill_turn_identity p : identity (deref m1 p) = identity (deref m p).
Proof. by apply fill_turn_proj. Qed.

Lemma fill_turn_clock : clock m1 = clock m.
Proof. open_turn; by inversion HE. Qed.

Lemma fill_turn_sublist :
  PriceLevel.orders_ lvl1 `sublist_of` PriceLevel.orders_ lvl.
Proof. open_turn; [apply remove_order_sublist | done]. Qed.

Lemma fill_turn_other p :
  p ≠ order → p ≠ matching_order → deref m1 p = deref m p.
Proof.
  intros H1 H2.
  pose proof (execute_trade_other m b order matching_order q p H1 H2) as H.
  open_turn; simpl in H; [|done].
  by rewrite deref_store_ne.
Qed.

Lemma fill_turn_order :
  order ≠ matching_order → (order < length (heap m))%nat →
  deref m1 order = add_filled (deref m order) q.
Proof.
  intros H1 H2.
  pose proof (execute_trade_order m b order matching_order q H1 H2) as H.
  open_turn; simpl in H; [|done].
  by rewrite deref_store_ne.
Qed.

Lemma fill_turn_book :
  symbol_id_ b1 = symbol_id_ b ∧ bids_ b1 = bids_ b ∧ asks_ b1 = asks_ b
  ∧ orders_ b1 = orders_ b
  ∧ trades_out b1 =
      trades_out b ++
      [Trade.mk (next_trade_id_ b)
         (order_id (deref m (if decide (side (deref m order) = BUY)
                             then order else matching_order)))
         (order_id (deref m (if decide (side (deref m order) = SELL)
                             then order else matching_order)))
         (symbol_id_ b) q
         (price (deref m (if decide (side (deref m order) = SELL)
                          then order else matching_order)))
         (clock m)].
Proof. open_turn; by inversion HE. Qed.

(** After a turn the incoming order has nothing left, or the resting order
    it met is FILLED. *)
Lemma fill_turn_progress :
  quantities_u64 m → order ≠ matching_order →
  (order < length (heap m))%nat → (matching_order < length (heap m))%nat →
  remaining_quantity (deref m1 order) = 0
  ∨ status (deref m1 matching_order) = FILLED.
Proof.
  intros Hq Hne Ho Hm.
  pose proof (execute_trade_length m b order matching_order q) as Hlen.
  pose proof (execute_trade_order m b order matching_order q Hne Ho) as Hord.
  pose proof (execute_trade_matching m b order matching_order q Hne Hm) as Hmat.
  open_turn; simpl in Hlen, Hord, Hmat.
  - right. rewrite deref_store_eq by lia. done.
  - left. rewrite Hord. rewrite Hmat in Hfilled.
    pose proof (quantities_u64_deref m order Hq Ho) as Hqo.
    pose proof (quantities_u64_deref m matching_order Hq Hm) as Hqm.
    assert (Hqeq : Z.min (remaining_quantity (deref m order))
                         (remaining_quantity (deref m matching_order))
                   = remaining_quantity (deref m order)).
    { destruct (Z.min_spec (remaining_quantity (deref m order))
                  (remaining_quantity (deref m matching_order)))
        as [[_ ->]|[_ Hmin]]; [done|].
      exfalso. unfold is_filled, add_filled in Hfilled.
      cbn [filled_quantity quantity] in Hfilled.
      apply Z.eqb_neq in Hfilled. apply Hfilled. rewrite Hmin.
      unfold remaining_quantity. by apply wrap64_fill. }
    rewrite Hqeq. unfold remaining_quantity, add_filled.
    cbn [filled_quantity quantity].
    rewrite wrap64_fill by done. by rewrite Z.sub_diag.
Qed.
End fill_turn.

(** ** The inner loop *)

(** A property of the state that every turn keeps holds when the loop ends. *)
Lemma match_level_inv (I : Mem → t → PriceLevel.t → Prop) (order : ptr) :
  (∀ m b lvl pm m1 b1 lvl1,
      I m b lvl →
      PriceLevel.get_best_order m lvl = Some pm →
      fill_turn m b order pm lvl = (m1, b1, lvl1) → I m1 b1 lvl1) →
  ∀ fuel m b lvl m' b' lvl',
    I m b lvl → match_level fuel m b order lvl = Some (m', b', lvl') →
    I m' b' lvl'.
Proof.
  intros Hstep fuel. induction fuel as [|fuel IH]; intros m b lvl m' b' lvl' HI H;
    simpl in H.
  - destruct (0 <? remaining_quantity (deref m order));
      [destruct (PriceLevel.get_best_order m lvl)|]; by simplify_eq.
  - destruct (0 <? remaining_quantity (deref m order)); [|by simplify_eq].
    destruct (PriceLevel.get_best_order m lvl) as [pm|] eqn:Hb; [|by simplify_eq].
    destruct (fill_turn m b order pm lvl) as [[m1 b1] lvl1] eqn:Ht.
    eapply IH; [|exact H]. eapply Hstep; eauto.
Qed.

(** The inner loop ends within as many turns as the level has live entries. *)
Lemma match_level_total fuel m b order lvl :
  quantities_u64 m → (order < length (heap m))%nat →
  Forall (fun p => (p < length (heap m))%nat) (PriceLevel.orders_ lvl) →
  order ∉ PriceLevel.orders_ lvl →
  (live_count m (PriceLevel.orders_ lvl) ≤ fuel)%nat →
  is_Some (match_level fuel m b order lvl).
Proof.
  revert m b lvl. induction fuel as [|fuel IH]; intros m b lvl Hq Ho Hv Hnin Hc;
    simpl.
  - destruct (0 <? remaining_quantity (deref m order)); [|done].
    destruct (PriceLevel.get_best_order m lvl) as [pm|] eqn:Hb; [|done].
    apply get_best_order_Some in Hb as [Hin Hl]. exfalso.
    assert (0 < live_count m (PriceLevel.orders_ lvl))%nat; [|lia].
    unfold live_count.
    assert (Hpm : pm ∈ filter (λ p, is_live (status (deref m p)) = true)
                    (PriceLevel.orders_ lvl))
      by (by apply list_elem_of_filter).
    destruct (filter _ _); [by apply elem_of_nil in Hpm | simpl; lia].
  - destruct (0 <? remaining_quantity (deref m order)); [|done].
    destruct (PriceLevel.get_best_order m lvl) as [pm|] eqn:Hb; [|done].
    apply get_best_order_Some in Hb as [Hin Hl].
    destruct (fill_turn m b order pm lvl) as [[m1 b1] lvl1] eqn:Ht.
    assert (Hpm : (pm < length (heap m))%nat)
      by (rewrite Forall_forall in Hv; by apply Hv).
    assert (Hne : order ≠ pm) by (intros ->; done).
    pose proof (fill_turn_length _ _ _ _ _ _ _ _ Ht) as Hlen.
    pose proof (fill_turn_sublist _ _ _ _ _ _ _ _ Ht) as Hsub.
    assert (Hq1 : quantities_u64 m1).
    { eapply quantities_u64_identity; [exact Hlen| |exact Hq].
      intros p. eapply fill_turn_identity; exact Ht. }
    destruct (fill_turn_progress _ _ _ _ _ _ _ _ Ht Hq Hne Ho Hpm) as [Hz|Hf].
    + destruct fuel; simpl; rewrite Hz; done.
    + apply IH; try done.
      * by rewrite Hlen.
      * rewrite Hlen. rewrite Forall_forall in Hv |- *. intros p Hp.
        apply Hv. eapply elem_of_sublist; [exact Hp | exact Hsub].
      * intros Hx. apply Hnin. eapply elem_of_sublist; [exact Hx | exact Hsub].
      * assert (live_count m1 (PriceLevel.orders_ lvl)
                < live_count m (PriceLevel.orders_ lvl))%nat.
        { apply (live_count_drop m m1 _ pm); try done.
          - intros p Hp Hlive. destruct (decide (p = pm)) as [->|Hpne].
            + by rewrite Hf in Hlive.
            + rewrite (fill_turn_other _ _ _ _ _ _ _ _ Ht p) in Hlive; [done| |done].
              intros ->. done.
          - by rewrite Hf. }
        pose proof (live_count_sublist m1 _ _ Hsub). lia.
Qed.

(** ** Ladders *)

Lemma elem_of_keys (l : Ladder.t) k : k ∈ Ladder.keys l ↔ is_Some (l !! k).
Proof.
  unfold Ladder.keys. rewrite merge_sort_Permutation, elem_of_elements.
  apply elem_of_dom.
Qed.

Lemma length_keys (l : Ladder.t) : length (Ladder.keys l) = size l.
Proof.
  unfold Ladder.keys. rewrite merge_sort_Permutation.
  rewrite <- size_dom. done.
Qed.

Lemma keys_insert (l : Ladder.t) k v :
  is_Some (l !! k) → Ladder.keys (<[k := v]> l) = Ladder.keys l.
Proof. intros H. unfold Ladder.keys. by rewrite dom_insert_lookup_L. Qed.

Lemma next_Some (l : Ladder.t) k k' :
  Ladder.next l k = Some k' → is_Some (l !! k') ∧ k < k'.
Proof.
  unfold Ladder.next. intros H. apply head_Some_elem_of in H.
  apply list_elem_of_filter in H as [Hlt Hin]. by apply elem_of_keys in Hin.
Qed.

Lemma prev_Some (l : Ladder.t) k k' :
  Ladder.prev l k = Some k' → is_Some (l !! k') ∧ k' < k.
Proof.
  unfold Ladder.prev. intros H. apply last_Some_elem_of in H.
  apply list_elem_of_filter in H as [Hlt Hin]. by apply elem_of_keys in Hin.
Qed.

Lemma begin_Some (l : Ladder.t) k : Ladder.begin l = Some k → is_Some (l !! k).
Proof.
  unfold Ladder.begin. intros H. apply head_Some_elem_of in H.
  by apply elem_of_keys.
Qed.

Lemma rbegin_Some (l : Ladder.t) k : Ladder.rbegin l = Some k → is_Some (l !! k).
Proof.
  unfold Ladder.rbegin. intros H. apply last_Some_elem_of in H.
  by apply elem_of_keys.
Qed.

Lemma length_filter_strict {A} (P Q : A → Prop)
    `{!∀ x, Decision (P x)} `{!∀ x, Decision (Q x)} (l : list A) (x : A) :
  (∀ y, Q y → P y) → x ∈ l → P x → ¬ Q x →
  (length (filter Q l) < length (filter P l))%nat.
Proof.
  intros HQP Hin HP HQ.
  assert (Hle : ∀ l' : list A, (length (filter Q l') ≤ length (filter P l'))%nat).
  { induction l' as [|y l' IH]; [done|]. rewrite !filter_cons.
    destruct (decide (Q y)) as [Hy|Hy].
    - rewrite decide_True by auto. simpl. lia.
    - destruct (decide (P y)); simpl; lia. }
  induction l as [|y l IH]; [by apply elem_of_nil in Hin|].
  rewrite !filter_cons. apply elem_of_cons in Hin as [<-|Hin].
  - rewrite decide_False, decide_True by done. simpl. specialize (Hle l). lia.
  - specialize (IH Hin). destruct (decide (Q y)) as [Hy|Hy].
    + rewrite decide_True by auto. simpl. lia.
    + destruct (decide (P y)); simpl; lia.
Qed.

Lemma ahead_le (l : Ladder.t) s k : (ahead l s k ≤ size l)%nat.
Proof.
  unfold ahead. rewrite <- length_keys. destruct s; apply length_filter.
Qed.

Lemma ahead_pos (l : Ladder.t) s k : is_Some (l !! k) → (0 < ahead l s k)%nat.
Proof.
  intros H. apply elem_of_keys in H. unfold ahead.
  destruct s.
  - assert (Hk : k ∈ filter (λ x, k <= x) (Ladder.keys l))
      by (apply list_elem_of_filter; split; [lia | done]).
    destruct (filter _ _); [by apply elem_of_nil in Hk | simpl; lia].
  - assert (Hk : k ∈ filter (λ x, x <= k) (Ladder.keys l))
      by (apply list_elem_of_filter; split; [lia | done]).
    destruct (filter _ _); [by apply elem_of_nil in Hk | simpl; lia].
Qed.

(** Erasing the level under the iterator. *)
Lemma turns_left_erase (l : Ladder.t) s k v it :
  is_Some (l !! k) →
  (turns_left (delete k (<[k := v]> l)) s it < turns_left l s (Some k))%nat.
Proof.
  intros [w Hk]. unfold turns_left.
  assert (Hsize : size l = S (size (delete k (<[k := v]> l)))).
  { rewrite delete_insert_eq.
    rewrite <- (insert_delete_id l k w) at 1 by done.
    rewrite map_size_insert_None by apply lookup_delete_eq. done. }
  assert (Hit : (from_option (ahead (delete k (<[k := v]> l)) s) 0 it
                 ≤ size (delete k (<[k := v]> l)))%nat).
  { destruct it; simpl; [apply ahead_le | lia]. }
  rewrite Hsize. simpl from_option. nia.
Qed.

(** Moving the iterator forward ([++it], a BUY order). *)
Lemma turns_left_next (l : Ladder.t) k v :
  is_Some (l !! k) →
  (turns_left (<[k := v]> l) BUY (Ladder.next (<[k := v]> l) k)
   < turns_left l BUY (Some k))%nat.
Proof.
  intros Hk. unfold turns_left.
  assert (Hsize : size (<[k := v]> l) = size l).
  { rewrite <- !length_keys. by rewrite keys_insert. }
  rewrite Hsize. apply Nat.add_lt_mono_l.
  destruct (Ladder.next (<[k := v]> l) k) as [k'|] eqn:Hn; simpl.
  - apply next_Some in Hn as [_ Hlt]. unfold ahead. rewrite keys_insert by done.
    apply (length_filter_strict _ _ _ k); [lia | by apply elem_of_keys | lia | lia].
  - exact (ahead_pos l BUY k Hk).
Qed.

(** Moving the iterator backward ([--it], a SELL order). *)
Lemma turns_left_prev (l : Ladder.t) k v :
  is_Some (l !! k) →
  (turns_left (<[k := v]> l) SELL (Ladder.prev (<[k := v]> l) k)
   < turns_left l SELL (Some k))%nat.
Proof.
  intros Hk. unfold turns_left.
  assert (Hsize : size (<[k := v]> l) = size l).
  { rewrite <- !length_keys. by rewrite keys_insert. }
  rewrite Hsize. apply Nat.add_lt_mono_l.
  destruct (Ladder.prev (<[k := v]> l) k) as [k'|] eqn:Hn; simpl.
  - apply prev_Some in Hn as [_ Hlt]. unfold ahead. rewrite keys_insert by done.
    apply (length_filter_strict _ _ _ k); [lia | by apply elem_of_keys | lia | lia].
  - exact (ahead_pos l SELL k Hk).
Qed.

Lemma turns_left_begin (l : Ladder.t) s it :
  (turns_left l s it < levels_fuel l)%nat.
Proof.
  unfold turns_left, levels_fuel.
  assert (from_option (ahead l s) 0 it ≤ size l)%nat
    by (destruct it; simpl; [apply ahead_le | lia]).
  nia.
Qed.

Lemma ptrs_below_insert n (l : Ladder.t) k lvl lvl' :
  ptrs_below n l → l !! k = Some lvl →
  PriceLevel.orders_ lvl' `sublist_of` PriceLevel.orders_ lvl →
  ptrs_below n (<[k := lvl']> l).
Proof.
  intros Hl Hk Hsub. unfold ptrs_below. apply map_Forall_insert_2; [|done].
  specialize (Hl k lvl Hk). simpl in Hl.
  rewrite Forall_forall in Hl |- *. intros p Hp. apply Hl.
  eapply elem_of_sublist; [exact Hp | exact Hsub].
Qed.

Lemma ptrs_below_delete n (l : Ladder.t) k :
  ptrs_below n l → ptrs_below n (delete k l).
Proof. intros Hl. unfold ptrs_below. by apply map_Forall_delete. Qed.

Lemma ptrs_below_mono n n' (l : Ladder.t) :
  (n ≤ n')%nat → ptrs_below n l → ptrs_below n' l.
Proof.
  intros Hle Hl. unfold ptrs_below in *. eapply map_Forall_impl; [exact Hl|].
  simpl. intros _ lvl Hf. eapply Forall_impl; [exact Hf|]. simpl. lia.
Qed.

Lemma same_objects_refl m : same_objects m m.
Proof. done. Qed.

Lemma same_objects_trans m1 m2 m3 :
  same_objects m1 m2 → same_objects m2 m3 → same_objects m1 m3.
Proof.
  intros (Hl1 & Hc1 & Hi1) (Hl2 & Hc2 & Hi2). repeat split.
  - congruence.
  - congruence.
  - intros p. by rewrite Hi2.
Qed.

Lemma same_objects_store m p o :
  identity o = identity (deref m p) → same_objects m (store m p o).
Proof.
  intros H. repeat split.
  - apply length_store.
  - intros p'. by apply deref_store_proj.
Qed.

Lemma same_objects_quantities m m' :
  same_objects m m' → quantities_u64 m → quantities_u64 m'.
Proof. intros (Hl & _ & Hi). by apply quantities_u64_identity. Qed.

Lemma same_ladders_refl b : same_ladders b b.
Proof. done. Qed.

Lemma same_ladders_trans b1 b2 b3 :
  same_ladders b1 b2 → same_ladders b2 b3 → same_ladders b1 b3.
Proof.
  intros (?&?&?&?) (?&?&?&?). repeat split; congruence.
Qed.

Lemma fill_turn_frame m b order pm lvl m1 b1 lvl1 :
  fill_turn m b order pm lvl = (m1, b1, lvl1) →
  same_objects m m1 ∧ same_ladders b b1
  ∧ PriceLevel.orders_ lvl1 `sublist_of` PriceLevel.orders_ lvl.
Proof.
  intros Ht. split; [|split].
  - repeat split.
    + eapply fill_turn_length; eauto.
    + eapply fill_turn_clock; eauto.
    + intros p. eapply fill_turn_identity; eauto.
  - pose proof (fill_turn_book _ _ _ _ _ _ _ _ Ht) as (?&?&?&?&_). done.
  - eapply fill_turn_sublist; eauto.
Qed.

Lemma match_level_frame fuel m b order lvl m' b' lvl' :
  match_level fuel m b order lvl = Some (m', b', lvl') →
  same_objects m m' ∧ same_ladders b b'
  ∧ PriceLevel.orders_ lvl' `sublist_of` PriceLevel.orders_ lvl.
Proof.
  intros H.
  apply (match_level_inv
           (λ m1 b1 lvl1, same_objects m m1 ∧ same_ladders b b1
              ∧ PriceLevel.orders_ lvl1 `sublist_of` PriceLevel.orders_ lvl)
           order) with (fuel := fuel) (m := m) (b := b) (lvl := lvl); [| |exact H].
  - intros m0 b0 lvl0 pm m1 b1 lvl1 (Ho & Hl & Hs) _ Ht.
    apply fill_turn_frame in Ht as (Ho' & Hl' & Hs').
    split; [|split].
    + by eapply same_objects_trans.
    + by eapply same_ladders_trans.
    + by etrans.
  - done.
Qed.

(** ** The outer loop *)

(** A property of the state that the run over one level and the removal of
    a level keep holds when the loop ends. *)
Lemma match_levels_inv (J : Mem → t → Ladder.t → Prop) (order : ptr) :
  (∀ m b opp k lvl m1 b1 lvl1,
      J m b opp → opp !! k = Some lvl →
      match_level (length (PriceLevel.orders_ lvl)) m b order lvl
        = Some (m1, b1, lvl1) →
      J m1 b1 (<[k := lvl1]> opp)) →
  (∀ m b opp k, J m b opp → J m b (delete k opp)) →
  ∀ fuel m b opp it m' b' opp',
    J m b opp → match_levels fuel m b order opp it = Some (m', b', opp') →
    J m' b' opp'.
Proof.
  intros Hlevel Herase fuel.
  induction fuel as [|fuel IH]; intros m b opp it m' b' opp' HJ H; simpl in H.
  - destruct it; [|by simplify_eq].
    destruct (0 <? remaining_quantity (deref m order)); by simplify_eq.
  - destruct it as [k|]; [|by simplify_eq].
    destruct (0 <? remaining_quantity (deref m order)); [|by simplify_eq].
    destruct (opp !! k) as [lvl|] eqn:Hk; simpl in H; [|done].
    destruct (negb (price_acceptable (deref m order) k)); [by simplify_eq|].
    destruct (match_level (length (PriceLevel.orders_ lvl)) m b order lvl)
      as [[[m1 b1] lvl1]|] eqn:Hml; simpl in H; [|done].
    pose proof (Hlevel _ _ _ _ _ _ _ _ HJ Hk Hml) as HJ1.
    destruct (PriceLevel.is_empty lvl1).
    + destruct (Ladder.is_empty _).
      * simplify_eq. by apply Herase.
      * eapply IH; [|exact H]. by apply Herase.
    + destruct (side (deref m1 order)).
      * eapply IH; [|exact H]. done.
      * destruct (decide _); [by simplify_eq|]. eapply IH; [|exact H]. done.
Qed.

(** The outer loop ends: every level of the ladder holds addresses older
    than the incoming order, and the fuel covers the measure. *)
Lemma match_levels_total fuel m b order opp it :
  quantities_u64 m → (order < length (heap m))%nat → ptrs_below order opp →
  (∀ k, it = Some k → is_Some (opp !! k)) →
  (turns_left opp (side (deref m order)) it < fuel)%nat →
  is_Some (match_levels fuel m b order opp it).
Proof.
  revert m b opp it.
  induction fuel as [|fuel IH]; intros m b opp it Hq Ho Hp Hit Hfuel; [lia|].
  simpl. destruct it as [k|]; [|done].
  destruct (0 <? remaining_quantity (deref m order)); [|done].
  destruct (Hit k eq_refl) as [lvl Hk]. rewrite Hk. simpl.
  destruct (negb (price_acceptable (deref m order) k)); [done|].
  pose proof (Hp k lvl Hk) as Hlvl. simpl in Hlvl.
  destruct (match_level_total (length (PriceLevel.orders_ lvl)) m b order lvl)
    as [[[m1 b1] lvl1] Hml]; try done.
  { eapply Forall_impl; [exact Hlvl|]. simpl. lia. }
  { intros Hin. rewrite Forall_forall in Hlvl. specialize (Hlvl _ Hin). lia. }
  { unfold live_count. apply length_filter. }
  rewrite Hml. simpl.
  apply match_level_frame in Hml as (Hobj & _ & Hsub).
  assert (Hq1 := same_objects_quantities _ _ Hobj Hq).
  destruct Hobj as (Hlen & _ & Hid).
  assert (Hside : side (deref m1 order) = side (deref m order)).
  { specialize (Hid order). by apply identity_fields in Hid as (_&_&->&_). }
  assert (Hp1 : ptrs_below order (<[k := lvl1]> opp))
    by (by eapply ptrs_below_insert).
  destruct (PriceLevel.is_empty lvl1).
  - destruct (Ladder.is_empty _); [done|].
    apply IH; try done.
    + by rewrite Hlen.
    + by apply ptrs_below_delete.
    + intros k' Hn. by apply next_Some in Hn as [? _].
    + rewrite Hside.
      pose proof (turns_left_erase opp (side (deref m order)) k lvl1
                    (Ladder.next (delete k (<[k := lvl1]> opp)) k)
                    (mk_is_Some _ _ Hk)).
      lia.
  - rewrite Hside in *. destruct (side (deref m order)) eqn:Hs.
    + apply IH; try done.
      * by rewrite Hlen.
      * intros k' Hn. by apply next_Some in Hn as [? _].
      * rewrite Hside.
        pose proof (turns_left_next opp k lvl1 (mk_is_Some _ _ Hk)). lia.
    + destruct (decide _); [done|]. apply IH; try done.
      * by rewrite Hlen.
      * intros k' Hn. by apply prev_Some in Hn as [? _].
      * rewrite Hside.
        pose proof (turns_left_prev opp k lvl1 (mk_is_Some _ _ Hk)). lia.
Qed.

Lemma ladder_within_refl (l : Ladder.t) : ladder_within l l.
Proof. intros k lvl H. by exists lvl. Qed.

Lemma ladder_within_trans (l1 l2 l3 : Ladder.t) :
  ladder_within l1 l2 → ladder_within l2 l3 → ladder_within l1 l3.
Proof.
  intros H12 H23 k lvl1 H1. destruct (H12 _ _ H1) as (lvl2 & H2 & Hs12).
  destruct (H23 _ _ H2) as (lvl3 & H3 & Hs23). exists lvl3. split; [done|].
  by etrans.
Qed.

Lemma ladder_within_insert (l : Ladder.t) k lvl lvl' :
  l !! k = Some lvl →
  PriceLevel.orders_ lvl' `sublist_of` PriceLevel.orders_ lvl →
  ladder_within (<[k := lvl']> l) l.
Proof.
  intros Hk Hs k' x Hx. destruct (decide (k = k')) as [<-|Hne].
  - rewrite lookup_insert_eq in Hx. simplify_eq. by exists lvl.
  - rewrite lookup_insert_ne in Hx by done. by exists x.
Qed.

Lemma ladder_within_delete (l : Ladder.t) k : ladder_within (delete k l) l.
Proof.
  intros k' x Hx. apply lookup_delete_Some in Hx as [_ Hx]. by exists x.
Qed.

Lemma ladder_within_below n (l' l : Ladder.t) :
  ladder_within l' l → ptrs_below n l → ptrs_below n l'.
Proof.
  intros Hw Hl k lvl' Hk. simpl. destruct (Hw _ _ Hk) as (lvl & Hk' & Hs).
  specialize (Hl _ _ Hk'). simpl in Hl. rewrite Forall_forall in Hl |- *.
  intros p Hp. apply Hl. eapply elem_of_sublist; [exact Hp | exact Hs].
Qed.

Lemma match_levels_frame fuel m b order opp it m' b' opp' :
  match_levels fuel m b order opp it = Some (m', b', opp') →
  same_objects m m' ∧ same_ladders b b' ∧ ladder_within opp' opp.
Proof.
  intros H.
  apply (match_levels_inv
           (λ m1 b1 opp1, same_objects m m1 ∧ same_ladders b b1
                          ∧ ladder_within opp1 opp) order)
    with (fuel := fuel) (m := m) (b := b) (opp := opp) (it := it);
    [| | |exact H].
  - intros m0 b0 opp0 k lvl m1 b1 lvl1 (Ho & Hl & Hw) Hk Hml.
    apply match_level_frame in Hml as (Ho' & Hl' & Hs).
    split; [|split].
    + by eapply same_objects_trans.
    + by eapply same_ladders_trans.
    + eapply ladder_within_trans; [|exact Hw]. by eapply ladder_within_insert.
  - intros m0 b0 opp0 k (Ho & Hl & Hw). split; [done|split; [done|]].
    eapply ladder_within_trans; [|exact Hw]. apply ladder_within_delete.
  - split; [apply same_objects_refl|split; [apply same_ladders_refl|]].
    apply ladder_within_refl.
Qed.

(** ** [try_match_order] *)

Lemma try_match_order_frame m b order opp matched m' b' opp' :
  try_match_order m b order opp = Some (matched, m', b', opp') →
  same_objects m m' ∧ same_ladders b b' ∧ ladder_within opp' opp.
Proof.
  unfold try_match_order. intros H.
  destruct (Ladder.is_empty opp).
  - simplify_eq. split; [apply same_objects_refl|].
    split; [apply same_ladders_refl | apply ladder_within_refl].
  - destruct (match_levels _ _ _ _ _ _) as [[[m1 b1] side1]|] eqn:Hm;
      simpl in H; [|done].
    simplify_eq. by eapply match_levels_frame.
Qed.

Lemma try_match_order_total m b order opp :
  quantities_u64 m → (order < length (heap m))%nat → ptrs_below order opp →
  is_Some (try_match_order m b order opp).
Proof.
  intros Hq Ho Hp. unfold try_match_order.
  destruct (Ladder.is_empty opp); [done|].
  set (it := match side (deref m order) with
             | BUY => Ladder.begin opp | SELL => Ladder.rbegin opp end).
  destruct (match_levels_total (levels_fuel opp) m b order opp it)
    as [[[m1 b1] side1] Hm]; try done.
  - intros k Hk. subst it. destruct (side (deref m order));
      [by apply begin_Some | by apply rbegin_Some].
  - apply turns_left_begin.
  - rewrite Hm. done.
Qed.

(** ** Resting an order *)

Lemma get_set_side b s l : get_side (set_side b s l) s = l.
Proof. by destruct s. Qed.

Lemma get_set_side_opposite b s l :
  get_side (set_side b (opposite s) l) s = get_side b s.
Proof. by destruct s. Qed.

Lemma ptrs_below_sides n b :
  (∀ s, ptrs_below n (get_side b s)) ↔
  ptrs_below n (bids_ b) ∧ ptrs_below n (asks_ b).
Proof.
  split.
  - intros H. split; [apply (H BUY) | apply (H SELL)].
  - intros [H1 H2] []; done.
Qed.

Lemma add_to_book_below n m b order :
  (order < n)%nat → (∀ s, ptrs_below n (get_side b s)) →
  ∀ s, ptrs_below n (get_side (add_to_book m b order) s).
Proof.
  intros Ho Hb s. unfold add_to_book.
  set (so := side (deref m order)).
  destruct (decide (s = so)) as [->|Hne].
  - rewrite get_set_side. apply map_Forall_insert_2; [|apply Hb].
    unfold PriceLevel.add_order. simpl. apply Forall_app. split.
    + destruct (get_side b so !! price (deref m order)) as [lvl|] eqn:Hk; simpl.
      * apply (Hb so _ _ Hk).
      * constructor.
    + apply Forall_cons. split; [done | apply Forall_nil_2].
  - assert (Hs : so = opposite s) by (destruct s, so; done).
    rewrite Hs. rewrite get_set_side_opposite. apply Hb.
Qed.

Lemma same_objects_set_order_status m p s :
  same_objects m (set_order_status m p s).
Proof. unfold set_order_status. by apply same_objects_store. Qed.

(** After the match, the ladders of the book with the opposite side written
    back hold addresses of the store. *)
Lemma matched_book_below m b order b1 side1 :
  (order < length (heap m))%nat → (∀ s, ptrs_below order (get_side b s)) →
  same_ladders b b1 →
  ladder_within side1 (get_side b (opposite (side (deref m order)))) →
  ∀ s, ptrs_below (length (heap m))
         (get_side (set_side b1 (opposite (side (deref m order))) side1) s).
Proof.
  intros Ho Hb Hlad Hw s.
  set (opp := opposite (side (deref m order))) in *.
  destruct (decide (s = opp)) as [->|Hne].
  - rewrite get_set_side. eapply ladder_within_below; [exact Hw|].
    eapply ptrs_below_mono; [|apply Hb]. lia.
  - assert (Hs : opp = opposite s) by (destruct s, opp; done).
    rewrite Hs, get_set_side_opposite.
    destruct Hlad as (_ & Hbid & Hask & _).
    eapply (ptrs_below_mono order); [lia|].
    destruct s; simpl; [rewrite Hbid; apply (Hb BUY) | rewrite Hask; apply (Hb SELL)].
Qed.

(** ** [add_order]: the call returns, and keeps the state well formed *)

Section add_order.
Context (m : Mem) (b : t) (order : ptr).
Context (Hq : quantities_u64 m) (Ho : (order < length (heap m))%nat).
Context (Hb : ∀ s, ptrs_below order (get_side b s)).

Lemma process_limit_order_total : is_Some (process_limit_order m b order).
Proof.
  unfold process_limit_order.
  destruct (try_match_order_total m b order
              (get_side b (opposite (side (deref m order)))))
    as [[[[matched m1] b1] side1] Hm]; try done.
  rewrite Hm. simpl. destruct matched; [destruct (is_filled _)|]; done.
Qed.

Lemma process_market_order_total : is_Some (process_market_order m b order).
Proof.
  unfold process_market_order.
  destruct (try_match_order_total m b order
              (get_side b (opposite (side (deref m order)))))
    as [[[[matched m1] b1] side1] Hm]; try done.
  rewrite Hm. simpl. destruct matched; [destruct (is_filled _)|]; done.
Qed.

Lemma process_limit_order_wf m' b' :
  process_limit_order m b order = Some (m', b') →
  same_objects m m'
  ∧ (∀ s, ptrs_below (length (heap m')) (get_side b' s)).
Proof.
  unfold process_limit_order. intros H.
  destruct (try_match_order _ _ _ _) as [[[[matched m1] b1] side1]|] eqn:Hm;
    simpl in H; [|done].
  apply try_match_order_frame in Hm as (Hobj & Hlad & Hw).
  assert (Hlen1 : length (heap m1) = length (heap m)) by apply Hobj.
  pose proof (matched_book_below m b order b1 side1 Ho Hb Hlad Hw) as Hb2.
  destruct matched; [destruct (is_filled _)|]; simplify_eq.
  - split.
    + eapply same_objects_trans; [exact Hobj|].
      apply same_objects_set_order_status.
    + unfold set_order_status. rewrite length_store, Hlen1. done.
  - split.
    + eapply same_objects_trans; [exact Hobj|].
      apply same_objects_set_order_status.
    + unfold set_order_status at 1. rewrite length_store, Hlen1.
      by apply add_to_book_below.
  - split.
    + eapply same_objects_trans; [exact Hobj|].
      apply same_objects_set_order_status.
    + unfold set_order_status at 1. rewrite length_store, Hlen1.
      by apply add_to_book_below.
Qed.

Lemma process_market_order_wf m' b' :
  process_market_order m b order = Some (m', b') →
  same_objects m m'
  ∧ (∀ s, ptrs_below (length (heap m')) (get_side b' s)).
Proof.
  unfold process_market_order. intros H.
  destruct (try_match_order _ _ _ _) as [[[[matched m1] b1] side1]|] eqn:Hm;
    simpl in H; [|done].
  apply try_match_order_frame in Hm as (Hobj & Hlad & Hw).
  assert (Hlen1 : length (heap m1) = length (heap m)) by apply Hobj.
  pose proof (matched_book_below m b order b1 side1 Ho Hb Hlad Hw) as Hb2.
  assert (Hfin : ∀ s, same_objects m (set_order_status m1 order s)
            ∧ (∀ sd, ptrs_below (length (heap (set_order_status m1 order s)))
                       (get_side (set_side b1 (opposite (side (deref m order)))
                                    side1) sd))).
  { intros s. split.
    - eapply same_objects_trans; [exact Hobj|].
      apply same_objects_set_order_status.
    - unfold set_order_status. rewrite length_store, Hlen1. done. }
  destruct matched; [destruct (is_filled _)|]; simplify_eq; apply Hfin.
Qed.
End add_order.

Lemma add_order_total m b order :
  quantities_u64 m → (order < length (heap m))%nat →
  (∀ s, ptrs_below order (get_side b s)) →
  ∃ m' b', add_order m b order = Some (true, m', b').
Proof.
  intros Hq Ho Hb. unfold add_order.
  set (b0 := set_orders b _).
  assert (Hb0 : ∀ s, ptrs_below order (get_side b0 s)) by (intros s; destruct s; [exact (Hb BUY) | exact (Hb SELL)]).
  destruct (order_type (deref m order)).
  - destruct (process_limit_order_total m b0 order Hq Ho Hb0) as [[m' b'] ->].
    by eexists _, _.
  - destruct (process_market_order_total m b0 order Hq Ho Hb0) as [[m' b'] ->].
    by eexists _, _.
  - destruct (process_limit_order_total m b0 order Hq Ho Hb0) as [[m' b'] ->].
    by eexists _, _.
Qed.

Lemma add_order_wf m b order ret m' b' :
  quantities_u64 m → (order < length (heap m))%nat →
  (∀ s, ptrs_below order (get_side b s)) →
  add_order m b order = Some (ret, m', b') →
  same_objects m m' ∧ well_formed m' b'.
Proof.
  intros Hq Ho Hb. unfold add_order.
  set (b0 := set_orders b _).
  assert (Hb0 : ∀ s, ptrs_below order (get_side b0 s)) by (intros s; destruct s; [exact (Hb BUY) | exact (Hb SELL)]).
  intros H.
  assert (Hp : ∃ m1 b1, (process_limit_order m b0 order = Some (m1, b1)
                         ∨ process_market_order m b0 order = Some (m1, b1))
                        ∧ m' = m1 ∧ b' = b1).
  { destruct (order_type (deref m order));
      [destruct (process_limit_order m b0 order) as [[m1 b1]|] eqn:E
      |destruct (process_market_order m b0 order) as [[m1 b1]|] eqn:E
      |destruct (process_limit_order m b0 order) as [[m1 b1]|] eqn:E];
      simpl in H; simplify_eq; eauto 6. }
  destruct Hp as (m1 & b1 & [E|E] & -> & ->).
  - apply (process_limit_order_wf m b0 order Ho Hb0) in E as [Hobj Hl].
    split; [done|]. apply ptrs_below_sides in Hl as [? ?].
    split; [by eapply same_objects_quantities|done|done].
  - apply (process_market_order_wf m b0 order Ho Hb0) in E as [Hobj Hl].
    split; [done|]. apply ptrs_below_sides in Hl as [? ?].
    split; [by eapply same_objects_quantities|done|done].
Qed.

(** ** Allocation *)

Lemma make_shared_spec m o :
  make_shared m o = (length (heap m), mkMem (heap m ++ [o]) (clock m)).
Proof. done. Qed.

Lemma deref_make_shared_new m o : deref (make_shared m o).2 (length (heap m)) = o.
Proof. unfold deref. simpl. by rewrite list_lookup_total_middle. Qed.

Lemma deref_make_shared_old m o p :
  (p < length (heap m))%nat → deref (make_shared m o).2 p = deref m p.
Proof. intros H. unfold deref. simpl. by rewrite lookup_total_app_l. Qed.

Lemma make_shared_quantities m o :
  quantities_u64 m → u64 (quantity o) → quantities_u64 (make_shared m o).2.
Proof.
  intros Hq Ho. unfold quantities_u64. simpl. apply Forall_app. split; [done|].
  apply Forall_cons. split; [done | apply Forall_nil_2].
Qed.

(** ** Requests return and keep the state well formed *)

Lemma well_formed_sides m b :
  well_formed m b → ∀ s, ptrs_below (length (heap m)) (get_side b s).
Proof. intros [? ? ?] []; done. Qed.

Lemma add_new_order_wf m b o :
  well_formed m b → u64 (quantity o) →
  ∃ m' b', add_new_order m b o = Some (true, m', b') ∧ well_formed m' b'.
Proof.
  intros Hwf Ho. unfold add_new_order. rewrite make_shared_spec.
  set (m1 := mkMem (heap m ++ [o]) (clock m)).
  assert (Hq1 : quantities_u64 m1) by (apply make_shared_quantities; [apply Hwf|done]).
  assert (Hlt : (length (heap m) < length (heap m1))%nat)
    by (subst m1; simpl; rewrite length_app; simpl; lia).
  pose proof (well_formed_sides m b Hwf) as Hb.
  destruct (add_order_total m1 b (length (heap m)) Hq1 Hlt Hb) as (m' & b' & H).
  exists m', b'. split; [done|].
  by apply (add_order_wf m1 b (length (heap m)) true m' b' Hq1 Hlt Hb).
Qed.

Lemma cancel_order_wf m b id ret m' b' :
  well_formed m b → cancel_order m b id = (ret, m', b') →
  same_objects m m' ∧ well_formed m' b'.
Proof.
  intros Hwf. unfold cancel_order.
  destruct (orders_ b !! id) as [order|]; [|intros; simplify_eq; done].
  destruct (decide _); [intros; simplify_eq; done|].
  intros H. simplify_eq.
  assert (Hobj : same_objects m (set_order_status m order CANCELLED))
    by apply same_objects_set_order_status.
  split; [done|].
  assert (Hlen : length (heap (set_order_status m order CANCELLED))
                 = length (heap m)) by apply Hobj.
  pose proof (well_formed_sides m b Hwf) as Hb.
  assert (Hset : ∀ s l, ptrs_below (length (heap m)) l →
             ∀ sd, ptrs_below (length (heap m)) (get_side (set_side b s l) sd)).
  { intros s l Hl sd. destruct (decide (sd = s)) as [->|Hne].
    - by rewrite get_set_side.
    - assert (Hs : s = opposite sd) by (destruct s, sd; done).
      rewrite Hs, get_set_side_opposite. apply Hb. }
  assert (Hb1 : ∀ sd, ptrs_below (length (heap m))
            (get_side
               (if filled_quantity (deref m order) <? quantity (deref m order)
                then
                  match get_side b (side (deref m order)) !! price (deref m order) with
                  | Some lvl =>
                      if PriceLevel.is_empty (PriceLevel.remove_order m lvl id)
                      then set_side b (side (deref m order))
                             (delete (price (deref m order))
                                (get_side b (side (deref m order))))
                      else set_side b (side (deref m order))
                             (<[price (deref m order) :=
                                  PriceLevel.remove_order m lvl id]>
                                (get_side b (side (deref m order))))
                  | None => b
                  end
                else b) sd)).
  { destruct (_ <? _); [|done].
    destruct (get_side b (side (deref m order)) !! price (deref m order))
      as [lvl|] eqn:Hk; [|done].
    destruct (PriceLevel.is_empty _); apply Hset.
    - apply ptrs_below_delete, Hb.
    - eapply ptrs_below_insert; [apply Hb | exact Hk | apply remove_order_sublist]. }
  rewrite <- Hlen in Hb1. apply ptrs_below_sides in Hb1 as [? ?].
  split; [|done|done].
  eapply same_objects_quantities; [exact Hobj | apply Hwf].
Qed.

Lemma modify_order_wf m b id q px :
  well_formed m b → u64 q →
  ∃ ret m' b', modify_order m b id q px = Some (ret, m', b')
               ∧ well_formed m' b'.
Proof.
  intros Hwf Hq. unfold modify_order.
  destruct (orders_ b !! id) as [order|] eqn:Hix; [|by eexists _, _, _].
  destruct (decide _); [by eexists _, _, _|].
  destruct (cancel_order m b id) as [[r m1] b1] eqn:Hc.
  apply cancel_order_wf in Hc as [_ Hwf1]; [|done].
  rewrite make_shared_spec.
  match goal with
  | |- context [add_order ?mm b1 ?pp] => 
      change (add_order mm b1 pp) with
        (add_new_order m1 b1
           (Order_new (clock m1) id (symbol_id (deref m1 order))
              (side (deref m1 order)) (order_type (deref m1 order)) q
              (if 0 <? px then px else price (deref m1 order)) 0))
  end.
  destruct (add_new_order_wf m1 b1
              (Order_new (clock m1) id (symbol_id (deref m1 order))
                 (side (deref m1 order)) (order_type (deref m1 order)) q
                 (if 0 <? px then px else price (deref m1 order)) 0) Hwf1 Hq)
    as (m' & b' & -> & Hwf').
  by eexists _, _, _.
Qed.

Lemma request_wf m b r :
  well_formed m b → request_u64 r →
  ∃ ret m' b', request m b r = Some (ret, m', b') ∧ well_formed m' b'.
Proof.
  intros Hwf Hr. destruct r as [id symbol s type qty px|id|id q px]; simpl.
  - destruct (add_new_order_wf m b (Order_new (clock m) id symbol s type qty px 0)
                Hwf Hr) as (m' & b' & H & Hwf').
    by eexists _, _, _.
  - destruct (cancel_order m b id) as [[ret m'] b'] eqn:Hc.
    apply cancel_order_wf in Hc as [_ Hwf']; [|done]. by eexists _, _, _.
  - by apply modify_order_wf.
Qed.

Lemma requests_wf rs : ∀ m b,
  well_formed m b → Forall request_u64 rs →
  ∃ rets m' b', requests m b rs = Some (rets, m', b') ∧ well_formed m' b'.
Proof.
  induction rs as [|r rs IH]; intros m b Hwf Hrs; simpl.
  - by eexists _, _, _.
  - apply Forall_cons in Hrs as [Hr Hrs].
    destruct (request_wf m b r Hwf Hr) as (ret & m1 & b1 & -> & Hwf1). simpl.
    destruct (IH m1 b1 Hwf1 Hrs) as (rets & m' & b' & -> & Hwf'). simpl.
    by eexists _, _, _.
Qed.

Lemma well_formed_new symbol : well_formed mem0 (SimpleOrderBook.new symbol).
Proof.
  split.
  - constructor.
  - apply map_Forall_empty.
  - apply map_Forall_empty.
Qed.

(** ** A proof rule for the matching of one incoming order

    [J] is a property of the store and of the trade log.  If every trade
    against an order that rests in the opposite ladder keeps [J], then the
    whole of [try_match_order] keeps it. *)

Lemma elem_of_resting_in (l : Ladder.t) p :
  p ∈ resting_in l ↔ ∃ k lvl, l !! k = Some lvl ∧ p ∈ PriceLevel.orders_ lvl.
Proof.
  unfold resting_in. rewrite list_elem_of_bind. split.
  - intros ([k lvl] & Hp & Hk). apply elem_of_map_to_list in Hk. by exists k, lvl.
  - intros (k & lvl & Hk & Hp). exists (k, lvl). split; [done|].
    by apply elem_of_map_to_list.
Qed.

Lemma resting_in_below n (l : Ladder.t) p :
  ptrs_below n l → p ∈ resting_in l → (p < n)%nat.
Proof.
  intros Hl. rewrite elem_of_resting_in. intros (k & lvl & Hk & Hp).
  specialize (Hl _ _ Hk). simpl in Hl. rewrite Forall_forall in Hl. by apply Hl.
Qed.

Section matching_rule.
Context (order : ptr) (m0 : Mem) (opp0 : Ladder.t).
Context (J : Mem → list Trade.t → Prop).
Context (Hturn : ∀ m b lvl pm m1 b1 lvl1,
            same_objects m0 m → pm ∈ resting_in opp0 →
            is_live (status (deref m pm)) = true →
            J m (trades_out b) →
            fill_turn m b order pm lvl = (m1, b1, lvl1) →
            J m1 (trades_out b1)).

Lemma match_level_rule fuel m b k lvl0 lvl m' b' lvl' :
  same_objects m0 m → opp0 !! k = Some lvl0 →
  PriceLevel.orders_ lvl `sublist_of` PriceLevel.orders_ lvl0 →
  J m (trades_out b) →
  match_level fuel m b order lvl = Some (m', b', lvl') →
  J m' (trades_out b').
Proof.
  intros Hobj Hk Hsub HJ H.
  assert (Hall : same_objects m0 m'
                 ∧ PriceLevel.orders_ lvl' `sublist_of` PriceLevel.orders_ lvl0
                 ∧ J m' (trades_out b')); [|apply Hall].
  apply (match_level_inv
           (λ m1 b1 lvl1, same_objects m0 m1
              ∧ PriceLevel.orders_ lvl1 `sublist_of` PriceLevel.orders_ lvl0
              ∧ J m1 (trades_out b1)) order)
    with (fuel := fuel) (m := m) (b := b) (lvl := lvl); [|done|exact H].
  intros m1 b1 lvl1 pm m2 b2 lvl2 (Ho1 & Hs1 & HJ1) Hbest Ht.
  apply get_best_order_Some in Hbest as [Hin Hlive].
  pose proof (fill_turn_frame _ _ _ _ _ _ _ _ Ht) as (Ho2 & _ & Hs2).
  split; [by eapply same_objects_trans|]. split; [by etrans|].
  eapply Hturn; [exact Ho1| |exact Hlive|exact HJ1|exact Ht].
  apply elem_of_resting_in. exists k, lvl0. split; [done|].
  eapply elem_of_sublist; [exact Hin | exact Hs1].
Qed.

Lemma match_levels_rule fuel m b opp it m' b' opp' :
  same_objects m0 m → ladder_within opp opp0 → J m (trades_out b) →
  match_levels fuel m b order opp it = Some (m', b', opp') →
  J m' (trades_out b').
Proof.
  intros Hobj Hw HJ H.
  assert (Hall : same_objects m0 m' ∧ ladder_within opp' opp0
                 ∧ J m' (trades_out b')); [|apply Hall].
  apply (match_levels_inv
           (λ m1 b1 opp1, same_objects m0 m1 ∧ ladder_within opp1 opp0
                          ∧ J m1 (trades_out b1)) order)
    with (fuel := fuel) (m := m) (b := b) (opp := opp) (it := it);
    [| |done|exact H].
  - intros m1 b1 opp1 k lvl m2 b2 lvl2 (Ho1 & Hw1 & HJ1) Hk Hml.
    destruct (Hw1 _ _ Hk) as (lvl0 & Hk0 & Hs0).
    pose proof (match_level_frame _ _ _ _ _ _ _ _ Hml) as (Ho2 & _ & Hs2).
    split; [by eapply same_objects_trans|]. split.
    + eapply ladder_within_trans; [|exact Hw1]. by eapply ladder_within_insert.
    + by eapply (match_level_rule _ m1 b1 k lvl0 lvl).
  - intros m1 b1 opp1 k (Ho1 & Hw1 & HJ1). split; [done|]. split; [|done].
    eapply ladder_within_trans; [|exact Hw1]. apply ladder_within_delete.
Qed.

Lemma try_match_order_rule b matched m' b' opp' :
  J m0 (trades_out b) →
  try_match_order m0 b order opp0 = Some (matched, m', b', opp') →
  J m' (trades_out b').
Proof.
  unfold try_match_order. intros HJ H.
  destruct (Ladder.is_empty opp0); [by simplify_eq|].
  destruct (match_levels _ _ _ _ _ _) as [[[m1 b1] side1]|] eqn:Hm;
    simpl in H; [|done].
  simplify_eq. eapply match_levels_rule; [| | |exact Hm]; try done.
  apply ladder_within_refl.
Qed.
End matching_rule.

(** The rule for [add_order]: besides the trades, the call writes the status
    of the incoming order. *)
Lemma add_order_rule (J : Mem → list Trade.t → Prop) m b order ret m' b' :
  (∀ m1 b1 lvl pm m2 b2 lvl2,
      same_objects m m1 →
      pm ∈ resting_in (get_side b (opposite (side (deref m order)))) →
      is_live (status (deref m1 pm)) = true →
      J m1 (trades_out b1) →
      fill_turn m1 b1 order pm lvl = (m2, b2, lvl2) →
      J m2 (trades_out b2)) →
  (∀ m1 ts s, same_objects m m1 → J m1 ts → J (set_order_status m1 order s) ts) →
  J m (trades_out b) →
  add_order m b order = Some (ret, m', b') →
  J m' (trades_out b').
Proof.
  intros Hturn Hstatus HJ. unfold add_order.
  set (b0 := set_orders b _).
  assert (Hside : ∀ s, get_side b0 s = get_side b s) by (by intros []).
  assert (Hlimit : ∀ m1 b1, process_limit_order m b0 order = Some (m1, b1) →
                            J m1 (trades_out b1)).
  { unfold process_limit_order. intros m1 b1 H.
    destruct (try_match_order _ _ _ _) as [[[[matched m2] b2] side2]|] eqn:Hm;
      simpl in H; [|done].
    rewrite Hside in Hm.
    pose proof (try_match_order_frame _ _ _ _ _ _ _ _ Hm) as (Hobj & _ & _).
    apply (try_match_order_rule order m _ J Hturn) in Hm; [|done].
    assert (Hlog : ∀ l, trades_out (set_side b2 (opposite (side (deref m order))) l)
                        = trades_out b2) by (intros l; by destruct (opposite _)).
    assert (Hlog2 : ∀ mm bb, trades_out (add_to_book mm bb order) = trades_out bb).
    { intros mm bb. unfold add_to_book. by destruct (side (deref mm order)). }
    destruct matched; [destruct (is_filled _)|]; simplify_eq;
      rewrite ?Hlog2, Hlog; by apply Hstatus. }
  assert (Hmarket : ∀ m1 b1, process_market_order m b0 order = Some (m1, b1) →
                             J m1 (trades_out b1)).
  { unfold process_market_order. intros m1 b1 H.
    destruct (try_match_order _ _ _ _) as [[[[matched m2] b2] side2]|] eqn:Hm;
      simpl in H; [|done].
    rewrite Hside in Hm.
    pose proof (try_match_order_frame _ _ _ _ _ _ _ _ Hm) as (Hobj & _ & _).
    apply (try_match_order_rule order m _ J Hturn) in Hm; [|done].
    assert (Hlog : ∀ l, trades_out (set_side b2 (opposite (side (deref m order))) l)
                        = trades_out b2) by (intros l; by destruct (opposite _)).
    destruct matched; [destruct (is_filled _)|]; simplify_eq;
      rewrite Hlog; by apply Hstatus. }
  intros H.
  destruct (order_type (deref m order));
    [destruct (process_limit_order m b0 order) as [[m1 b1]|] eqn:E
    |destruct (process_market_order m b0 order) as [[m1 b1]|] eqn:E
    |destruct (process_limit_order m b0 order) as [[m1 b1]|] eqn:E];
    simpl in H; simplify_eq; auto.
Qed.

(** ** Orders that are FILLED or CANCELLED are not written *)

Lemma lookup_deref m p o :
  (p < length (heap m))%nat → deref m p = o → heap m !! p = Some o.
Proof.
  intros Hlt <-. unfold deref. by apply list_lookup_lookup_total_lt.
Qed.

Lemma add_order_keeps_dead m b order ret m' b' p :
  p ≠ order → is_live (status (deref m p)) = false →
  add_order m b order = Some (ret, m', b') → deref m' p = deref m p.
Proof.
  intros Hne Hdead H.
  apply (add_order_rule (λ m1 _, deref m1 p = deref m p) m b order ret m' b');
    [| |done|exact H].
  - intros m1 b1 lvl pm m2 b2 lvl2 _ _ Hlive Hp Ht.
    rewrite (fill_turn_other _ _ _ _ _ _ _ _ Ht p); [done|done|].
    intros ->. rewrite Hp, Hdead in Hlive. done.
  - intros m1 ts s _ Hp. unfold set_order_status.
    by rewrite deref_store_ne.
Qed.

Lemma cancel_order_keeps_dead m b id ret m' b' p :
  is_live (status (deref m p)) = false →
  cancel_order m b id = (ret, m', b') → deref m' p = deref m p.
Proof.
  intros Hdead. unfold cancel_order.
  destruct (orders_ b !! id) as [order|]; [|intros; by simplify_eq].
  destruct (decide _) as [Hterm|Hterm]; [intros; by simplify_eq|].
  intros H. simplify_eq. unfold set_order_status.
  apply deref_store_ne. intros ->. apply Hterm.
  destruct (status (deref m p)); try done; auto.
Qed.

Lemma request_keeps_dead m b r p :
  well_formed m b → (p < length (heap m))%nat →
  is_live (status (deref m p)) = false → request_u64 r →
  ∃ ret m' b', request m b r = Some (ret, m', b')
               ∧ (p < length (heap m'))%nat ∧ deref m' p = deref m p.
Proof.
  intros Hwf Hp Hdead Hr.
  destruct (request_wf m b r Hwf Hr) as (ret & m' & b' & H & _).
  exists ret, m', b'. split; [done|].
  destruct r as [id symbol s type qty px|id|id q px]; simpl in H.
  - unfold add_new_order in H. rewrite make_shared_spec in H.
    set (o := Order_new (clock m) id symbol s type qty px 0) in *.
    set (m1 := mkMem (heap m ++ [o]) (clock m)) in *.
    assert (Hlt : (length (heap m) < length (heap m1))%nat)
      by (subst m1; simpl; rewrite length_app; simpl; lia).
    assert (Hold : deref m1 p = deref m p)
      by (apply (deref_make_shared_old m o p Hp)).
    pose proof (add_order_wf m1 b (length (heap m)) ret m' b') as Hfr.
    destruct Hfr as [(Hlen & _) _]; try done.
    { apply (make_shared_quantities m o); [apply Hwf | exact Hr]. }
    { by apply well_formed_sides. }
    split; [lia|]. rewrite <- Hold.
    eapply add_order_keeps_dead; [| |exact H]; [lia | by rewrite Hold].
  - simplify_eq. destruct (cancel_order m b id) as [[r m1] b1] eqn:Hc.
    simplify_eq.
    pose proof (cancel_order_wf m b id _ _ _ Hwf Hc) as [(Hlen & _) _].
    split; [lia|]. by eapply cancel_order_keeps_dead.
  - unfold modify_order in H.
    destruct (orders_ b !! id) as [order|] eqn:Hix; [|by simplify_eq].
    destruct (decide _); [by simplify_eq|].
    destruct (cancel_order m b id) as [[r m1] b1] eqn:Hc.
    pose proof (cancel_order_wf m b id _ _ _ Hwf Hc) as [(Hlen1 & _) Hwf1].
    pose proof (cancel_order_keeps_dead m b id _ _ _ p Hdead Hc) as Hp1.
    rewrite make_shared_spec in H.
    set (o := Order_new _ _ _ _ _ _ _ _) in *.
    set (m2 := mkMem (heap m1 ++ [o]) (clock m1)) in *.
    assert (Hlt : (length (heap m1) < length (heap m2))%nat)
      by (subst m2; simpl; rewrite length_app; simpl; lia).
    assert (Hold : deref m2 p = deref m1 p)
      by (apply (deref_make_shared_old m1 o p); lia).
    pose proof (add_order_wf m2 b1 (length (heap m1)) ret m' b') as Hfr.
    destruct Hfr as [(Hlen & _) _]; try done.
    { apply (make_shared_quantities m1 o); [apply Hwf1 | exact Hr]. }
    { by apply well_formed_sides. }
    split; [lia|]. rewrite <- Hp1, <- Hold.
    eapply add_order_keeps_dead; [| |exact H]; [lia | by rewrite Hold, Hp1].
Qed.

(** ** The trades of one incoming order *)

Lemma trade_between_identity o o' om om' t :
  identity o = identity o' → identity om = identity om' →
  trade_between o om t → trade_between o' om' t.
Proof.
  intros Ho Hm. apply identity_fields in Ho as (Hid & _ & Hs & _ & _ & Hp).
  apply identity_fields in Hm as (Hidm & _ & _ & _ & _ & Hpm).
  unfold trade_between. rewrite <- Hs, <- Hid, <- Hp, <- Hidm, <- Hpm. done.
Qed.

Lemma fill_turn_trade m b order pm lvl m1 b1 lvl1 :
  fill_turn m b order pm lvl = (m1, b1, lvl1) →
  ∃ t, trades_out b1 = trades_out b ++ [t]
       ∧ trade_between (deref m order) (deref m pm) t
       ∧ Trade.quantity t = Z.min (remaining_quantity (deref m order))
                                  (remaining_quantity (deref m pm)).
Proof.
  intros Ht. pose proof (fill_turn_book _ _ _ _ _ _ _ _ Ht) as (_&_&_&_&Hlog).
  eexists. split; [exact Hlog|]. split; [|done].
  unfold trade_between. simpl.
  destruct (side (deref m order)) eqn:Hs; simpl; done.
Qed.

Lemma traded_quantity_app ts1 ts2 :
  traded_quantity (ts1 ++ ts2) = traded_quantity ts1 + traded_quantity ts2.
Proof.
  unfold traded_quantity. induction ts1 as [|t ts1 IH]; simpl; [done|].
  rewrite IH. lia.
Qed.

Lemma new_trades_app b b' ts :
  trades_out b' = trades_out b ++ ts → new_trades b b' = ts.
Proof. intros H. unfold new_trades. rewrite H. by rewrite drop_app_length. Qed.

(** The trades of [add_order] for an order that is newer than all resting
    ones: who trades, at which price, and how much the order filled. *)
Lemma add_order_trades m b order ret m' b' :
  quantities_u64 m → (order < length (heap m))%nat →
  (∀ s, ptrs_below order (get_side b s)) →
  filled_quantity (deref m order) = 0 →
  add_order m b order = Some (ret, m', b') →
  ∃ ts, trades_out b' = trades_out b ++ ts
        ∧ Forall (λ t, ∃ pm,
                    pm ∈ resting_in (get_side b (opposite (side (deref m order))))
                    ∧ trade_between (deref m order) (deref m pm) t) ts
        ∧ filled_quantity (deref m' order) = traded_quantity ts
        ∧ 0 <= traded_quantity ts <= quantity (deref m order).
Proof.
  intros Hq Ho Hb Hf0 H.
  pose proof (quantities_u64_deref m order Hq Ho) as HQ.
  apply (add_order_rule
           (λ m1 log, ∃ ts, log = trades_out b ++ ts
              ∧ Forall (λ t, ∃ pm,
                    pm ∈ resting_in (get_side b (opposite (side (deref m order))))
                    ∧ trade_between (deref m order) (deref m pm) t) ts
              ∧ filled_quantity (deref m1 order) = traded_quantity ts
              ∧ 0 <= traded_quantity ts <= quantity (deref m order))
           m b order ret m' b'); [| | |exact H].
  - intros m1 b1 lvl pm m2 b2 lvl2 (Hlen & _ & Hid) Hrest Hlive
      (ts & Hlog & Hall & Hfill & Hrange) Ht.
    destruct (fill_turn_trade _ _ _ _ _ _ _ _ Ht) as (t & Hlog2 & Htb & Htq).
    assert (Hpm : (pm < order)%nat) by (eapply resting_in_below; [apply Hb|done]).
    exists (ts ++ [t]). split; [by rewrite Hlog2, Hlog, app_assoc|].
    split.
    { apply Forall_app. split; [done|]. apply Forall_cons. split; [|done].
      exists pm. split; [done|].
      eapply trade_between_identity; [apply Hid | apply Hid | exact Htb]. }
    rewrite traded_quantity_app.
    assert (Hone : traded_quantity [t] = Trade.quantity t)
      by (unfold traded_quantity; simpl; lia).
    rewrite Hone, Htq.
    rewrite (fill_turn_order _ _ _ _ _ _ _ _ Ht) by lia.
    unfold add_filled. cbn [filled_quantity].
    pose proof (Hid order) as Hido.
    apply identity_fields in Hido as (_ & _ & _ & _ & HQ1 & _).
    assert (Hrem : remaining_quantity (deref m1 order)
                   = quantity (deref m order) - traded_quantity ts).
    { unfold remaining_quantity. rewrite Hfill, HQ1. apply wrap64_small.
      unfold u64 in *. lia. }
    rewrite Hrem, Hfill.
    pose proof (wrap64_u64 (quantity (deref m1 pm) - filled_quantity (deref m1 pm)))
      as Hm. fold (remaining_quantity (deref m1 pm)) in Hm.
    set (q := Z.min _ _).
    assert (Hqr : 0 <= q <= quantity (deref m order) - traded_quantity ts)
      by (unfold u64 in *; subst q; lia).
    split; [|lia]. apply wrap64_small. unfold u64 in *. lia.
  - intros m1 ts s _ (ts' & Hlog & Hall & Hfill & Hrange).
    exists ts'. split; [done|]. split; [done|]. split; [|done].
    unfold set_order_status. rewrite <- Hfill.
    by apply (deref_store_proj filled_quantity).
  - exists []. split; [by rewrite app_nil_r|]. split; [done|].
    unfold traded_quantity. simpl. unfold u64 in HQ. split; [done|lia].
Qed.

(** ** The index and the ladders after [add_order] and [cancel_order] *)

Lemma add_order_index m b order ret m' b' :
  add_order m b order = Some (ret, m', b') →
  orders_ b' = <[order_id (deref m order) := order]> (orders_ b)
  ∧ symbol_id_ b' = symbol_id_ b.
Proof.
  unfold add_order. set (b0 := set_orders b _). intros H.
  assert (Hset : ∀ bb s l, orders_ (set_side bb s l) = orders_ bb
                           ∧ symbol_id_ (set_side bb s l) = symbol_id_ bb)
    by (by intros bb [] l).
  assert (Hbook : ∀ mm bb, orders_ (add_to_book mm bb order) = orders_ bb
                           ∧ symbol_id_ (add_to_book mm bb order) = symbol_id_ bb).
  { intros mm bb. unfold add_to_book. apply Hset. }
  assert (Hlimit : ∀ m1 b1, process_limit_order m b0 order = Some (m1, b1) →
                            orders_ b1 = orders_ b0 ∧ symbol_id_ b1 = symbol_id_ b0).
  { unfold process_limit_order. intros m1 b1 E.
    destruct (try_match_order _ _ _ _) as [[[[matched m2] b2] side2]|] eqn:Hm;
      simpl in E; [|done].
    apply try_match_order_frame in Hm as (_ & (Hsym & _ & _ & Hix) & _).
    destruct matched; [destruct (is_filled _)|]; simplify_eq;
      rewrite ?(proj1 (Hbook _ _)), ?(proj2 (Hbook _ _)),
        ?(proj1 (Hset _ _ _)), ?(proj2 (Hset _ _ _)); done. }
  assert (Hmarket : ∀ m1 b1, process_market_order m b0 order = Some (m1, b1) →
                             orders_ b1 = orders_ b0 ∧ symbol_id_ b1 = symbol_id_ b0).
  { unfold process_market_order. intros m1 b1 E.
    destruct (try_match_order _ _ _ _) as [[[[matched m2] b2] side2]|] eqn:Hm;
      simpl in E; [|done].
    apply try_match_order_frame in Hm as (_ & (Hsym & _ & _ & Hix) & _).
    destruct matched; [destruct (is_filled _)|]; simplify_eq;
      rewrite ?(proj1 (Hset _ _ _)), ?(proj2 (Hset _ _ _)); done. }
  destruct (order_type (deref m order));
    [destruct (process_limit_order m b0 order) as [[m1 b1]|] eqn:E
    |destruct (process_market_order m b0 order) as [[m1 b1]|] eqn:E
    |destruct (process_limit_order m b0 order) as [[m1 b1]|] eqn:E];
    simpl in H; simplify_eq;
    [destruct (Hlimit _ _ eq_refl) as [-> ->]
    |destruct (Hmarket _ _ eq_refl) as [-> ->]
    |destruct (Hlimit _ _ eq_refl) as [-> ->]]; done.
Qed.

(** [cancel_order] on an id whose order is neither FILLED nor CANCELLED. *)
Lemma cancel_order_live m b id p o :
  orders_ b !! id = Some p → heap m !! p = Some o →
  status o ≠ FILLED → status o ≠ CANCELLED →
  ∃ b', cancel_order m b id = (true, set_order_status m p CANCELLED, b')
        ∧ heap (set_order_status m p CANCELLED) !! p = Some (set_status o CANCELLED)
        ∧ orders_ b' = orders_ b ∧ trades_out b' = trades_out b
        ∧ get_side b' (opposite (side o)) = get_side b (opposite (side o))
        ∧ get_side b' (side o) =
            if filled_quantity o <? quantity o then
              match get_side b (side o) !! price o with
              | Some lvl =>
                  if PriceLevel.is_empty (PriceLevel.remove_order m lvl id)
                  then delete (price o) (get_side b (side o))
                  else <[price o := PriceLevel.remove_order m lvl id]>
                         (get_side b (side o))
              | None => get_side b (side o)
              end
            else get_side b (side o).
Proof.
  intros Hix Hp Hf Hc. unfold cancel_order. rewrite Hix.
  rewrite (deref_lookup _ _ _ Hp).
  rewrite decide_False by (intros [?|?]; done).
  eexists. split; [reflexivity|].
  split.
  { unfold set_order_status. rewrite (deref_lookup _ _ _ Hp).
    apply lookup_deref; [rewrite length_store; by eapply lookup_lt_Some|].
    apply deref_store_eq. by eapply lookup_lt_Some. }
  destruct (filled_quantity o <? quantity o); [|done].
  destruct (get_side b (side o) !! price o) as [lvl|]; [|done].
  destruct (PriceLevel.is_empty _); by destruct (side o).
Qed.

Lemma cancel_order_dead m b id p o :
  orders_ b !! id = Some p → heap m !! p = Some o →
  status o = FILLED ∨ status o = CANCELLED → cancel_order m b id = (false, m, b).
Proof.
  intros Hix Hp Hs. unfold cancel_order. rewrite Hix.
  rewrite (deref_lookup _ _ _ Hp). by rewrite decide_True.
Qed.

(** ** The scenarios of the repository's tests

    The tests that pass on the code pass on the model. *)

(** [test_order_matching]: a SELL and a BUY of 1000 at 5000 fill each other;
    one trade, volume 1000, and the snapshot shows no bid and no ask. *)
Example test_order_matching :
  match requests mem0 book0
          [Add 1 100 SELL LIMIT 1000 5000; Add 2 100 BUY LIMIT 1000 5000] with
  | Some (_, m, b) =>
      is_filled <$> order_of m b 1 = Some true
      ∧ is_filled <$> order_of m b 2 = Some true
      ∧ trade_view <$> trades_out b = [(2, 1, 1000, 5000)]
      ∧ get_trade_count b = 1 ∧ get_total_volume b = 1000
      ∧ MarketDataSnapshot.best_bid_price (get_market_data m b) = 0
      ∧ MarketDataSnapshot.best_ask_price (get_market_data m b) = 0
  | None => False
  end.
Proof. vm_compute. repeat split. Qed.

(** [test_order_cancellation] *)
Example test_order_cancellation :
  match requests mem0 book0
          [Add 1 100 BUY LIMIT 1000 5000; Cancel 1; Cancel 1; Cancel 999] with
  | Some (rets, m, b) =>
      rets = [true; true; false; false]
      ∧ status <$> order_of m b 1 = Some CANCELLED
      ∧ get_bid_levels b 5 = []
  | None => False
  end.
Proof. vm_compute. repeat split. Qed.

(** [test_market_data] *)
Example test_market_data :
  match requests mem0 book0
          [Add 1 100 BUY LIMIT 1000 4900; Add 2 100 BUY LIMIT 2000 4950;
           Add 3 100 SELL LIMIT 1500 5000; Add 4 100 SELL LIMIT 1000 5050] with
  | Some (_, m, b) =>
      get_market_data m b = MarketDataSnapshot.mk 100 0 4950 2000 5000 1500 0 0 0
      ∧ get_bid_levels b 2 = [(4950, 2000); (4900, 1000)]
      ∧ get_ask_levels b 2 = [(5000, 1500); (5050, 1000)]
  | None => False
  end.
Proof. vm_compute. repeat split. Qed.

Lemma state_after_wf rs :
  Forall request_u64 rs → well_formed (state_after rs).1 (state_after rs).2.
Proof.
  intros Hrs. unfold state_after.
  destruct (requests_wf rs mem0 book0 (well_formed_new 100) Hrs)
    as (rets & m & b & -> & Hwf).
  exact Hwf.
Qed.

Lemma u64_literal x : (0 <=? x) && (x <? 2 ^ 64) = true → u64 x.
Proof. unfold u64. intros H. apply andb_true_iff in H as [H1 H2]. lia. Qed.

(** ** The scan of [remove_order] *)

Lemma remove_scan_absent m id l total :
  Forall (λ q, order_id (deref m q) ≠ id) l →
  PriceLevel.remove_scan m id l total = (l, total).
Proof.
  induction 1 as [|x l Hx _ IH]; simpl; [done|].
  apply Z.eqb_neq in Hx. by rewrite Hx, IH.
Qed.

Lemma remove_scan_app_absent m id l1 l2 total :
  Forall (λ q, order_id (deref m q) ≠ id) l1 →
  PriceLevel.remove_scan m id (l1 ++ l2) total
  = (l1 ++ (PriceLevel.remove_scan m id l2 total).1,
     (PriceLevel.remove_scan m id l2 total).2).
Proof.
  induction 1 as [|x l Hx _ IH]; simpl.
  - by destruct (PriceLevel.remove_scan m id l2 total).
  - apply Z.eqb_neq in Hx. by rewrite Hx, IH.
Qed.

(** The scan of [remove_order] erases the first entry that carries the id,
    and subtracts the [quantity] of that entry. *)
Lemma remove_scan_first m id l1 q l2 total :
  Forall (λ x, order_id (deref m x) ≠ id) l1 → order_id (deref m q) = id →
  PriceLevel.remove_scan m id (l1 ++ q :: l2) total
  = (l1 ++ l2, wrap64 (total - quantity (deref m q))).
Proof.
  intros H1 Hq. rewrite remove_scan_app_absent by done. simpl.
  apply Z.eqb_eq in Hq. by rewrite Hq.
Qed.

(** ** The parts of [add_order] *)

(** The parts of [add_order]: the match against the opposite ladder, the
    status written to the incoming order, and whether it is put into the
    book. *)
Lemma add_order_shape m b order ret m' b' :
  add_order m b order = Some (ret, m', b') →
  ∃ matched m1 b1 side1 st (rests : bool),
    try_match_order m
      (set_orders b (<[order_id (deref m order) := order]> (orders_ b))) order
      (get_side b (opposite (side (deref m order))))
      = Some (matched, m1, b1, side1)
    ∧ m' = set_order_status m1 order st
    ∧ b' = (if rests
            then add_to_book m'
                   (set_side b1 (opposite (side (deref m order))) side1) order
            else set_side b1 (opposite (side (deref m order))) side1)
    ∧ st = (if matched
            then if is_filled (deref m1 order) then FILLED else PARTIALLY_FILLED
            else if decide (order_type (deref m order) = MARKET)
                 then REJECTED else NEW)
    ∧ rests = (if decide (order_type (deref m order) = MARKET) then false
               else negb (matched && is_filled (deref m1 order))).
Proof.
  unfold add_order. set (b0 := set_orders b _).
  assert (Hside : ∀ s, get_side b0 s = get_side b s) by (by intros []).
  intros H.
  destruct (order_type (deref m order)) eqn:Ht;
    unfold process_limit_order, process_market_order in H;
    rewrite Hside in H;
    destruct (try_match_order m b0 order _) as [[[[matched m1] b1] side1]|] eqn:Hm;
    simpl in H; try done;
    exists matched, m1, b1, side1;
    destruct matched; [destruct (is_filled (deref m1 order)) eqn:Hf| |
                       destruct (is_filled (deref m1 order)) eqn:Hf| |
                       destruct (is_filled (deref m1 order)) eqn:Hf|];
    simpl in H; simplify_eq; eexists _, _;
    (split; [reflexivity|]); (split; [reflexivity|]);
    simpl; rewrite ?Hf; simpl; repeat split; try reflexivity.
Qed.

(** * The claims *)

(** ** C1: the price of a trade *)

(** C1, counterexample.  A BUY of 1000 at 5000 rests; a SELL of 1000 at 4900
    arrives and matches it.  The one trade carries 4900, the price of the
    incoming SELL, and not 5000, the price of the resting order. *)
Lemma sell_aggressor_sets_the_price :
  match requests mem0 book0
          [Add 1 100 BUY LIMIT 1000 5000; Add 2 100 SELL LIMIT 1000 4900] with
  | Some (_, m, b) =>
      trade_view <$> trades_out b = [(1, 2, 1000, 4900)]
      ∧ price <$> order_of m b 1 = Some 5000
      ∧ ¬ Forall (λ t, Some (Trade.price t) = price <$> order_of m b 1)
            (trades_out b)
  | None => False
  end.
Proof.
  vm_compute. split; [reflexivity|]. split; [reflexivity|].
  intros H. inversion H as [|t ts Ht Hts]. discriminate Ht.
Qed.

(** C1, as amended.  A newly built order is submitted to a well-formed
    book: a BUY of any type, or a LIMIT or STOP SELL.  The call returns, and
    every trade it emits is between the incoming order and an order [pm]
    that rested in the opposite ladder; the trade carries the price of the
    order on the sell side: the price of the resting order when the incoming
    order is a BUY, the limit price of the incoming order when it is a SELL
    ([trade_between]).  [execute_trade] is handed the two orders without
    their roles and takes the price from the one whose side is SELL. *)
Theorem trade_price_is_sell_side_price m b now id symbol s type qty px stop_px :
  well_formed m b → u64 qty →
  (s = SELL → type ≠ MARKET) →
  let o := Order_new now id symbol s type qty px stop_px in
  ∃ m' b' ts,
    add_new_order m b o = Some (true, m', b')
    ∧ trades_out b' = trades_out b ++ ts
    ∧ Forall (λ t, ∃ pm, pm ∈ resting_in (get_side b (opposite s))
                         ∧ trade_between o (deref m pm) t) ts.
Proof.
  intros Hwf Hq _ o.
  destruct (add_new_order_wf m b o Hwf Hq) as (m' & b' & H & _).
  exists m', b'. unfold add_new_order in H. rewrite make_shared_spec in H.
  set (m1 := mkMem (heap m ++ [o]) (clock m)) in *.
  assert (Hnew : deref m1 (length (heap m)) = o)
    by apply (deref_make_shared_new m o).
  pose proof (well_formed_sides m b Hwf) as Hb.
  destruct (add_order_trades m1 b (length (heap m)) true m' b')
    as (ts & Hlog & Hall & _); try done.
  { apply (make_shared_quantities m o); [apply Hwf | exact Hq]. }
  { subst m1. simpl. rewrite length_app. simpl. lia. }
  { by rewrite Hnew. }
  exists ts. split; [done|]. split; [done|].
  rewrite Hnew in Hall. simpl in Hall.
  eapply Forall_impl; [exact Hall|]. simpl. intros t (pm & Hpm & Ht).
  exists pm. split; [done|].
  assert (Hlt : (pm < length (heap m))%nat)
    by (eapply resting_in_below; [apply Hb | exact Hpm]).
  pose proof (deref_make_shared_old m o pm Hlt) as Hold. simpl in Hold.
  fold m1 in Hold. by rewrite Hold in Ht.
Qed.

(** C1, witness: a SELL of 1000 at 4900 is submitted to the book that holds
    a BUY of 1000 at 5000. *)
Lemma trade_price_is_sell_side_price_witness :
  ∃ m' b' ts,
    add_new_order (state_after [Add 1 100 BUY LIMIT 1000 5000]).1
      (state_after [Add 1 100 BUY LIMIT 1000 5000]).2
      (Order_new 0 2 100 SELL LIMIT 1000 4900 0) = Some (true, m', b')
    ∧ trades_out b'
      = trades_out (state_after [Add 1 100 BUY LIMIT 1000 5000]).2 ++ ts
    ∧ Forall (λ t, ∃ pm,
                pm ∈ resting_in
                       (get_side (state_after [Add 1 100 BUY LIMIT 1000 5000]).2
                          (opposite SELL))
                ∧ trade_between (Order_new 0 2 100 SELL LIMIT 1000 4900 0)
                    (deref (state_after [Add 1 100 BUY LIMIT 1000 5000]).1 pm) t)
        ts.
Proof.
  apply (trade_price_is_sell_side_price
           (state_after [Add 1 100 BUY LIMIT 1000 5000]).1
           (state_after [Add 1 100 BUY LIMIT 1000 5000]).2
           0 2 100 SELL LIMIT 1000 4900 0).
  - apply state_after_wf.
    repeat (apply Forall_cons; split; [apply u64_literal; reflexivity|]).
    apply Forall_nil_2.
  - apply u64_literal. reflexivity.
  - intros _. discriminate.
Defined.

(** Left out of the amended claim: an incoming MARKET SELL.  A MARKET order
    carries no limit (the tests and examples build it with price 0, and the
    header describes [price] as the limit price), but [execute_trade] stamps
    the trade with the [price] field of the order on the sell side all the
    same: the MARKET SELL that meets a BUY resting at 5000 trades at 0. *)
Example market_sell_is_stamped_with_its_price_field :
  match requests mem0 book0
          [Add 1 100 BUY LIMIT 100 5000; Add 2 100 SELL MARKET 100 0] with
  | Some (rets, m, b) =>
      rets = [true; true]
      ∧ trade_view <$> trades_out b = [(1, 2, 100, 0)]
      ∧ price <$> order_of m b 1 = Some 5000
      ∧ status <$> order_of m b 2 = Some FILLED
  | None => False
  end.
Proof. vm_compute. repeat split. Qed.

(** ** C2: a crossed book *)

(** C2, the code at the failing input.  Two BUY orders rest at 5000 and at
    4900.  A SELL of 200 at 4800 fills 100 against the level at 5000, which
    is erased; [erase] hands back the iterator after the erased level, which
    is [end()] for the highest level, and the loop stops although the level
    at 4900 is acceptable.  The rest of the SELL is put into the ask ladder
    at 4800, below the best bid 4900. *)
Theorem sell_sweep_leaves_book_crossed :
  match requests mem0 book0
          [Add 1 100 BUY LIMIT 100 5000; Add 2 100 BUY LIMIT 100 4900;
           Add 3 100 SELL LIMIT 200 4800] with
  | Some (rets, m, b) =>
      rets = [true; true; true]
      ∧ trade_view <$> trades_out b = [(1, 3, 100, 4800)]
      ∧ remaining_quantity <$> order_of m b 3 = Some 100
      ∧ get_bid_levels b 10 = [(4900, 100)]
      ∧ get_ask_levels b 10 = [(4800, 200)]
      ∧ crossed b = true
  | None => False
  end.
Proof. vm_compute. repeat split. Qed.

(** ** C3: MARKET orders *)

(** C3, the code at the failing input.  A SELL of 1000 rests at 5000.  A
    MARKET BUY of 1000, built with price 0 as the tests and the example
    build it, meets the same price test as a LIMIT order: 5000 <= 0 fails,
    nothing trades, and the order is REJECTED with the liquidity still in
    the ask ladder. *)
Theorem market_buy_is_bound_by_its_price :
  match requests mem0 book0
          [Add 1 100 SELL LIMIT 1000 5000; Add 2 100 BUY MARKET 1000 0] with
  | Some (rets, m, b) =>
      rets = [true; true]
      ∧ trades_out b = []
      ∧ status <$> order_of m b 2 = Some REJECTED
      ∧ filled_quantity <$> order_of m b 2 = Some 0
      ∧ status <$> order_of m b 1 = Some NEW
      ∧ get_ask_levels b 10 = [(5000, 1000)]
      ∧ get_bid_levels b 10 = []
  | None => False
  end.
Proof. vm_compute. repeat split. Qed.

(** ** C4: the total of a level *)

(** C4, the code at the failing input.  A SELL of 5000 rests at 5000 and a
    BUY of 2000 at 5000 fills against it.  The resting order has 3000 left,
    but [total_quantity_] counts the [quantity] of the entries and a partial
    fill does not touch it: the level, the snapshot and [get_ask_levels]
    report 5000. *)
Theorem level_total_ignores_partial_fills :
  match requests mem0 book0
          [Add 1 100 SELL LIMIT 5000 5000; Add 2 100 BUY LIMIT 2000 5000] with
  | Some (_, m, b) =>
      PriceLevel.orders_ <$> asks_ b !! 5000 = Some [0%nat]
      ∧ filled_quantity <$> order_of m b 1 = Some 2000
      ∧ live_remaining m <$> asks_ b !! 5000 = Some 3000
      ∧ PriceLevel.total_quantity_ <$> asks_ b !! 5000 = Some 5000
      ∧ MarketDataSnapshot.best_ask_quantity (get_market_data m b) = 5000
      ∧ get_ask_levels b 10 = [(5000, 5000)]
  | None => False
  end.
Proof. vm_compute. repeat split. Qed.

(** ** C7: time priority within a level *)

(** Time priority as the code has it: [get_best_order] returns the oldest
    entry of the level that is neither FILLED nor CANCELLED; every entry
    inserted before it is FILLED or CANCELLED. *)
Lemma get_best_order_oldest m lvl p :
  PriceLevel.get_best_order m lvl = Some p →
  ∃ older newer,
    PriceLevel.orders_ lvl = older ++ p :: newer
    ∧ Forall (λ q, is_live (status (deref m q)) = false) older
    ∧ is_live (status (deref m p)) = true.
Proof.
  unfold PriceLevel.get_best_order.
  induction (PriceLevel.orders_ lvl) as [|x l IH]; simpl; [done|].
  destruct (is_live (status (deref m x))) eqn:Hx.
  - intros H. simplify_eq. exists [], l. by repeat split.
  - intros H. destruct (IH H) as (older & newer & -> & Hold & Hp).
    exists (x :: older), newer. split; [done|]. split; [|done].
    by apply Forall_cons.
Qed.

(** C7, the code at the failing input: the scenario of the claim.  The two
    trades come in insertion order with the quantities of the claim, id 1
    and id 3 are FILLED and id 2 has 1500 left; but the status of id 2 is
    still NEW: the matching loop writes the status of a resting order only
    when it is fully filled. *)
Theorem fifo_scenario_leaves_resting_order_new :
  match requests mem0 book0
          [Add 1 100 BUY LIMIT 1000 5000; Add 2 100 BUY LIMIT 2000 5000;
           Add 3 100 SELL LIMIT 1500 5000] with
  | Some (_, m, b) =>
      trade_view <$> trades_out b = [(1, 3, 1000, 5000); (2, 3, 500, 5000)]
      ∧ status <$> order_of m b 1 = Some FILLED
      ∧ status <$> order_of m b 2 = Some NEW
      ∧ filled_quantity <$> order_of m b 2 = Some 500
      ∧ remaining_quantity <$> order_of m b 2 = Some 1500
      ∧ status <$> order_of m b 3 = Some FILLED
  | None => False
  end.
Proof. vm_compute. repeat split. Qed.

(** ** MARKET orders: what the code keeps

    Whatever it matched, a MARKET order is never put into a ladder, and its
    status goes by what it filled: REJECTED for nothing, FILLED for all of
    its quantity, PARTIALLY_FILLED otherwise. *)

Lemma try_match_order_matched m b order opp matched m' b' opp' :
  filled_quantity (deref m order) = 0 →
  try_match_order m b order opp = Some (matched, m', b', opp') →
  matched = (0 <? filled_quantity (deref m' order)).
Proof.
  intros Hf. unfold try_match_order.
  destruct (Ladder.is_empty opp).
  - intros H. simplify_eq. by rewrite Hf.
  - destruct (match_levels _ _ _ _ _ _) as [[[m1 b1] side1]|]; simpl; [|done].
    intros H. by simplify_eq.
Qed.

Theorem market_order_never_rests m b now id symbol s qty px stop_px :
  well_formed m b → u64 qty →
  let o := Order_new now id symbol s MARKET qty px stop_px in
  let fresh := length (heap m) in
  ∃ m' b',
    add_new_order m b o = Some (true, m', b')
    ∧ (fresh ∉ resting_in (bids_ b')) ∧ (fresh ∉ resting_in (asks_ b'))
    ∧ get_side b' s = get_side b s
    ∧ status (deref m' fresh) =
        if 0 <? filled_quantity (deref m' fresh) then
          if filled_quantity (deref m' fresh) =? qty then FILLED
          else PARTIALLY_FILLED
        else REJECTED.
Proof.
  intros Hwf Hq o fresh.
  destruct (add_new_order_wf m b o Hwf Hq) as (m' & b' & H & _).
  exists m', b'. split; [exact H|].
  unfold add_new_order in H. rewrite make_shared_spec in H. fold fresh in H.
  set (m1 := mkMem (heap m ++ [o]) (clock m)) in *.
  assert (Hnew : deref m1 fresh = o) by apply (deref_make_shared_new m o).
  assert (Hlt : (fresh < length (heap m1))%nat).
  { subst m1 fresh. cbn [heap]. rewrite length_app. cbn [length]. lia. }
  pose proof (well_formed_sides m b Hwf) as Hb. fold fresh in Hb.
  unfold add_order in H. rewrite Hnew in H.
  cbn [order_type order_id o Order_new] in H.
  set (b0 := set_orders b _) in H.
  unfold process_market_order in H. rewrite Hnew in H.
  cbn [side o Order_new] in H.
  destruct (try_match_order m1 b0 fresh (get_side b0 (opposite s)))
    as [[[[matched m2] b2] side2]|] eqn:Hm; simpl in H; [|done].
  assert (Hf0 : filled_quantity (deref m1 fresh) = 0) by (by rewrite Hnew).
  pose proof (try_match_order_matched _ _ _ _ _ _ _ _ Hf0 Hm) as Hmatched.
  pose proof (try_match_order_frame _ _ _ _ _ _ _ _ Hm)
    as ((Hlen & _ & Hid) & (_ & Hbid & Hask & _) & Hw).
  assert (Hqty : quantity (deref m2 fresh) = qty).
  { specialize (Hid fresh). rewrite Hnew in Hid.
    by apply identity_fields in Hid as (_ & _ & _ & _ & -> & _). }
  assert (Hown : get_side (set_side b2 (opposite s) side2) s = get_side b s).
  { rewrite get_set_side_opposite.
    destruct s; simpl; [by rewrite Hbid | by rewrite Hask]. }
  assert (Hbelow : ∀ sd, ptrs_below fresh
                           (get_side (set_side b2 (opposite s) side2) sd)).
  { intros sd. destruct (decide (sd = opposite s)) as [->|Hne].
    - rewrite get_set_side. eapply ladder_within_below; [exact Hw|].
      destruct s; [exact (Hb SELL) | exact (Hb BUY)].
    - assert (sd = s) as -> by (destruct s, sd; done). rewrite Hown.
      destruct s; [exact (Hb BUY) | exact (Hb SELL)]. }
  assert (Hnot : ∀ sd, fresh ∉ resting_in
                         (get_side (set_side b2 (opposite s) side2) sd)).
  { intros sd Hin. pose proof (resting_in_below _ _ _ (Hbelow sd) Hin). lia. }
  assert (Hst : ∀ st, status (deref (set_order_status m2 fresh st) fresh) = st
                      ∧ filled_quantity (deref (set_order_status m2 fresh st) fresh)
                        = filled_quantity (deref m2 fresh)).
  { intros st. unfold set_order_status. rewrite deref_store_eq by lia. done. }
  unfold is_filled in H. rewrite Hqty in H. rewrite Hmatched in H.
  assert (Hres : ∃ st, m' = set_order_status m2 fresh st
                       ∧ b' = set_side b2 (opposite s) side2
                       ∧ st = if 0 <? filled_quantity (deref m2 fresh) then
                                if filled_quantity (deref m2 fresh) =? qty
                                then FILLED else PARTIALLY_FILLED
                              else REJECTED).
  { destruct (0 <? filled_quantity (deref m2 fresh));
      [destruct (filled_quantity (deref m2 fresh) =? qty)|];
      simpl in H; injection H as <- <-; eexists; (split; [reflexivity|]); (split; reflexivity). }
  destruct Hres as (st & -> & -> & Hst').
  split; [exact (Hnot BUY)|]. split; [exact (Hnot SELL)|]. split; [exact Hown|].
  destruct (Hst st) as [-> ->]. exact Hst'.
Qed.

(** ** C5: an order of quantity 0 *)

Lemma try_match_order_nothing_left m b order opp :
  remaining_quantity (deref m order) = 0 → filled_quantity (deref m order) = 0 →
  try_match_order m b order opp = Some (false, m, b, opp).
Proof.
  intros Hrem Hf. unfold try_match_order.
  destruct (Ladder.is_empty opp); [done|].
  assert (Hrun : ∀ it, match_levels (levels_fuel opp) m b order opp it
                       = Some (m, b, opp)).
  { intros it. destruct (levels_fuel opp); destruct it; simpl; by rewrite ?Hrem. }
  rewrite Hrun. simpl. by rewrite Hf.
Qed.

Lemma set_side_get_side b s : set_side b s (get_side b s) = b.
Proof. by destruct b, s. Qed.

(** C5, counterexample.  A LIMIT BUY of quantity 0 at 5000 is submitted to
    an empty book: it is not REJECTED, its status is NEW and it rests in the
    bid ladder, which now shows a level at 5000. *)
Lemma zero_quantity_limit_order_rests :
  match requests mem0 book0 [Add 1 100 BUY LIMIT 0 5000] with
  | Some (rets, m, b) =>
      rets = [true]
      ∧ status <$> order_of m b 1 = Some NEW
      ∧ status <$> order_of m b 1 ≠ Some REJECTED
      ∧ resting_in (bids_ b) = [0%nat]
      ∧ get_bid_levels b 10 = [(5000, 0)]
  | None => False
  end.
Proof. vm_compute. repeat split. discriminate. Qed.

(** C5, as amended.  An order built with quantity 0 is submitted to any
    book.  No matching occurs: the trade log and the opposite ladder are
    unchanged.  A MARKET order of quantity 0 is set to REJECTED and both
    ladders are unchanged.  A LIMIT or STOP order of quantity 0 is not
    rejected: it keeps the status NEW and is appended to the level at its
    price on its own side, which is created if there is none. *)
Theorem zero_quantity_order m b now id symbol s type px stop_px :
  let o := Order_new now id symbol s type 0 px stop_px in
  let fresh := length (heap m) in
  ∃ m' b',
    add_new_order m b o = Some (true, m', b')
    ∧ trades_out b' = trades_out b
    ∧ get_side b' (opposite s) = get_side b (opposite s)
    ∧ match type with
      | MARKET =>
          heap m' = heap m ++ [set_status o REJECTED]
          ∧ get_side b' s = get_side b s
      | LIMIT | STOP =>
          heap m' = heap m ++ [o]
          ∧ status o = NEW
          ∧ get_side b' s =
              <[px := PriceLevel.add_order m'
                        (default PriceLevel.new (get_side b s !! px)) fresh]>
                (get_side b s)
          ∧ fresh ∈ resting_in (get_side b' s)
      end.
Proof.
  intros o fresh. unfold add_new_order. rewrite make_shared_spec.
  set (m1 := mkMem (heap m ++ [o]) (clock m)).
  assert (Hnew : deref m1 fresh = o) by apply (deref_make_shared_new m o).
  assert (Hrem : remaining_quantity (deref m1 fresh) = 0) by (by rewrite Hnew).
  assert (Hf : filled_quantity (deref m1 fresh) = 0) by (by rewrite Hnew).
  assert (Hstore : ∀ st, heap (set_order_status m1 fresh st)
                         = heap m ++ [set_status o st]).
  { intros st. unfold set_order_status, store. rewrite Hnew. simpl.
    subst fresh. rewrite insert_app_r_alt by lia.
    by rewrite Nat.sub_diag. }
  unfold add_order. fold fresh. rewrite Hnew.
  set (b0 := set_orders b _).
  assert (Hlimit : process_limit_order m1 b0 fresh
            = Some (set_order_status m1 fresh NEW,
                    add_to_book (set_order_status m1 fresh NEW) b0 fresh)).
  { unfold process_limit_order.
    rewrite (try_match_order_nothing_left _ _ _ _ Hrem Hf). simpl.
    by rewrite set_side_get_side. }
  assert (Hmarket : process_market_order m1 b0 fresh
            = Some (set_order_status m1 fresh REJECTED, b0)).
  { unfold process_market_order.
    rewrite (try_match_order_nothing_left _ _ _ _ Hrem Hf). simpl.
    by rewrite set_side_get_side. }
  assert (Hrest :
    let m2 := set_order_status m1 fresh NEW in
    let b2 := add_to_book m2 b0 fresh in
    trades_out b2 = trades_out b
    ∧ get_side b2 (opposite s) = get_side b (opposite s)
    ∧ heap m2 = heap m ++ [o] ∧ status o = NEW
    ∧ get_side b2 s =
        <[px := PriceLevel.add_order m2
                  (default PriceLevel.new (get_side b s !! px)) fresh]>
          (get_side b s)
    ∧ fresh ∈ resting_in (get_side b2 s)).
  { intros m2 b2.
    assert (Hd : deref m2 fresh = o).
    { unfold deref. subst m2. rewrite Hstore. subst fresh.
      by rewrite list_lookup_total_middle. }
    assert (Hb2 : get_side b2 s =
              <[px := PriceLevel.add_order m2
                        (default PriceLevel.new (get_side b s !! px)) fresh]>
                (get_side b s)).
    { subst b2. unfold add_to_book. rewrite Hd. simpl.
      rewrite get_set_side. by destruct s. }
    split; [subst b2; unfold add_to_book; rewrite Hd; by destruct s|].
    split; [subst b2; unfold add_to_book; rewrite Hd; by destruct s|].
    split; [subst m2; by rewrite (Hstore NEW)|]. split; [done|]. split; [done|].
    rewrite Hb2. apply elem_of_resting_in. eexists px, _.
    split; [apply lookup_insert_eq|].
    unfold PriceLevel.add_order. simpl. apply elem_of_app. right. by left. }
  destruct type; simpl.
  - rewrite Hlimit. simpl. eexists _, _. split; [reflexivity|]. apply Hrest.
  - rewrite Hmarket. simpl. eexists _, _. split; [reflexivity|].
    split; [done|]. split; [by destruct s|]. split; [apply Hstore|by destruct s].
  - rewrite Hlimit. simpl. eexists _, _. split; [reflexivity|]. apply Hrest.
Qed.

(** ** C6: orders in a terminal status *)

(** C6, counterexample.  A MARKET BUY on an empty book is REJECTED.
    [cancel_order] on its id returns true and writes CANCELLED over the
    status. *)
Lemma cancel_rewrites_rejected_order :
  match requests mem0 book0 [Add 1 100 BUY MARKET 1000 0] with
  | Some (_, m, b) =>
      status <$> order_of m b 1 = Some REJECTED
      ∧ match cancel_order m b 1 with
        | (ret, m', b') =>
            ret = true
            ∧ status <$> order_of m' b' 1 = Some CANCELLED
            ∧ status <$> order_of m' b' 1 ≠ status <$> order_of m b 1
        end
  | None => False
  end.
Proof. vm_compute. repeat split. discriminate. Qed.

(** C6, as amended.  In a well-formed state, an order whose status is
    FILLED or CANCELLED is not written by any later request: the submission
    of a newly built order, a cancel or a modify returns and leaves the
    record as it was.  REJECTED is not protected: [cancel_order] on the id
    of a REJECTED order returns true and sets its status to CANCELLED. *)
Theorem filled_and_cancelled_orders_are_frozen m b :
  well_formed m b →
  (∀ p o r,
      heap m !! p = Some o → status o = FILLED ∨ status o = CANCELLED →
      request_u64 r →
      ∃ ret m' b', request m b r = Some (ret, m', b') ∧ heap m' !! p = Some o)
  ∧ (∀ id p o,
      orders_ b !! id = Some p → heap m !! p = Some o → status o = REJECTED →
      ∃ m' b', cancel_order m b id = (true, m', b')
               ∧ heap m' !! p = Some (set_status o CANCELLED)).
Proof.
  intros Hwf. split.
  - intros p o r Hp Hs Hr.
    assert (Hlt : (p < length (heap m))%nat) by (by eapply lookup_lt_Some).
    assert (Hdead : is_live (status (deref m p)) = false).
    { rewrite (deref_lookup _ _ _ Hp). by destruct Hs as [-> | ->]. }
    destruct (request_keeps_dead m b r p Hwf Hlt Hdead Hr)
      as (ret & m' & b' & H & Hlt' & Heq).
    exists ret, m', b'. split; [done|]. apply lookup_deref; [done|].
    by rewrite Heq, (deref_lookup _ _ _ Hp).
  - intros id p o Hix Hp Hs.
    destruct (cancel_order_live m b id p o Hix Hp) as (b' & H & Hh & _);
      [by rewrite Hs | by rewrite Hs|].
    by eexists _, _.
Qed.

(** C6, witness: after a full match (ids 1 and 2 FILLED) and a rejected
    MARKET order (id 3), a further order is submitted and leaves the record
    of id 1 untouched; cancelling id 3 rewrites its status. *)
Lemma filled_and_cancelled_orders_are_frozen_witness :
  (∃ ret m' b',
      request
        (state_after [Add 1 100 SELL LIMIT 1000 5000; Add 2 100 BUY LIMIT 1000 5000;
                      Add 3 100 BUY MARKET 10 0]).1
        (state_after [Add 1 100 SELL LIMIT 1000 5000; Add 2 100 BUY LIMIT 1000 5000;
                      Add 3 100 BUY MARKET 10 0]).2
        (Add 4 100 BUY LIMIT 500 5000) = Some (ret, m', b')
      ∧ heap m' !! 0%nat
        = Some (mkOrder 1 100 SELL LIMIT 1000 5000 0 0 FILLED 1000))
  ∧ (∃ m' b',
      cancel_order
        (state_after [Add 1 100 SELL LIMIT 1000 5000; Add 2 100 BUY LIMIT 1000 5000;
                      Add 3 100 BUY MARKET 10 0]).1
        (state_after [Add 1 100 SELL LIMIT 1000 5000; Add 2 100 BUY LIMIT 1000 5000;
                      Add 3 100 BUY MARKET 10 0]).2 3 = (true, m', b')
      ∧ heap m' !! 2%nat
        = Some (set_status (mkOrder 3 100 BUY MARKET 10 0 0 0 REJECTED 0) CANCELLED)).
Proof.
  assert (Hwf : well_formed
            (state_after [Add 1 100 SELL LIMIT 1000 5000; Add 2 100 BUY LIMIT 1000 5000;
                          Add 3 100 BUY MARKET 10 0]).1
            (state_after [Add 1 100 SELL LIMIT 1000 5000; Add 2 100 BUY LIMIT 1000 5000;
                          Add 3 100 BUY MARKET 10 0]).2).
  { apply state_after_wf. repeat (apply Forall_cons; split; [apply u64_literal; reflexivity|]).
    apply Forall_nil_2. }
  destruct (filled_and_cancelled_orders_are_frozen _ _ Hwf) as [Hfrozen Hrejected].
  split.
  - apply Hfrozen.
    + vm_compute. reflexivity.
    + left. reflexivity.
    + apply u64_literal. reflexivity.
  - apply Hrejected.
    + vm_compute. reflexivity.
    + vm_compute. reflexivity.
    + reflexivity.
Defined.

(** ** C10: [modify_order] and the fills of the original order *)

(** C10, counterexample.  A SELL of 5000 at 5000 (id 1) has filled 2000
    against a BUY, and a BUY of 1000 rests at 4900.
    [modify_order(1, 5000, 4900)] is successful; its replacement is matched
    on arrival like any new order and trades 1000 with the BUY at 4900.
    After the call the record of id 1 does not show zero fills: it has
    filled 1000 and its status is PARTIALLY_FILLED. *)
Lemma modified_order_fills_on_arrival :
  match requests mem0 book0
          [Add 1 100 SELL LIMIT 5000 5000; Add 2 100 BUY LIMIT 2000 5000;
           Add 3 100 BUY LIMIT 1000 4900; Modify 1 5000 4900] with
  | Some (rets, m, b) =>
      rets = [true; true; true; true]
      ∧ trade_view <$> trades_out b = [(2, 1, 2000, 5000); (3, 1, 1000, 4900)]
      ∧ quantity <$> order_of m b 1 = Some 5000
      ∧ filled_quantity <$> order_of m b 1 = Some 1000
      ∧ status <$> order_of m b 1 = Some PARTIALLY_FILLED
      ∧ filled_quantity <$> order_of m b 1 ≠ Some 0
  | None => False
  end.
Proof. vm_compute. repeat split. discriminate. Qed.

(** What becomes of a newly built order of any type: the status written to
    it, and whether and where it comes to rest. *)
Lemma add_new_order_settles m b now id symbol s type qty px stop_px ret m' b' :
  well_formed m b → u64 qty →
  add_new_order m b (Order_new now id symbol s type qty px stop_px)
    = Some (ret, m', b') →
  let p := length (heap m) in
  let f := filled_quantity (deref m' p) in
  let lvl0 := default PriceLevel.new (get_side b s !! px) in
  quantity (deref m' p) = qty
  ∧ status (deref m' p)
    = (if 0 <? f then if f =? qty then FILLED else PARTIALLY_FILLED
       else if decide (type = MARKET) then REJECTED else NEW)
  ∧ if (if decide (type = MARKET) then true else (0 <? f) && (f =? qty))
    then (p ∉ resting_in (bids_ b')) ∧ (p ∉ resting_in (asks_ b'))
         ∧ get_side b' s = get_side b s
    else get_side b' s
         = <[px := PriceLevel.mk (PriceLevel.orders_ lvl0 ++ [p])
                     (wrap64 (PriceLevel.total_quantity_ lvl0 + qty))]>
             (get_side b s).
Proof.
  intros Hwf Hq H.
  set (o := Order_new now id symbol s type qty px stop_px) in *.
  unfold add_new_order in H. rewrite make_shared_spec in H.
  set (p := length (heap m)) in *.
  set (m1 := mkMem (heap m ++ [o]) (clock m)) in *.
  assert (Hnew : deref m1 p = o) by apply (deref_make_shared_new m o).
  assert (Hlt : (p < length (heap m1))%nat).
  { subst m1 p. cbn [heap]. rewrite length_app. cbn [length]. lia. }
  pose proof (well_formed_sides m b Hwf) as Hb. fold p in Hb.
  apply add_order_shape in H
    as (matched & m2 & b2 & side2 & st & rests & Hm & -> & -> & Hst & Hrests).
  rewrite Hnew in Hm, Hst, Hrests.
  change (order_type o) with type in Hst, Hrests.
  cbn [side order_id o Order_new] in Hm.
  rewrite !Hnew. cbn [side o Order_new].
  assert (Hf0 : filled_quantity (deref m1 p) = 0) by (by rewrite Hnew).
  pose proof (try_match_order_matched _ _ _ _ _ _ _ _ Hf0 Hm) as Hmatched.
  pose proof (try_match_order_frame _ _ _ _ _ _ _ _ Hm)
    as ((Hlen & _ & Hid) & (_ & Hbid & Hask & _) & Hw).
  assert (Hfields : quantity (deref m2 p) = qty ∧ side (deref m2 p) = s
                    ∧ price (deref m2 p) = px).
  { specialize (Hid p). rewrite Hnew in Hid.
    by apply identity_fields in Hid as (_ & _ & -> & _ & -> & ->). }
  destruct Hfields as (Hqty & Hside & Hprice).
  assert (Hd : deref (set_order_status m2 p st) p = set_status (deref m2 p) st).
  { unfold set_order_status. apply deref_store_eq. lia. }
  cbv zeta. fold p. rewrite Hd.
  cbn [status filled_quantity quantity set_status].
  unfold is_filled in Hst, Hrests. rewrite Hqty in Hst, Hrests.
  rewrite Hmatched in Hst, Hrests.
  assert (Hown : get_side (set_side b2 (opposite s) side2) s = get_side b s).
  { rewrite get_set_side_opposite.
    destruct s; simpl; [by rewrite Hbid | by rewrite Hask]. }
  split; [exact Hqty|]. split; [exact Hst|].
  assert (Hout : (p ∉ resting_in (bids_ (set_side b2 (opposite s) side2)))
                 ∧ (p ∉ resting_in (asks_ (set_side b2 (opposite s) side2)))
                 ∧ get_side (set_side b2 (opposite s) side2) s = get_side b s).
  { assert (Hbelow : ∀ sd, ptrs_below p
                             (get_side (set_side b2 (opposite s) side2) sd)).
    { intros sd. destruct (decide (sd = opposite s)) as [->|Hne].
      - rewrite get_set_side. eapply ladder_within_below; [exact Hw|].
        destruct s; [exact (Hb SELL) | exact (Hb BUY)].
      - assert (sd = s) as -> by (destruct s, sd; done). rewrite Hown.
        destruct s; [exact (Hb BUY) | exact (Hb SELL)]. }
    assert (Hnot : ∀ sd, p ∉ resting_in
                           (get_side (set_side b2 (opposite s) side2) sd)).
    { intros sd Hin. pose proof (resting_in_below _ _ _ (Hbelow sd) Hin). lia. }
    split; [exact (Hnot BUY)|]. split; [exact (Hnot SELL) | exact Hown]. }
  rewrite Hrests.
  destruct (decide (type = MARKET)) as [Hmk|Hmk]; [exact Hout|].
  destruct ((0 <? filled_quantity (deref m2 p))
            && (filled_quantity (deref m2 p) =? qty)); simpl; [exact Hout|].
  unfold add_to_book. rewrite Hd.
  cbn [side price set_status]. rewrite Hside, Hprice.
  rewrite get_set_side, Hown. unfold PriceLevel.add_order.
  rewrite Hd. cbn [quantity set_status]. by rewrite Hqty.
Qed.

(** C10, as amended.  [modify_order] is called on the id of an order [o]
    that is neither FILLED nor CANCELLED, in a well-formed state.  The
    replacement is built with the same id, side, type and symbol, the new
    quantity, status NEW and [filled_quantity] 0, whatever [o] had filled.
    The call is [cancel_order] on the id followed by [add_order] of the
    replacement, and returns true.  The index then holds the replacement
    under the id; its [filled_quantity] is the quantity of the trades of
    this very call, so what it has left is the new quantity less these
    trades, and nothing of the fills of [o] is in the record of the id.
    Its status is NEW (REJECTED for a MARKET order) when it traded nothing on
    arrival, PARTIALLY_FILLED or FILLED otherwise; unless it is a MARKET
    order or fully filled, it rests as the last entry of the level at its
    price on its own side, where later orders can trade with it up to what
    it has left.  The old object stays behind, CANCELLED, with its fills. *)
Theorem modify_order_discards_fills m b id p o new_quantity new_price :
  well_formed m b → u64 new_quantity →
  orders_ b !! id = Some p → heap m !! p = Some o →
  status o ≠ FILLED → status o ≠ CANCELLED →
  let replacement :=
    Order_new (clock m) id (symbol_id o) (side o) (order_type o) new_quantity
      (if 0 <? new_price then new_price else price o) 0 in
  let fresh := length (heap m) in
  order_id replacement = id ∧ status replacement = NEW
  ∧ filled_quantity replacement = 0
  ∧ ∃ m1 b1 m' b',
      cancel_order m b id = (true, m1, b1)
      ∧ add_new_order m1 b1 replacement = Some (true, m', b')
      ∧ modify_order m b id new_quantity new_price = Some (true, m', b')
      ∧ orders_ b' !! id = Some fresh
      ∧ identity (deref m' fresh) = identity replacement
      ∧ filled_quantity (deref m' fresh) = traded_quantity (new_trades b b')
      ∧ 0 <= filled_quantity (deref m' fresh) <= new_quantity
      ∧ remaining_quantity (deref m' fresh)
        = new_quantity - traded_quantity (new_trades b b')
      ∧ status (deref m' fresh)
        = (if 0 <? traded_quantity (new_trades b b')
           then if traded_quantity (new_trades b b') =? new_quantity
                then FILLED else PARTIALLY_FILLED
           else if decide (order_type o = MARKET) then REJECTED else NEW)
      ∧ (if (if decide (order_type o = MARKET) then true
             else (0 <? traded_quantity (new_trades b b'))
                  && (traded_quantity (new_trades b b') =? new_quantity))
         then (fresh ∉ resting_in (bids_ b')) ∧ (fresh ∉ resting_in (asks_ b'))
              ∧ get_side b' (side o) = get_side b1 (side o)
         else get_side b' (side o)
              = <[price replacement :=
                    PriceLevel.mk
                      (PriceLevel.orders_
                         (default PriceLevel.new
                            (get_side b1 (side o) !! price replacement))
                       ++ [fresh])
                      (wrap64
                         (PriceLevel.total_quantity_
                            (default PriceLevel.new
                               (get_side b1 (side o) !! price replacement))
                          + new_quantity))]>
                  (get_side b1 (side o)))
      ∧ heap m' !! p = Some (set_status o CANCELLED).
Proof.
  intros Hwf Hq Hix Hp Hf Hc replacement fresh.
  split; [done|]. split; [done|]. split; [done|].
  destruct (cancel_order_live m b id p o Hix Hp Hf Hc)
    as (b1 & Hcancel & Hp1 & Hix1 & Hlog1 & _).
  set (m1 := set_order_status m p CANCELLED) in *.
  pose proof (cancel_order_wf m b id _ _ _ Hwf Hcancel) as [(Hlen1 & Hclock1 & _) Hwf1].
  pose proof (deref_lookup _ _ _ Hp1) as Hd1.
  assert (Hmod : modify_order m b id new_quantity new_price
                 = add_new_order m1 b1 replacement).
  { unfold modify_order. rewrite Hix, (deref_lookup _ _ _ Hp).
    rewrite decide_False by (intros [?|?]; done).
    rewrite Hcancel, Hd1, Hclock1. cbn [symbol_id side order_type price set_status].
    reflexivity. }
  destruct (add_new_order_wf m1 b1 replacement Hwf1 Hq) as (m' & b' & Hadd & _).
  exists m1, b1, m', b'.
  split; [exact Hcancel|]. split; [exact Hadd|].
  split; [by rewrite Hmod|].
  assert (Hfresh : fresh = length (heap m1)) by (by rewrite Hlen1).
  pose proof (add_new_order_settles m1 b1 _ _ _ _ _ _ _ _ _ _ _ Hwf1 Hq Hadd)
    as Hsettle.
  cbv zeta in Hsettle. rewrite <- Hfresh in Hsettle.
  destruct Hsettle as (Hqty & Hstatus & Hrest).
  unfold add_new_order in Hadd. rewrite make_shared_spec in Hadd.
  rewrite <- Hfresh in Hadd.
  set (m2 := mkMem (heap m1 ++ [replacement]) (clock m1)) in *.
  assert (Hnew : deref m2 fresh = replacement).
  { rewrite Hfresh. apply (deref_make_shared_new m1 replacement). }
  assert (Hq2 : quantities_u64 m2).
  { apply (make_shared_quantities m1 replacement); [apply Hwf1 | exact Hq]. }
  assert (Hlt : (fresh < length (heap m2))%nat).
  { rewrite Hfresh. subst m2. cbn [heap]. rewrite length_app. cbn [length]. lia. }
  assert (Hb1 : ∀ s, ptrs_below fresh (get_side b1 s)).
  { rewrite Hfresh. by apply well_formed_sides. }
  pose proof (add_order_index _ _ _ _ _ _ Hadd) as [Hix' _].
  pose proof (add_order_wf _ _ _ _ _ _ Hq2 Hlt Hb1 Hadd) as [(Hlen' & _ & Hid') _].
  destruct (add_order_trades m2 b1 fresh true m' b' Hq2 Hlt Hb1)
    as (ts & Hlog & _ & Hfill & Hrange); [by rewrite Hnew | exact Hadd |].
  rewrite Hnew in Hix', Hrange. simpl in Hix', Hrange.
  split; [rewrite Hix'; apply lookup_insert_eq|].
  split; [by rewrite Hid', Hnew|].
  assert (Hts : new_trades b b' = ts).
  { apply new_trades_app. by rewrite Hlog, Hlog1. }
  rewrite Hts. rewrite Hfill in Hstatus, Hrest.
  split; [done|]. split; [by rewrite Hfill|].
  split.
  { unfold remaining_quantity. rewrite Hqty, Hfill. apply wrap64_small.
    unfold u64 in *. lia. }
  split; [exact Hstatus|]. split; [exact Hrest|].
  assert (Hplt : (p < length (heap m1))%nat) by (by eapply lookup_lt_Some).
  assert (Hold : deref m2 p = set_status o CANCELLED).
  { rewrite <- Hd1. apply (deref_make_shared_old m1 replacement p Hplt). }
  apply lookup_deref; [rewrite Hlen'; lia|].
  rewrite <- Hold. eapply add_order_keeps_dead; [| |exact Hadd].
  - lia.
  - by rewrite Hold.
Qed.

(** C10, witness.  A SELL of 5000 at 5000 (id 1) has filled 2000 against a
    BUY, and a BUY of 1000 rests at 4900.  [modify_order(1, 5000, 4900)] is
    called in that state: the replacement trades 1000 on arrival. *)
Lemma modify_order_discards_fills_witness :
  ∃ m1 b1 m' b',
    cancel_order
      (state_after [Add 1 100 SELL LIMIT 5000 5000; Add 2 100 BUY LIMIT 2000 5000;
                    Add 3 100 BUY LIMIT 1000 4900]).1
      (state_after [Add 1 100 SELL LIMIT 5000 5000; Add 2 100 BUY LIMIT 2000 5000;
                    Add 3 100 BUY LIMIT 1000 4900]).2 1 = (true, m1, b1)
    ∧ add_new_order m1 b1 (Order_new 0 1 100 SELL LIMIT 5000 4900 0)
      = Some (true, m', b')
    ∧ modify_order
        (state_after [Add 1 100 SELL LIMIT 5000 5000; Add 2 100 BUY LIMIT 2000 5000;
                      Add 3 100 BUY LIMIT 1000 4900]).1
        (state_after [Add 1 100 SELL LIMIT 5000 5000; Add 2 100 BUY LIMIT 2000 5000;
                      Add 3 100 BUY LIMIT 1000 4900]).2
        1 5000 4900 = Some (true, m', b')
    ∧ orders_ b' !! 1 = Some 3%nat
    ∧ filled_quantity (deref m' 3%nat)
      = traded_quantity
          (new_trades
             (state_after [Add 1 100 SELL LIMIT 5000 5000;
                           Add 2 100 BUY LIMIT 2000 5000;
                           Add 3 100 BUY LIMIT 1000 4900]).2 b')
    ∧ heap m' !! 0%nat
      = Some (set_status (mkOrder 1 100 SELL LIMIT 5000 5000 0 0 NEW 2000)
                CANCELLED).
Proof.
  destruct (modify_order_discards_fills
              (state_after [Add 1 100 SELL LIMIT 5000 5000;
                            Add 2 100 BUY LIMIT 2000 5000;
                            Add 3 100 BUY LIMIT 1000 4900]).1
              (state_after [Add 1 100 SELL LIMIT 5000 5000;
                            Add 2 100 BUY LIMIT 2000 5000;
                            Add 3 100 BUY LIMIT 1000 4900]).2
              1 0%nat (mkOrder 1 100 SELL LIMIT 5000 5000 0 0 NEW 2000)
              5000 4900)
    as (_ & _ & _ & m1 & b1 & m' & b' & Hc & Ha & Hm & Hix & _ & Hfill & _ & _
        & _ & _ & Hold).
  - apply state_after_wf.
    repeat (apply Forall_cons; split; [apply u64_literal; reflexivity|]).
    apply Forall_nil_2.
  - apply u64_literal. reflexivity.
  - vm_compute. reflexivity.
  - vm_compute. reflexivity.
  - discriminate.
  - discriminate.
  - exists m1, b1, m', b'. split; [exact Hc|]. split; [exact Ha|].
    split; [exact Hm|]. split; [exact Hix|]. split; [exact Hfill | exact Hold].
Defined.

(** The id that had filled 2000 of 5000 trades 5000 more after the modify:
    7000 in all under one id. *)
Example modify_order_lets_the_id_fill_again :
  match requests mem0 book0
          [Add 1 100 SELL LIMIT 5000 5000; Add 2 100 BUY LIMIT 2000 5000;
           Modify 1 5000 0; Add 3 100 BUY LIMIT 5000 5000] with
  | Some (rets, m, b) =>
      rets = [true; true; true; true]
      ∧ trade_view <$> trades_out b = [(2, 1, 2000, 5000); (3, 1, 5000, 5000)]
      ∧ filled_quantity <$> order_of m b 1 = Some 5000
      ∧ status <$> order_of m b 1 = Some FILLED
      ∧ total_volume_ b = 7000
  | None => False
  end.
Proof. vm_compute. repeat split. Qed.

(** ** C8: [cancel_order] *)

Lemma remove_scan_unique m id l total p :
  NoDup l → p ∈ l → order_id (deref m p) = id →
  (∀ q, q ∈ l → order_id (deref m q) = id → q = p) →
  ∃ l', PriceLevel.remove_scan m id l total
          = (l', wrap64 (total - quantity (deref m p)))
        ∧ (p ∉ l') ∧ (l' `sublist_of` l) ∧ S (length l') = length l.
Proof.
  intros Hnd Hin Hid Huniq. induction l as [|x l IH]; [by apply elem_of_nil in Hin|].
  apply NoDup_cons in Hnd as [Hx Hnd]. simpl.
  destruct (order_id (deref m x) =? id) eqn:E.
  - apply Z.eqb_eq in E. assert (x = p) as -> by (apply Huniq; [by left|done]).
    exists l. split; [done|]. split; [done|]. split; [by apply sublist_cons|done].
  - apply Z.eqb_neq in E. apply elem_of_cons in Hin as [->|Hin]; [done|].
    destruct IH as (l' & -> & Hp & Hs & Hlen); try done.
    { intros q Hq. apply Huniq. by right. }
    exists (x :: l'). split; [done|]. split.
    + intros Hin'. apply elem_of_cons in Hin' as [->|Hin']; [|done]. done.
    + split; [by apply sublist_skip | simpl; lia].
Qed.

(** C8, counterexample.  A LIMIT BUY of quantity 0 rests at 5000 (the code
    does not reject it).  [cancel_order] on its id returns true and sets
    CANCELLED, but [filled_quantity < quantity] is false for it, so the
    order is not taken out of its level: the index entry still rests in
    the bid ladder and the level is still reported. *)
Lemma cancel_keeps_zero_quantity_order_in_level :
  match requests mem0 book0 [Add 1 100 BUY LIMIT 0 5000; Cancel 1] with
  | Some (rets, m, b) =>
      rets = [true; true]
      ∧ status <$> order_of m b 1 = Some CANCELLED
      ∧ orders_ b !! 1 = Some 0%nat
      ∧ resting_in (bids_ b) = [0%nat]
      ∧ get_bid_levels b 10 = [(5000, 0)]
  | None => False
  end.
Proof. vm_compute. repeat split. Qed.

(** C8, as amended.  [cancel_order(id)] returns false and changes nothing
    if the id is unknown or the order is FILLED or CANCELLED.  Otherwise it
    returns true and sets the status to CANCELLED, leaving every other
    object, the index and the opposite ladder as they were, and a second
    cancel of the id returns false.  An order with
    [filled_quantity = quantity] leaves both ladders as they were.  If the
    order is not fully filled ([filled_quantity < quantity]), the level at
    its price on its side, if there is one, loses the first entry that
    carries the id, and its total drops by the [quantity] of that entry (a
    level none of whose entries carries the id keeps its entries and its
    total); the level is erased if the total then is 0; other levels are
    untouched.  The entry erased is the order itself when the order is in
    the level as the only entry with its id: then it is out of the level.
    When an older entry with the same id is in the level, that one is
    erased and the cancelled order stays. *)
Theorem cancel_order_behaviour m b id :
  (orders_ b !! id = None → cancel_order m b id = (false, m, b))
  ∧ (∀ p o,
      orders_ b !! id = Some p → heap m !! p = Some o →
      (status o = FILLED ∨ status o = CANCELLED →
       cancel_order m b id = (false, m, b))
      ∧ (status o ≠ FILLED → status o ≠ CANCELLED →
         ∃ m' b',
           cancel_order m b id = (true, m', b')
           ∧ heap m' !! p = Some (set_status o CANCELLED)
           ∧ (∀ q, q ≠ p → deref m' q = deref m q)
           ∧ orders_ b' = orders_ b
           ∧ get_side b' (opposite (side o)) = get_side b (opposite (side o))
           ∧ cancel_order m' b' id = (false, m', b')
           ∧ (¬ filled_quantity o < quantity o →
              bids_ b' = bids_ b ∧ asks_ b' = asks_ b)
           ∧ (filled_quantity o < quantity o →
              (∀ k, k ≠ price o →
                    get_side b' (side o) !! k = get_side b (side o) !! k)
              ∧ (get_side b (side o) !! price o = None →
                 get_side b' (side o) !! price o = None)
              ∧ ∀ lvl,
                  get_side b (side o) !! price o = Some lvl →
                  (Forall (λ q, order_id (deref m q) ≠ id)
                     (PriceLevel.orders_ lvl) →
                   get_side b' (side o) !! price o
                   = if PriceLevel.total_quantity_ lvl =? 0 then None
                     else Some lvl)
                  ∧ (∀ l1 q l2,
                       PriceLevel.orders_ lvl = l1 ++ q :: l2 →
                       Forall (λ x, order_id (deref m x) ≠ id) l1 →
                       order_id (deref m q) = id →
                       get_side b' (side o) !! price o
                       = if wrap64 (PriceLevel.total_quantity_ lvl
                                    - quantity (deref m q)) =? 0
                         then None
                         else Some (PriceLevel.mk (l1 ++ l2)
                                      (wrap64 (PriceLevel.total_quantity_ lvl
                                               - quantity (deref m q)))))
                  ∧ (order_id o = id →
                     NoDup (PriceLevel.orders_ lvl) →
                     p ∈ PriceLevel.orders_ lvl →
                     (∀ q, q ∈ PriceLevel.orders_ lvl →
                           order_id (deref m q) = id → q = p) →
                     if decide (wrap64 (PriceLevel.total_quantity_ lvl
                                        - quantity o) = 0)
                     then get_side b' (side o) !! price o = None
                     else ∃ lvl',
                         get_side b' (side o) !! price o = Some lvl'
                         ∧ (p ∉ PriceLevel.orders_ lvl')
                         ∧ (PriceLevel.orders_ lvl'
                              `sublist_of` PriceLevel.orders_ lvl)
                         ∧ S (length (PriceLevel.orders_ lvl'))
                           = length (PriceLevel.orders_ lvl)
                         ∧ PriceLevel.total_quantity_ lvl'
                           = wrap64 (PriceLevel.total_quantity_ lvl
                                     - quantity o))))).
Proof.
  split.
  { intros Hix. unfold cancel_order. by rewrite Hix. }
  intros p o Hix Hp. split.
  { exact (cancel_order_dead m b id p o Hix Hp). }
  intros Hf Hc.
  destruct (cancel_order_live m b id p o Hix Hp Hf Hc)
    as (b' & Hcancel & Hp' & Hix' & _ & Hopp & Hown).
  exists (set_order_status m p CANCELLED), b'.
  split; [done|]. split; [done|].
  split. { intros q Hq. unfold set_order_status. by apply deref_store_ne. }
  split; [done|]. split; [done|].
  split. { eapply cancel_order_dead; [by rewrite Hix' | exact Hp' | by right]. }
  split.
  { intros Hge.
    assert (Hltb : (filled_quantity o <? quantity o) = false)
      by (by apply Z.ltb_ge; lia).
    rewrite Hltb in Hown.
    destruct (side o); simpl in Hown, Hopp; done. }
  intros Hlt.
  assert (Hltb : (filled_quantity o <? quantity o) = true) by (by apply Z.ltb_lt).
  rewrite Hltb in Hown.
  assert (Hafter : ∀ lvl l' total',
            get_side b (side o) !! price o = Some lvl →
            PriceLevel.remove_scan m id (PriceLevel.orders_ lvl)
              (PriceLevel.total_quantity_ lvl) = (l', total') →
            get_side b' (side o) !! price o
            = if total' =? 0 then None else Some (PriceLevel.mk l' total')).
  { intros lvl l' total' Hk Hscan. rewrite Hk in Hown.
    unfold PriceLevel.remove_order in Hown. rewrite Hscan in Hown.
    unfold PriceLevel.is_empty in Hown. simpl in Hown. rewrite Hown.
    destruct (total' =? 0); [apply lookup_delete_eq | apply lookup_insert_eq]. }
  split.
  { intros k Hne. rewrite Hown.
    destruct (get_side b (side o) !! price o) as [lvl|]; [|done].
    destruct (PriceLevel.is_empty _);
      [by rewrite lookup_delete_ne | by rewrite lookup_insert_ne]. }
  split.
  { intros Hk. rewrite Hown, Hk. exact Hk. }
  intros lvl Hk. split; [|split].
  - intros Habs. rewrite (Hafter lvl _ _ Hk (remove_scan_absent m id _ _ Habs)).
    by destruct lvl.
  - intros l1 q l2 Hl H1 Hq. apply (Hafter lvl); [done|].
    rewrite Hl. by apply remove_scan_first.
  - intros Hid Hnd Hin Huniq.
    destruct (remove_scan_unique m id (PriceLevel.orders_ lvl)
                (PriceLevel.total_quantity_ lvl) p Hnd Hin)
      as (l' & Hscan & Hnin & Hsub & Hlen); [|done|].
    { by rewrite (deref_lookup _ _ _ Hp). }
    rewrite (deref_lookup _ _ _ Hp) in Hscan.
    rewrite (Hafter lvl _ _ Hk Hscan).
    destruct (decide (wrap64 (PriceLevel.total_quantity_ lvl - quantity o) = 0))
      as [Hz|Hnz].
    + by rewrite Hz.
    + apply Z.eqb_neq in Hnz. rewrite Hnz. eexists. split; [reflexivity|]. done.
Qed.

(** C8, witness: the scenario of the specification.  A BUY of 1000 rests at
    5000; cancel(1) returns true, the order is CANCELLED and its level is
    gone; cancel(1) again returns false; cancel(999) returns false. *)
Lemma cancel_order_behaviour_witness :
  cancel_order (state_after [Add 1 100 BUY LIMIT 1000 5000]).1
    (state_after [Add 1 100 BUY LIMIT 1000 5000]).2 999
  = (false, (state_after [Add 1 100 BUY LIMIT 1000 5000]).1,
     (state_after [Add 1 100 BUY LIMIT 1000 5000]).2)
  ∧ ∃ m' b',
      cancel_order (state_after [Add 1 100 BUY LIMIT 1000 5000]).1
        (state_after [Add 1 100 BUY LIMIT 1000 5000]).2 1 = (true, m', b')
      ∧ heap m' !! 0%nat
        = Some (set_status (Order_new 0 1 100 BUY LIMIT 1000 5000 0) CANCELLED)
      ∧ cancel_order m' b' 1 = (false, m', b')
      ∧ bids_ b' !! 5000 = None.
Proof.
  split.
  - apply (proj1 (cancel_order_behaviour
                    (state_after [Add 1 100 BUY LIMIT 1000 5000]).1
                    (state_after [Add 1 100 BUY LIMIT 1000 5000]).2 999)).
    vm_compute. reflexivity.
  - destruct (proj2 (cancel_order_behaviour
                       (state_after [Add 1 100 BUY LIMIT 1000 5000]).1
                       (state_after [Add 1 100 BUY LIMIT 1000 5000]).2 1)
                0%nat (Order_new 0 1 100 BUY LIMIT 1000 5000 0))
      as [_ Hlive].
    + vm_compute. reflexivity.
    + vm_compute. reflexivity.
    + destruct Hlive as (m' & b' & Hc & Hp & _ & _ & _ & Hagain & _ & Hlevel);
        [discriminate | discriminate |].
      exists m', b'. split; [exact Hc|]. split; [exact Hp|].
      split; [exact Hagain|].
      destruct (Hlevel ltac:(vm_compute; reflexivity)) as (_ & _ & Hlvl).
      destruct (Hlvl (PriceLevel.mk [0%nat] 1000)) as (_ & _ & Hgone).
      * vm_compute. reflexivity.
      * apply Hgone.
        -- reflexivity.
        -- apply NoDup_singleton.
        -- by left.
        -- intros q Hq _. by apply list_elem_of_singleton in Hq.
Defined.

(** C8, the amended claim at an older entry with the same id.  A LIMIT BUY
    of quantity 0 rests at 5000 under id 1; [modify_order(1, 100, 0)]
    cancels it, which leaves it in its level, and puts the replacement of
    quantity 100 behind it under the same id.  [cancel_order(1)] then
    returns true and sets the replacement to CANCELLED, but the entry it
    erases from the level is the older one: the cancelled replacement stays
    in the level, which is still reported with its 100. *)
Example cancel_erases_the_oldest_entry_with_the_id :
  match requests mem0 book0
          [Add 1 100 BUY LIMIT 0 5000; Modify 1 100 0; Cancel 1] with
  | Some (rets, m, b) =>
      rets = [true; true; true]
      ∧ orders_ b !! 1 = Some 1%nat
      ∧ status <$> order_of m b 1 = Some CANCELLED
      ∧ quantity <$> order_of m b 1 = Some 100
      ∧ resting_in (bids_ b) = [1%nat]
      ∧ get_bid_levels b 10 = [(5000, 100)]
  | None => False
  end.
Proof. vm_compute. repeat split. Qed.

(** ** C9: the read-only queries *)

Lemma cancel_scan_symbol m books id symbol m1 b1 :
  OrderBookSimulator.cancel_scan m books id = Some (symbol, m1, b1) →
  symbol ∈ books.*1.
Proof.
  induction books as [|[sym book] rest IH]; simpl; [done|].
  destruct (cancel_order m book id) as [[ok m2] book2].
  destruct ok; intros H.
  - simplify_eq. by left.
  - right. by apply IH.
Qed.

Lemma modify_scan_symbol m books id q px symbol m1 b1 :
  OrderBookSimulator.modify_scan m books id q px = Some (Some (symbol, m1, b1)) →
  symbol ∈ books.*1.
Proof.
  induction books as [|[sym book] rest IH]; simpl; [done|].
  destruct (modify_order m book id q px) as [[[ok m2] book2]|]; simpl; [|done].
  destruct ok; intros H.
  - simplify_eq. by left.
  - right. by apply IH.
Qed.

Lemma elem_of_map_to_list_keys (books : gmap Z SimpleOrderBook.t) symbol :
  symbol ∈ (map_to_list books).*1 → is_Some (books !! symbol).
Proof.
  intros H. apply list_elem_of_fmap in H as ([k v] & -> & Hkv).
  apply elem_of_map_to_list in Hkv. by eexists.
Qed.

(** A call that does not submit to [symbol] creates no book for it. *)
Lemma call_keeps_unused m s c m' s' symbol :
  call m s c = Some (m', s') → call_symbol c ≠ Some symbol →
  OrderBookSimulator.order_books_ s !! symbol = None →
  OrderBookSimulator.order_books_ s' !! symbol = None.
Proof.
  intros H Hc Hnone.
  destruct c as [sym sd type qty px stop_px|id|id q px]; simpl in H, Hc.
  - unfold OrderBookSimulator.submit_order in H. rewrite make_shared_spec in H.
    destruct (add_order _ _ _) as [[[ok m2] book']|]; simpl in H; [|done].
    simplify_eq. simpl. rewrite lookup_insert_ne; [done | congruence].
  - unfold OrderBookSimulator.cancel_order in H.
    destruct (OrderBookSimulator.cancel_scan _ _ _) as [[[sym m1] b1]|] eqn:E.
    + simplify_eq. simpl. apply cancel_scan_symbol in E.
      apply elem_of_map_to_list_keys in E as [x Hx].
      rewrite lookup_insert_ne; [done | congruence].
    + by simplify_eq.
  - unfold OrderBookSimulator.modify_order in H.
    destruct (OrderBookSimulator.modify_scan _ _ _ _ _) as [[[[sym m1] b1]|]|] eqn:E;
      simpl in H; [| |done].
    + simplify_eq. simpl. apply modify_scan_symbol in E.
      apply elem_of_map_to_list_keys in E as [x Hx].
      rewrite lookup_insert_ne; [done | congruence].
    + by simplify_eq.
Qed.

Lemma calls_keep_unused cs : ∀ m s m' s' symbol,
  calls m s cs = Some (m', s') →
  Forall (λ c, call_symbol c ≠ Some symbol) cs →
  OrderBookSimulator.order_books_ s !! symbol = None →
  OrderBookSimulator.order_books_ s' !! symbol = None.
Proof.
  induction cs as [|c cs IH]; intros m s m' s' symbol H Hcs Hnone; simpl in H.
  - by simplify_eq.
  - apply Forall_cons in Hcs as [Hc Hcs].
    destruct (call m s c) as [[m1 s1]|] eqn:E; simpl in H; [|done].
    eapply IH; [exact H | exact Hcs |]. by eapply call_keeps_unused.
Qed.

Lemma ladder_keys_empty : Ladder.keys ∅ = [].
Proof. done. Qed.

(** C9.  The queries of the engine are functions that return a value in
    every state.  For a symbol that no call has submitted to, since the
    engine was built, [get_market_data] returns the snapshot of the symbol
    with every other field 0 and the level queries return the empty list.
    For a book whose ladders are both empty, the best bid and ask prices
    and quantities and the last-trade fields are 0 (the snapshot carries
    the clock reading and the volume traded so far), and the level queries
    return the empty list. *)
Theorem queries_are_total_and_empty :
  (∀ cs m s symbol depth,
      calls mem0 OrderBookSimulator.new cs = Some (m, s) →
      Forall (λ c, call_symbol c ≠ Some symbol) cs →
      OrderBookSimulator.get_market_data m s symbol
        = MarketDataSnapshot.mk symbol 0 0 0 0 0 0 0 0
      ∧ OrderBookSimulator.get_bid_levels s symbol depth = []
      ∧ OrderBookSimulator.get_ask_levels s symbol depth = [])
  ∧ (∀ m s symbol depth book,
      OrderBookSimulator.order_books_ s !! symbol = Some book →
      bids_ book = ∅ → asks_ book = ∅ →
      OrderBookSimulator.get_market_data m s symbol
        = MarketDataSnapshot.mk (symbol_id_ book) (clock m) 0 0 0 0 0 0
            (total_volume_ book)
      ∧ get_market_data m book
        = MarketDataSnapshot.mk (symbol_id_ book) (clock m) 0 0 0 0 0 0
            (total_volume_ book)
      ∧ OrderBookSimulator.get_bid_levels s symbol depth = []
      ∧ OrderBookSimulator.get_ask_levels s symbol depth = []).
Proof.
  split.
  - intros cs m s symbol depth H Hcs.
    assert (Hnone : OrderBookSimulator.order_books_ s !! symbol = None).
    { eapply calls_keep_unused; [exact H | exact Hcs | done]. }
    unfold OrderBookSimulator.get_market_data, OrderBookSimulator.get_bid_levels,
      OrderBookSimulator.get_ask_levels. by rewrite Hnone.
  - intros m s symbol depth book Hbook Hbids Hasks.
    unfold OrderBookSimulator.get_market_data, OrderBookSimulator.get_bid_levels,
      OrderBookSimulator.get_ask_levels. rewrite Hbook.
    unfold get_market_data, get_bid_levels, get_ask_levels.
    rewrite Hbids, Hasks. unfold Ladder.rbegin, Ladder.begin, Ladder.levels.
    rewrite ladder_keys_empty. simpl.
    repeat split; by destruct (Z.to_nat depth).
Qed.

(** C9, witness.  Two orders are submitted to symbol 100 and fill each
    other.  Symbol 101 was never used; the book of symbol 100 is empty. *)
Lemma queries_are_total_and_empty_witness :
  (OrderBookSimulator.get_market_data
     (engine_after [Submit 100 SELL LIMIT 1000 5000 0;
                    Submit 100 BUY LIMIT 1000 5000 0]).1
     (engine_after [Submit 100 SELL LIMIT 1000 5000 0;
                    Submit 100 BUY LIMIT 1000 5000 0]).2 101
   = MarketDataSnapshot.mk 101 0 0 0 0 0 0 0 0
   ∧ OrderBookSimulator.get_bid_levels
       (engine_after [Submit 100 SELL LIMIT 1000 5000 0;
                      Submit 100 BUY LIMIT 1000 5000 0]).2 101 10 = []
   ∧ OrderBookSimulator.get_ask_levels
       (engine_after [Submit 100 SELL LIMIT 1000 5000 0;
                      Submit 100 BUY LIMIT 1000 5000 0]).2 101 10 = [])
  ∧ ∃ book,
      OrderBookSimulator.order_books_
        (engine_after [Submit 100 SELL LIMIT 1000 5000 0;
                       Submit 100 BUY LIMIT 1000 5000 0]).2 !! 100 = Some book
      ∧ total_volume_ book = 1000
      ∧ OrderBookSimulator.get_market_data
          (engine_after [Submit 100 SELL LIMIT 1000 5000 0;
                         Submit 100 BUY LIMIT 1000 5000 0]).1
          (engine_after [Submit 100 SELL LIMIT 1000 5000 0;
                         Submit 100 BUY LIMIT 1000 5000 0]).2 100
        = MarketDataSnapshot.mk (symbol_id_ book)
            (clock (engine_after [Submit 100 SELL LIMIT 1000 5000 0;
                                  Submit 100 BUY LIMIT 1000 5000 0]).1)
            0 0 0 0 0 0 (total_volume_ book).
Proof.
  split.
  - apply (proj1 queries_are_total_and_empty
             [Submit 100 SELL LIMIT 1000 5000 0; Submit 100 BUY LIMIT 1000 5000 0]).
    + vm_compute. reflexivity.
    + repeat (apply Forall_cons; split; [discriminate|]). apply Forall_nil_2.
  - eexists. split; [vm_compute; reflexivity|]. split; [reflexivity|].
    refine (proj1 (proj2 queries_are_total_and_empty _ _ 100 10 _ _ _ _)).
    + vm_compute. reflexivity.
    + vm_compute. reflexivity.
    + vm_compute. reflexivity.
Defined.

(** * Further properties of the code *)

(** ** Reasoning over the states a book reaches *)

Lemma modify_order_steps m b id q px ret m' b' :
  modify_order m b id q px = Some (ret, m', b') →
  (ret = false ∧ m' = m ∧ b' = b)
  ∨ ∃ m1 b1 p,
      orders_ b !! id = Some p
      ∧ cancel_order m b id = (true, m1, b1)
      ∧ add_new_order m1 b1
          (Order_new (clock m1) id (symbol_id (deref m1 p)) (side (deref m1 p))
             (order_type (deref m1 p)) q
             (if 0 <? px then px else price (deref m1 p)) 0)
        = Some (ret, m', b').
Proof.
  unfold modify_order.
  destruct (orders_ b !! id) as [p|] eqn:Hix; [|intros; simplify_eq; by left].
  destruct (decide _) as [Hdead|Hlive]; [intros; simplify_eq; by left|].
  intros H. right.
  assert (Hc : ∃ m1 b1, cancel_order m b id = (true, m1, b1)).
  { unfold cancel_order. rewrite Hix. rewrite decide_False by done.
    by eexists _, _. }
  destruct Hc as (m1 & b1 & Hc). rewrite Hc in H.
  exists m1, b1, p. split; [done|]. split; [done|]. exact H.
Qed.

(** A property that holds for the fresh book and that the submission of a
    newly built order and [cancel_order] keep holds in every state reached
    by requests. *)
Lemma requests_invariant (P : Mem → t → Prop) :
  P mem0 book0 →
  (∀ m b now id symbol s type qty px stop_px ret m' b',
      well_formed m b → P m b → u64 qty →
      add_new_order m b (Order_new now id symbol s type qty px stop_px)
        = Some (ret, m', b') →
      P m' b') →
  (∀ m b id ret m' b',
      well_formed m b → P m b → cancel_order m b id = (ret, m', b') →
      P m' b') →
  ∀ rs, Forall request_u64 rs → P (state_after rs).1 (state_after rs).2.
Proof.
  intros H0 Hadd Hcancel rs Hrs.
  assert (Hgen : ∀ rs m b, well_formed m b → P m b → Forall request_u64 rs →
            ∃ rets m' b', requests m b rs = Some (rets, m', b') ∧ P m' b').
  { clear rs Hrs. induction rs as [|r rs IH]; intros m b Hwf HP Hrs; simpl.
    - by eexists _, _, _.
    - apply Forall_cons in Hrs as [Hr Hrs].
      destruct (request_wf m b r Hwf Hr) as (ret & m1 & b1 & Hreq & Hwf1).
      assert (HP1 : P m1 b1).
      { destruct r as [id symbol s type qty px|id|id q px];
          unfold request in Hreq; simpl in Hr.
        - eapply Hadd; [exact Hwf | exact HP | exact Hr | exact Hreq].
        - injection Hreq as Hc.
          eapply Hcancel; [exact Hwf | exact HP | exact Hc].
        - apply modify_order_steps in Hreq
            as [(_ & -> & ->)|(m2 & b2 & p & _ & Hc & Ha)]; [done|].
          pose proof (cancel_order_wf m b id _ _ _ Hwf Hc) as [_ Hwf2].
          eapply Hadd; [exact Hwf2| |exact Hr|exact Ha].
          eapply Hcancel; [exact Hwf | exact HP | exact Hc]. }
      rewrite Hreq. simpl.
      destruct (IH m1 b1 Hwf1 HP1 Hrs) as (rets & m' & b' & -> & HP').
      simpl. by eexists _, _, _. }
  unfold state_after.
  destruct (Hgen rs mem0 book0 (well_formed_new 100) H0 Hrs)
    as (rets & m & b & -> & HP).
  exact HP.
Qed.

(** ** The counters of a book and its trade log *)

Lemma wrap64_add_l a b : wrap64 (wrap64 a + b) = wrap64 (a + b).
Proof. unfold wrap64. by rewrite Z.add_mod_idemp_l by lia. Qed.

Lemma wrap64_sub_l a b : wrap64 (wrap64 a - b) = wrap64 (a - b).
Proof. unfold wrap64. by rewrite Zminus_mod_idemp_l. Qed.

Lemma counters_ok_ext b b' :
  total_volume_ b' = total_volume_ b → trade_count_ b' = trade_count_ b →
  next_trade_id_ b' = next_trade_id_ b → trades_out b' = trades_out b →
  counters_ok b → counters_ok b'.
Proof. unfold counters_ok. intros -> -> -> ->. done. Qed.

Lemma counters_ok_set_side b s l : counters_ok b → counters_ok (set_side b s l).
Proof. intros H. eapply counters_ok_ext; [..|exact H]; by destruct s. Qed.

Lemma counters_ok_execute_trade m b o1 o2 q :
  counters_ok b → counters_ok (execute_trade m b o1 o2 q).2.
Proof.
  intros (Hv & Hc & Hn & Hids). unfold execute_trade, counters_ok. simpl.
  rewrite length_app. simpl. rewrite traded_quantity_app.
  replace (traded_quantity [_]) with q by (unfold traded_quantity; simpl; lia).
  split; [by rewrite Hv, wrap64_add_l|].
  split; [rewrite Hc, wrap64_add_l; f_equal; lia|].
  split; [rewrite Hn, wrap64_add_l; f_equal; lia|].
  intros k t Hk. apply lookup_app_Some in Hk as [Hk|[Hge Hk]].
  - by apply Hids.
  - apply list_lookup_singleton_Some in Hk as [Hz <-]. simpl.
    rewrite Hn. f_equal. lia.
Qed.

Lemma fill_turn_counters m b order pm lvl m1 b1 lvl1 :
  counters_ok b → fill_turn m b order pm lvl = (m1, b1, lvl1) → counters_ok b1.
Proof.
  intros Hb. unfold fill_turn.
  pose proof (counters_ok_execute_trade m b order pm
                (Z.min (remaining_quantity (deref m order))
                       (remaining_quantity (deref m pm))) Hb) as H.
  destruct (execute_trade _ _ _ _ _) as [me be]. simpl in H.
  destruct (is_filled _); intros E; by simplify_eq.
Qed.

Lemma try_match_order_counters m b order opp matched m' b' opp' :
  counters_ok b →
  try_match_order m b order opp = Some (matched, m', b', opp') → counters_ok b'.
Proof.
  intros Hb. unfold try_match_order.
  destruct (Ladder.is_empty opp); [intros; by simplify_eq|].
  destruct (match_levels _ _ _ _ _ _) as [[[m1 b1] side1]|] eqn:Hm; simpl; [|done].
  intros H. simplify_eq.
  apply (match_levels_inv (λ _ b1 _, counters_ok b1) order)
    with (fuel := levels_fuel opp) (m := m) (b := b) (opp := opp)
         (it := match side (deref m order) with
                | BUY => Ladder.begin opp | SELL => Ladder.rbegin opp end)
         (m' := m') (opp' := opp'); [| |done|exact Hm].
  - intros m0 b0 opp0 k lvl m1 b1 lvl1 Hb0 _ Hml.
    apply (match_level_inv (λ _ b1 _, counters_ok b1) order)
      with (fuel := length (PriceLevel.orders_ lvl)) (m := m0) (b := b0)
           (lvl := lvl) (m' := m1) (lvl' := lvl1); [|done|exact Hml].
    intros m2 b2 lvl2 pm m3 b3 lvl3 Hb2 _ Ht. by eapply fill_turn_counters.
  - done.
Qed.

Lemma add_order_counters m b order ret m' b' :
  counters_ok b → add_order m b order = Some (ret, m', b') → counters_ok b'.
Proof.
  intros Hb H.
  apply add_order_shape in H
    as (matched & m1 & b1 & side1 & st & rests & Hm & -> & -> & _ & _).
  apply try_match_order_counters in Hm; [|by eapply counters_ok_ext; [..|exact Hb]].
  destruct rests; [unfold add_to_book|]; by repeat apply counters_ok_set_side.
Qed.

Lemma cancel_order_counters m b id ret m' b' :
  counters_ok b → cancel_order m b id = (ret, m', b') → counters_ok b'.
Proof.
  intros Hb. unfold cancel_order.
  destruct (orders_ b !! id) as [p|]; [|intros; by simplify_eq].
  destruct (decide _); [intros; by simplify_eq|].
  intros H. simplify_eq.
  destruct (_ <? _); [|done].
  destruct (get_side b _ !! _); [|done].
  destruct (PriceLevel.is_empty _); by apply counters_ok_set_side.
Qed.

(** X1.  In every state a fresh book reaches by requests, the counters agree
    with the log of the trades handed to [notify_trade]: the volume is the
    sum of the trade quantities and the trade count is the number of trades
    (both modulo 2^64), and the trades are numbered 1, 2, 3, ... in the
    order they were made.  The snapshot reports that volume. *)
Theorem counters_follow_the_trade_log rs :
  Forall request_u64 rs →
  get_total_volume (state_after rs).2
    = wrap64 (traded_quantity (trades_out (state_after rs).2))
  ∧ get_trade_count (state_after rs).2
    = wrap64 (Z.of_nat (length (trades_out (state_after rs).2)))
  ∧ (∀ k t, trades_out (state_after rs).2 !! k = Some t →
            Trade.trade_id t = wrap64 (1 + Z.of_nat k))
  ∧ MarketDataSnapshot.volume
      (get_market_data (state_after rs).1 (state_after rs).2)
    = wrap64 (traded_quantity (trades_out (state_after rs).2)).
Proof.
  intros Hrs.
  assert (H : counters_ok (state_after rs).2).
  { apply (requests_invariant (λ _ b, counters_ok b)); [| | |exact Hrs].
    - unfold counters_ok. simpl. repeat split; try done.
    - intros m b now id symbol s type qty px stop_px ret m' b' _ Hb _ Ha.
      unfold add_new_order in Ha. rewrite make_shared_spec in Ha.
      by eapply add_order_counters.
    - intros m b id ret m' b' _ Hb Hc. by eapply cancel_order_counters. }
  destruct H as (Hv & Hc & _ & Hids). repeat split; try done.
Qed.

(** X1, witness: two resting BUY orders and a SELL that trades with both. *)
Lemma counters_follow_the_trade_log_witness :
  get_total_volume
    (state_after [Add 1 100 BUY LIMIT 1000 5000; Add 2 100 BUY LIMIT 2000 5000;
                  Add 3 100 SELL LIMIT 1500 5000]).2
  = wrap64 (traded_quantity
              (trades_out
                 (state_after [Add 1 100 BUY LIMIT 1000 5000;
                               Add 2 100 BUY LIMIT 2000 5000;
                               Add 3 100 SELL LIMIT 1500 5000]).2)).
Proof.
  apply (counters_follow_the_trade_log
           [Add 1 100 BUY LIMIT 1000 5000; Add 2 100 BUY LIMIT 2000 5000;
            Add 3 100 SELL LIMIT 1500 5000]).
  repeat (apply Forall_cons; split; [apply u64_literal; reflexivity|]).
  apply Forall_nil_2.
Defined.

(** ** Fills never exceed the quantity, and every fill has two sides *)

Lemma heap_Forall_deref (P : Order → Prop) m :
  Forall P (heap m) ↔ ∀ p, (p < length (heap m))%nat → P (deref m p).
Proof.
  rewrite Forall_lookup. split.
  - intros H p Hp. destruct (lookup_lt_is_Some_2 _ _ Hp) as [o Ho].
    rewrite (deref_lookup _ _ _ Ho). by eapply H.
  - intros H p o Ho. rewrite <- (deref_lookup _ _ _ Ho). apply H.
    by eapply lookup_lt_Some.
Qed.

Lemma filled_sum_insert (l : list Order) p o :
  (p < length l)%nat →
  foldr (λ o acc, filled_quantity o + acc) 0 (<[p := o]> l)
  = foldr (λ o acc, filled_quantity o + acc) 0 l
    - filled_quantity (l !!! p) + filled_quantity o.
Proof.
  revert p. induction l as [|x l IH]; intros p Hp; simpl in Hp; [lia|].
  destruct p as [|p]; simpl.
  - lia.
  - rewrite IH by lia. 
    change ((x :: l) !!! S p) with (l !!! p). lia.
Qed.

Lemma filled_total_store m p o :
  (p < length (heap m))%nat →
  filled_total (store m p o)
  = filled_total m - filled_quantity (deref m p) + filled_quantity o.
Proof. intros Hp. unfold filled_total, store, deref. simpl. by apply filled_sum_insert. Qed.

Lemma fills_ok_store m p o :
  fills_ok m →
  (0 <= filled_quantity o <= quantity o
   ∧ (status o = FILLED → filled_quantity o = quantity o)) →
  fills_ok (store m p o).
Proof.
  intros Hm Ho. unfold fills_ok, store. simpl.
  destruct (decide (p < length (heap m))%nat).
  - by apply Forall_insert.
  - by rewrite list_insert_ge by lia.
Qed.

(** The store after one turn of the inner loop. *)
Lemma fill_turn_store m b order pm lvl m1 b1 lvl1 :
  order ≠ pm → (order < length (heap m))%nat → (pm < length (heap m))%nat →
  fill_turn m b order pm lvl = (m1, b1, lvl1) →
  let q := Z.min (remaining_quantity (deref m order))
                 (remaining_quantity (deref m pm)) in
  let mo := store m order (add_filled (deref m order) q) in
  m1 = store mo pm
         (if is_filled (add_filled (deref m pm) q)
          then set_status (add_filled (deref m pm) q) FILLED
          else add_filled (deref m pm) q).
Proof.
  intros Hne Ho Hp Ht q mo.
  pose proof (execute_trade_matching m b order pm q Hne Hp) as Hmat.
  unfold fill_turn in Ht. fold q in Ht.
  assert (He : (execute_trade m b order pm q).1
               = store mo pm (add_filled (deref m pm) q)).
  { unfold execute_trade. cbn [fst]. fold mo.
    subst mo. by rewrite deref_store_ne. }
  destruct (execute_trade m b order pm q) as [me be]. simpl in He, Hmat.
  rewrite Hmat in Ht.
  destruct (is_filled (add_filled (deref m pm) q)); simplify_eq; [|done].
  unfold store. simpl. by rewrite list_insert_insert_eq.
Qed.

Lemma fill_turn_fills m b order pm lvl m1 b1 lvl1 :
  quantities_u64 m → fills_ok m →
  order ≠ pm → (order < length (heap m))%nat → (pm < length (heap m))%nat →
  fill_turn m b order pm lvl = (m1, b1, lvl1) →
  fills_ok m1
  ∧ filled_total m1
    = filled_total m
      + 2 * Z.min (remaining_quantity (deref m order))
                  (remaining_quantity (deref m pm)).
Proof.
  intros Hq Hf Hne Ho Hp Ht.
  pose proof (fill_turn_store _ _ _ _ _ _ _ _ Hne Ho Hp Ht) as Hm1.
  simpl in Hm1. set (q := Z.min _ _) in *.
  pose proof (quantities_u64_deref m order Hq Ho) as HQo.
  pose proof (quantities_u64_deref m pm Hq Hp) as HQp.
  pose proof (proj1 (heap_Forall_deref _ m) Hf order Ho) as [HFo HSo].
  pose proof (proj1 (heap_Forall_deref _ m) Hf pm Hp) as [HFp HSp].
  assert (Hro : remaining_quantity (deref m order)
                = quantity (deref m order) - filled_quantity (deref m order)).
  { unfold remaining_quantity. apply wrap64_small. unfold u64 in *. lia. }
  assert (Hrp : remaining_quantity (deref m pm)
                = quantity (deref m pm) - filled_quantity (deref m pm)).
  { unfold remaining_quantity. apply wrap64_small. unfold u64 in *. lia. }
  assert (Hqo : 0 <= q <= quantity (deref m order) - filled_quantity (deref m order))
    by (subst q; lia).
  assert (Hqp : 0 <= q <= quantity (deref m pm) - filled_quantity (deref m pm))
    by (subst q; lia).
  assert (Hfo : filled_quantity (add_filled (deref m order) q)
                = filled_quantity (deref m order) + q).
  { unfold add_filled. cbn [filled_quantity]. apply wrap64_small.
    unfold u64 in *. lia. }
  assert (Hfp : filled_quantity (add_filled (deref m pm) q)
                = filled_quantity (deref m pm) + q).
  { unfold add_filled. cbn [filled_quantity]. apply wrap64_small.
    unfold u64 in *. lia. }
  set (X := if is_filled (add_filled (deref m pm) q)
            then set_status (add_filled (deref m pm) q) FILLED
            else add_filled (deref m pm) q) in *.
  assert (HX : filled_quantity X = filled_quantity (deref m pm) + q
               ∧ quantity X = quantity (deref m pm)
               ∧ (status X = FILLED → filled_quantity X = quantity X)).
  { subst X. destruct (is_filled (add_filled (deref m pm) q)) eqn:E.
    - split; [exact Hfp|]. split; [done|]. intros _.
      unfold is_filled in E. apply Z.eqb_eq in E. exact E.
    - split; [exact Hfp|]. split; [done|]. intros Hs.
      change (status (add_filled (deref m pm) q)) with (status (deref m pm)) in Hs.
      specialize (HSp Hs). rewrite Hfp.
      change (quantity (add_filled (deref m pm) q)) with (quantity (deref m pm)).
      lia. }
  destruct HX as (HXf & HXq & HXs).
  rewrite Hm1. split.
  - apply fills_ok_store; [apply fills_ok_store; [done|]|].
    + rewrite Hfo. change (quantity (add_filled (deref m order) q))
        with (quantity (deref m order)).
      split; [lia|]. intros Hs.
      change (status (add_filled (deref m order) q))
        with (status (deref m order)) in Hs.
      specialize (HSo Hs). lia.
    + rewrite HXq. split; [lia|]. rewrite <- HXq. exact HXs.
  - rewrite filled_total_store by (by rewrite length_store).
    rewrite deref_store_ne by done.
    rewrite filled_total_store by done. rewrite HXf, Hfo. lia.
Qed.

Lemma set_order_status_fills m p st :
  fills_ok m → (st = FILLED → is_filled (deref m p) = true) →
  fills_ok (set_order_status m p st)
  ∧ filled_total (set_order_status m p st) = filled_total m.
Proof.
  intros Hf Hst. unfold set_order_status.
  destruct (decide (p < length (heap m))%nat) as [Hp|Hp].
  - pose proof (proj1 (heap_Forall_deref _ m) Hf p Hp) as [HF HS]. split.
    + apply fills_ok_store; [done|]. split; [done|]. simpl. intros Hs.
      specialize (Hst Hs). unfold is_filled in Hst. by apply Z.eqb_eq in Hst.
    + rewrite filled_total_store by done. simpl. lia.
  - unfold store. rewrite list_insert_ge by lia. by destruct m.
Qed.

Lemma add_order_fills m b order ret m' b' :
  quantities_u64 m → (order < length (heap m))%nat →
  (∀ s, ptrs_below order (get_side b s)) →
  fills_ok m →
  add_order m b order = Some (ret, m', b') →
  fills_ok m'
  ∧ ∃ ts, trades_out b' = trades_out b ++ ts
          ∧ filled_total m' = filled_total m + 2 * traded_quantity ts.
Proof.
  intros Hq Ho Hb Hf H.
  apply add_order_shape in H
    as (matched & m1 & b1 & side1 & st & rests & Hm & -> & -> & Hst & _).
  set (b0 := set_orders b _) in Hm.
  assert (HJ : fills_ok m1
               ∧ ∃ ts, trades_out b1 = trades_out b0 ++ ts
                       ∧ filled_total m1 = filled_total m + 2 * traded_quantity ts).
  { apply (try_match_order_rule order m
             (get_side b (opposite (side (deref m order))))
             (λ m2 log, fills_ok m2
                ∧ ∃ ts, log = trades_out b0 ++ ts
                        ∧ filled_total m2 = filled_total m + 2 * traded_quantity ts))
      with (b := b0) (matched := matched) (opp' := side1); [| |exact Hm].
    - intros m2 b2 lvl pm m3 b3 lvl3 (Hlen & _ & Hid) Hrest _
        (Hf2 & ts & Hlog & Hsum) Ht.
      assert (Hpm : (pm < order)%nat)
        by (eapply resting_in_below; [apply Hb | exact Hrest]).
      assert (Hq2 : quantities_u64 m2)
        by (eapply quantities_u64_identity; [exact Hlen | exact Hid | exact Hq]).
      destruct (fill_turn_fills m2 b2 order pm lvl m3 b3 lvl3) as [Hf3 Hsum3];
        try done; try lia.
      split; [done|].
      destruct (fill_turn_trade _ _ _ _ _ _ _ _ Ht) as (t & Hlog3 & _ & Htq).
      exists (ts ++ [t]). split; [by rewrite Hlog3, Hlog, app_assoc|].
      rewrite traded_quantity_app, Hsum3, Hsum.
      replace (traded_quantity [t]) with (Trade.quantity t)
        by (unfold traded_quantity; simpl; lia).
      rewrite Htq. lia.
    - split; [done|]. exists []. split; [by rewrite app_nil_r|].
      unfold traded_quantity. simpl. lia. }
  destruct HJ as (Hf1 & ts & Hlog & Hsum).
  destruct (set_order_status_fills m1 order st Hf1) as [Hf' Hsum'].
  { intros ->. destruct matched; [|by destruct (decide _)].
    by destruct (is_filled (deref m1 order)). }
  split; [done|]. exists ts. rewrite Hsum', Hsum. split; [|done].
  assert (Hl : ∀ bb s l, trades_out (set_side bb s l) = trades_out bb)
    by (by intros bb [] l).
  destruct rests; [unfold add_to_book|]; rewrite ?Hl; exact Hlog.
Qed.

Lemma cancel_order_fills m b id ret m' b' :
  fills_ok m → cancel_order m b id = (ret, m', b') →
  fills_ok m' ∧ filled_total m' = filled_total m
  ∧ trades_out b' = trades_out b.
Proof.
  intros Hf. unfold cancel_order.
  destruct (orders_ b !! id) as [p|]; [|intros; by simplify_eq].
  destruct (decide _); [intros; by simplify_eq|].
  intros H. simplify_eq.
  destruct (set_order_status_fills m p CANCELLED Hf) as [Hf' Hs]; [done|].
  split; [done|]. split; [done|].
  assert (Hl : ∀ bb s l, trades_out (set_side bb s l) = trades_out bb)
    by (by intros bb [] l).
  destruct (_ <? _); [|done].
  destruct (get_side b _ !! _); [|done].
  destruct (PriceLevel.is_empty _); by rewrite Hl.
Qed.

Lemma reachable_fills rs :
  Forall request_u64 rs →
  fills_ok (state_after rs).1
  ∧ filled_total (state_after rs).1
    = 2 * traded_quantity (trades_out (state_after rs).2).
Proof.
  apply (requests_invariant
           (λ m b, fills_ok m
                   ∧ filled_total m = 2 * traded_quantity (trades_out b))).
  - split; [constructor | done].
  - intros m b now id symbol s type qty px stop_px ret m' b' Hwf (Hf & Hsum) Hq Ha.
    unfold add_new_order in Ha. rewrite make_shared_spec in Ha.
    set (o := Order_new now id symbol s type qty px stop_px) in *.
    set (m1 := mkMem (heap m ++ [o]) (clock m)) in *.
    assert (Hf1 : fills_ok m1).
    { unfold fills_ok. subst m1. simpl. apply Forall_app. split; [done|].
      apply Forall_cons. split; [|apply Forall_nil_2]. simpl.
      unfold u64 in Hq. split; [lia | done]. }
    assert (Hs1 : filled_total m1 = filled_total m).
    { unfold filled_total. subst m1. simpl. rewrite foldr_app. simpl.
      by rewrite Z.add_0_r. }
    destruct (add_order_fills m1 b (length (heap m)) ret m' b')
      as (Hf' & ts & Hlog & Hsum'); try done.
    { apply (make_shared_quantities m o); [apply Hwf | exact Hq]. }
    { subst m1. simpl. rewrite length_app. simpl. lia. }
    { by apply well_formed_sides. }
    split; [done|]. rewrite Hsum', Hs1, Hsum, Hlog, traded_quantity_app. lia.
  - intros m b id ret m' b' _ (Hf & Hsum) Hc.
    destruct (cancel_order_fills _ _ _ _ _ _ Hf Hc) as (Hf' & Hs' & Hl').
    split; [done|]. by rewrite Hs', Hl'.
Qed.

(** X2. In every state the book reaches from the empty book by add, cancel
    and modify requests with 64-bit quantities, no order record is filled
    beyond its quantity: [0 <= filled_quantity <= quantity], so the unsigned
    subtraction in [remaining_quantity] never wraps, [is_filled] holds exactly
    when nothing remains, and an order whose status is [FILLED] has nothing
    remaining. *)
Theorem fills_never_exceed_quantity rs p :
  Forall request_u64 rs →
  (p < length (heap (state_after rs).1))%nat →
  0 <= filled_quantity (deref (state_after rs).1 p)
    <= quantity (deref (state_after rs).1 p)
  ∧ remaining_quantity (deref (state_after rs).1 p)
    = quantity (deref (state_after rs).1 p)
      - filled_quantity (deref (state_after rs).1 p)
  ∧ (is_filled (deref (state_after rs).1 p) = true
     ↔ remaining_quantity (deref (state_after rs).1 p) = 0)
  ∧ (status (deref (state_after rs).1 p) = FILLED →
     remaining_quantity (deref (state_after rs).1 p) = 0).
Proof.
  intros Hrs Hp.
  destruct (reachable_fills rs Hrs) as [Hf _].
  pose proof (proj1 (heap_Forall_deref _ _) Hf p Hp) as [HF HS].
  pose proof (state_after_wf rs Hrs) as Hwf.
  destruct (state_after rs) as [m b]. simpl in *.
  pose proof (quantities_u64_deref m p (wf_quantities _ _ Hwf) Hp) as HQ.
  assert (Hr : remaining_quantity (deref m p)
               = quantity (deref m p) - filled_quantity (deref m p)).
  { unfold remaining_quantity. apply wrap64_small. unfold u64 in *. lia. }
  split; [done|]. split; [done|]. split.
  - unfold is_filled. rewrite Z.eqb_eq. lia.
  - intros Hs. specialize (HS Hs). lia.
Qed.

(** X2, witness: the order filled by two resting orders. *)
Lemma fills_never_exceed_quantity_witness :
  0 <= filled_quantity
         (deref (state_after [Add 1 100 BUY LIMIT 1000 5000;
                              Add 2 100 BUY LIMIT 2000 5000;
                              Add 3 100 SELL LIMIT 1500 5000]).1 1%nat)
    <= quantity
         (deref (state_after [Add 1 100 BUY LIMIT 1000 5000;
                              Add 2 100 BUY LIMIT 2000 5000;
                              Add 3 100 SELL LIMIT 1500 5000]).1 1%nat).
Proof.
  apply (fills_never_exceed_quantity
           [Add 1 100 BUY LIMIT 1000 5000; Add 2 100 BUY LIMIT 2000 5000;
            Add 3 100 SELL LIMIT 1500 5000] 1%nat).
  - repeat (apply Forall_cons; split; [apply u64_literal; reflexivity|]).
    apply Forall_nil_2.
  - vm_compute. lia.
Defined.

(** X3. Every fill has two sides: in every reachable state the sum of
    [filled_quantity] over all order records ever created is exactly twice
    the sum of the quantities of the trades emitted so far ([execute_trade]
    adds the trade quantity to both orders, and nothing else changes a
    [filled_quantity]; cancelling and modifying leave earlier fills in the
    records). *)
Theorem fills_are_twice_the_traded_quantity rs :
  Forall request_u64 rs →
  filled_total (state_after rs).1
  = 2 * traded_quantity (trades_out (state_after rs).2).
Proof. intros Hrs. by destruct (reachable_fills rs Hrs). Qed.

(** X3, witness: a partial fill, a cancel and a modify that trades. *)
Lemma fills_are_twice_the_traded_quantity_witness :
  filled_total
    (state_after [Add 1 100 SELL LIMIT 5000 5000; Add 2 100 BUY LIMIT 2000 5000;
                  Cancel 1; Add 3 100 SELL LIMIT 700 5100;
                  Modify 2 900 5100]).1
  = 2 * traded_quantity
          (trades_out
             (state_after [Add 1 100 SELL LIMIT 5000 5000;
                           Add 2 100 BUY LIMIT 2000 5000;
                           Cancel 1; Add 3 100 SELL LIMIT 700 5100;
                           Modify 2 900 5100]).2).
Proof.
  apply (fills_are_twice_the_traded_quantity
           [Add 1 100 SELL LIMIT 5000 5000; Add 2 100 BUY LIMIT 2000 5000;
            Cancel 1; Add 3 100 SELL LIMIT 700 5100; Modify 2 900 5100]).
  repeat (apply Forall_cons; split; [first [apply u64_literal; reflexivity | exact I]|]).
  apply Forall_nil_2.
Defined.

(** ** The ladders of the states a book reaches *)

Lemma same_objects_fields m m' p :
  same_objects m m' →
  order_id (deref m' p) = order_id (deref m p)
  ∧ side (deref m' p) = side (deref m p)
  ∧ quantity (deref m' p) = quantity (deref m p)
  ∧ price (deref m' p) = price (deref m p)
  ∧ order_type (deref m' p) = order_type (deref m p).
Proof.
  intros (_ & _ & Hi). specialize (Hi p).
  apply identity_fields in Hi as (? & ? & ? & ? & ? & ?). done.
Qed.

Lemma level_quantity_ext m m' l :
  (∀ p, p ∈ l → quantity (deref m' p) = quantity (deref m p)) →
  level_quantity m' l = level_quantity m l.
Proof.
  induction l as [|x l IH]; simpl; intros H; [done|].
  rewrite H by left. rewrite IH; [done|]. intros p Hp. apply H. by right.
Qed.

Lemma level_quantity_app m l1 l2 :
  level_quantity m (l1 ++ l2) = level_quantity m l1 + level_quantity m l2.
Proof.
  unfold level_quantity. induction l1 as [|x l1 IH]; simpl; [done|].
  rewrite IH. lia.
Qed.

Lemma total_ok_ext m m' lvl :
  (∀ p, p ∈ PriceLevel.orders_ lvl →
        quantity (deref m' p) = quantity (deref m p)) →
  total_ok m lvl → total_ok m' lvl.
Proof. unfold total_ok. intros H ->. by rewrite (level_quantity_ext m m'). Qed.

Lemma total_ok_same m m' lvl :
  same_objects m m' → total_ok m lvl → total_ok m' lvl.
Proof.
  intros Hobj. apply total_ok_ext. intros p _.
  by destruct (same_objects_fields m m' p Hobj) as (_ & _ & ? & _ & _).
Qed.

Lemma total_ok_new m : total_ok m PriceLevel.new.
Proof. done. Qed.

Lemma total_ok_add_order m lvl p :
  total_ok m lvl → total_ok m (PriceLevel.add_order m lvl p).
Proof.
  unfold total_ok, PriceLevel.add_order. simpl. intros ->.
  rewrite level_quantity_app. simpl. rewrite Z.add_0_r.
  apply wrap64_add_l.
Qed.

Lemma remove_scan_total m id l pre total :
  total = wrap64 (pre + level_quantity m l) →
  (PriceLevel.remove_scan m id l total).2
  = wrap64 (pre + level_quantity m (PriceLevel.remove_scan m id l total).1).
Proof.
  revert pre. induction l as [|p l IH]; intros pre Ht; simpl; [done|].
  destruct (order_id (deref m p) =? id); simpl.
  - rewrite Ht. simpl. rewrite wrap64_sub_l. f_equal. lia.
  - specialize (IH (pre + quantity (deref m p))).
    destruct (PriceLevel.remove_scan m id l total) as [r t'] eqn:E. simpl in *.
    rewrite IH; [f_equal; lia|]. rewrite Ht. f_equal. lia.
Qed.

Lemma total_ok_remove_order m lvl id :
  total_ok m lvl → total_ok m (PriceLevel.remove_order m lvl id).
Proof.
  unfold total_ok, PriceLevel.remove_order. intros Ht.
  pose proof (remove_scan_total m id (PriceLevel.orders_ lvl) 0
                (PriceLevel.total_quantity_ lvl)) as H.
  destruct (PriceLevel.remove_scan _ _ _ _) as [l t']. simpl in *.
  apply H. exact Ht.
Qed.

Lemma execute_trade_same_objects m b order pm q :
  same_objects m (execute_trade m b order pm q).1.
Proof.
  repeat split.
  - apply execute_trade_length.
  - intros p. by apply execute_trade_proj.
Qed.

Lemma fill_turn_total_ok m b order pm lvl m1 b1 lvl1 :
  total_ok m lvl → fill_turn m b order pm lvl = (m1, b1, lvl1) →
  total_ok m1 lvl1.
Proof.
  intros Hl Ht. unfold fill_turn in Ht.
  pose proof (execute_trade_same_objects m b order pm
                (Z.min (remaining_quantity (deref m order))
                       (remaining_quantity (deref m pm)))) as Hme.
  destruct (execute_trade _ _ _ _ _) as [me be]. simpl in Hme.
  destruct (is_filled (deref me pm)); simplify_eq.
  - eapply total_ok_same; [by apply same_objects_store|].
    apply total_ok_remove_order. by eapply total_ok_same.
  - by eapply total_ok_same.
Qed.

Lemma match_level_total_ok fuel m b order lvl m' b' lvl' :
  total_ok m lvl → match_level fuel m b order lvl = Some (m', b', lvl') →
  total_ok m' lvl'.
Proof.
  apply (match_level_inv (λ m _ lvl, total_ok m lvl) order).
  intros m0 b0 lvl0 pm m1 b1 lvl1 H _ Ht. by eapply fill_turn_total_ok.
Qed.

Lemma try_match_order_totals m b order opp matched m' b' opp' :
  (∀ k lvl, opp !! k = Some lvl → total_ok m lvl) →
  try_match_order m b order opp = Some (matched, m', b', opp') →
  ∀ k lvl, opp' !! k = Some lvl → total_ok m' lvl.
Proof.
  intros Hopp. unfold try_match_order.
  destruct (Ladder.is_empty opp); [intros H; simplify_eq; exact Hopp|].
  destruct (match_levels _ _ _ _ _ _) as [[[m1 b1] side1]|] eqn:Hm;
    simpl; [|done].
  intros H. simplify_eq. revert Hopp Hm.
  apply (match_levels_inv
           (λ m _ opp, ∀ k lvl, opp !! k = Some lvl → total_ok m lvl) order).
  - intros m0 b0 opp0 k lvl m1 b1 lvl1 HJ Hk Hml k' lvl' Hk'.
    apply lookup_insert_Some in Hk' as [[<- <-]|[_ Hk']].
    + eapply match_level_total_ok; [|exact Hml]. by eapply HJ.
    + apply match_level_frame in Hml as (Hobj & _ & _).
      eapply total_ok_same; [exact Hobj|]. by eapply HJ.
  - intros m0 b0 opp0 k HJ k' lvl' Hk'.
    apply lookup_delete_Some in Hk' as [_ Hk']. by eapply HJ.
Qed.

Lemma placed_ok_within m b m' b' :
  same_objects m m' →
  (∀ s, ladder_within (get_side b' s) (get_side b s)) →
  placed_ok m b → placed_ok m' b'.
Proof.
  intros Hobj Hw Hp s k lvl' p Hk Hin.
  destruct (Hw s k lvl' Hk) as (lvl & Hk0 & Hsub).
  destruct (same_objects_fields m m' p Hobj) as (_ & -> & _ & -> & ->).
  eapply Hp; [exact Hk0|]. eapply elem_of_sublist; [exact Hin | exact Hsub].
Qed.

Lemma get_set_side_ne b s s' l :
  s' ≠ s → get_side (set_side b s l) s' = get_side b s'.
Proof. by destruct s, s'. Qed.

Lemma placed_ok_add_to_book m b order :
  order_type (deref m order) ≠ MARKET →
  placed_ok m b → placed_ok m (add_to_book m b order).
Proof.
  intros Hty Hp s k lvl p. unfold add_to_book.
  set (so := side (deref m order)). set (px := price (deref m order)).
  destruct (decide (s = so)) as [->|Hne].
  - rewrite get_set_side. intros Hk.
    apply lookup_insert_Some in Hk as [[<- <-]|[_ Hk]]; [|by eapply Hp].
    unfold PriceLevel.add_order. simpl. intros Hin.
    apply elem_of_app in Hin as [Hin|Hin].
    + destruct (get_side b so !! px) as [lvl0|] eqn:Hk0; simpl in Hin.
      * by eapply Hp.
      * by apply elem_of_nil in Hin.
    + apply list_elem_of_singleton in Hin as ->. done.
  - rewrite get_set_side_ne by done. by apply Hp.
Qed.

Lemma totals_ok_add_to_book m b order :
  totals_ok m b → totals_ok m (add_to_book m b order).
Proof.
  intros Hp s k lvl. unfold add_to_book.
  set (so := side (deref m order)). set (px := price (deref m order)).
  destruct (decide (s = so)) as [->|Hne].
  - rewrite get_set_side. intros Hk.
    apply lookup_insert_Some in Hk as [[<- <-]|[_ Hk]]; [|by eapply Hp].
    apply total_ok_add_order.
    destruct (get_side b so !! px) as [lvl0|] eqn:Hk0; simpl.
    + by eapply Hp.
    + apply total_ok_new.
  - rewrite get_set_side_ne by done. by apply Hp.
Qed.

Lemma opposite_ne s : opposite s ≠ s.
Proof. by destruct s. Qed.

Lemma side_cases s s' : s' = s ∨ s' = opposite s.
Proof. destruct s, s'; auto. Qed.

(** [add_order] keeps the placement and the totals of both ladders. *)
Lemma add_order_ladders m b order ret m' b' :
  placed_ok m b → totals_ok m b →
  add_order m b order = Some (ret, m', b') →
  placed_ok m' b' ∧ totals_ok m' b'.
Proof.
  intros Hp Ht H.
  apply add_order_shape in H
    as (matched & m1 & b1 & side1 & st & rests & Hm & -> & -> & _ & Hrests).
  set (opp := opposite (side (deref m order))) in *.
  set (b0 := set_orders b _) in Hm.
  pose proof (try_match_order_frame _ _ _ _ _ _ _ _ Hm)
    as (Hobj & (_ & Hbid & Hask & _) & Hw).
  assert (Hside : ∀ s, get_side b1 s = get_side b s).
  { intros []; simpl; [by rewrite Hbid | by rewrite Hask]. }
  set (m' := set_order_status m1 order st).
  assert (Hobj' : same_objects m m').
  { eapply same_objects_trans; [exact Hobj|].
    apply same_objects_set_order_status. }
  set (b2 := set_side b1 opp side1).
  assert (Hp2 : placed_ok m' b2).
  { apply (placed_ok_within m b); [done| |done].
    intros s. subst b2. destruct (decide (s = opp)) as [->|Hne].
    - by rewrite get_set_side.
    - rewrite get_set_side_ne by done. rewrite Hside.
      apply ladder_within_refl. }
  assert (Ht2 : totals_ok m' b2).
  { intros s k lvl. subst b2. destruct (decide (s = opp)) as [->|Hne].
    - rewrite get_set_side. intros Hk.
      eapply total_ok_same; [apply same_objects_set_order_status|].
      eapply (try_match_order_totals m b0 order (get_side b opp));
        [|exact Hm|exact Hk].
      intros k0 lvl0. apply Ht.
    - rewrite get_set_side_ne by done. rewrite Hside. intros Hk.
      eapply total_ok_same; [exact Hobj'|]. by eapply Ht. }
  destruct rests; [|done].
  split; [|by apply totals_ok_add_to_book].
  apply placed_ok_add_to_book; [|done].
  destruct (same_objects_fields m m' order Hobj') as (_ & _ & _ & _ & ->).
  by destruct (decide (order_type (deref m order) = MARKET)).
Qed.

Lemma cancel_order_ladders m b id ret m' b' :
  placed_ok m b → totals_ok m b →
  cancel_order m b id = (ret, m', b') →
  placed_ok m' b' ∧ totals_ok m' b'.
Proof.
  intros Hp Ht. unfold cancel_order.
  destruct (orders_ b !! id) as [p|]; [|intros; by simplify_eq].
  destruct (decide _); [intros; by simplify_eq|].
  intros H. simplify_eq.
  pose proof (same_objects_set_order_status m p CANCELLED) as Hobj.
  set (s0 := side (deref m p)). set (px := price (deref m p)).
  assert (Hsame : ∀ bb, placed_ok m bb → totals_ok m bb →
            placed_ok (set_order_status m p CANCELLED) bb
            ∧ totals_ok (set_order_status m p CANCELLED) bb).
  { intros bb Hpb Htb. split.
    - apply (placed_ok_within m bb); [done| |done].
      intros s. apply ladder_within_refl.
    - intros s k lvl Hk. eapply total_ok_same; [exact Hobj|]. by eapply Htb. }
  destruct (_ <? _); [|by apply Hsame].
  destruct (get_side b s0 !! px) as [lvl|] eqn:Hk; [|by apply Hsame].
  destruct (PriceLevel.is_empty _); apply Hsame.
  - apply (placed_ok_within m b); [apply same_objects_refl| |done].
    intros s. destruct (decide (s = s0)) as [->|Hne].
    + rewrite get_set_side. apply ladder_within_delete.
    + rewrite get_set_side_ne by done. apply ladder_within_refl.
  - intros s k lvl0. destruct (decide (s = s0)) as [->|Hne].
    + rewrite get_set_side. intros Hk0.
      apply lookup_delete_Some in Hk0 as [_ Hk0]. by eapply Ht.
    + rewrite get_set_side_ne by done. apply Ht.
  - apply (placed_ok_within m b); [apply same_objects_refl| |done].
    intros s. destruct (decide (s = s0)) as [->|Hne].
    + rewrite get_set_side. eapply ladder_within_insert; [exact Hk|].
      apply remove_order_sublist.
    + rewrite get_set_side_ne by done. apply ladder_within_refl.
  - intros s k lvl0. destruct (decide (s = s0)) as [->|Hne].
    + rewrite get_set_side. intros Hk0.
      apply lookup_insert_Some in Hk0 as [[<- <-]|[_ Hk0]].
      * apply total_ok_remove_order. by eapply Ht.
      * by eapply Ht.
    + rewrite get_set_side_ne by done. apply Ht.
Qed.

(** A new object leaves what the ladders say about the old ones. *)
Lemma make_shared_ladders m b o :
  well_formed m b → placed_ok m b → totals_ok m b →
  placed_ok (make_shared m o).2 b ∧ totals_ok (make_shared m o).2 b.
Proof.
  intros Hwf Hp Ht.
  pose proof (well_formed_sides m b Hwf) as Hb.
  assert (Hold : ∀ s k lvl p, get_side b s !! k = Some lvl →
            p ∈ PriceLevel.orders_ lvl →
            deref (make_shared m o).2 p = deref m p).
  { intros s k lvl p Hk Hin. apply deref_make_shared_old.
    specialize (Hb s k lvl Hk). simpl in Hb. rewrite Forall_forall in Hb.
    by apply Hb. }
  split.
  - intros s k lvl p Hk Hin. rewrite (Hold s k lvl p Hk Hin). by eapply Hp.
  - intros s k lvl Hk. eapply (total_ok_ext m); [|by eapply Ht].
    intros p Hin. by rewrite (Hold s k lvl p Hk Hin).
Qed.

Lemma reachable_ladders rs :
  Forall request_u64 rs →
  placed_ok (state_after rs).1 (state_after rs).2
  ∧ totals_ok (state_after rs).1 (state_after rs).2.
Proof.
  apply (requests_invariant (λ m b, placed_ok m b ∧ totals_ok m b)).
  - split.
    + intros [] k lvl p Hk; simpl in Hk; by rewrite lookup_empty in Hk.
    + intros [] k lvl Hk; simpl in Hk; by rewrite lookup_empty in Hk.
  - intros m b now id symbol s type qty px stop_px ret m' b' Hwf (Hp & Ht) _ Ha.
    unfold add_new_order in Ha.
    destruct (make_shared_ladders m b
                (Order_new now id symbol s type qty px stop_px) Hwf Hp Ht)
      as [Hp1 Ht1].
    destruct (make_shared m _) as [p m1] eqn:E.
    assert (p = length (heap m)) as -> by (by inversion E).
    simpl in Hp1, Ht1. by eapply add_order_ladders.
  - intros m b id ret m' b' _ (Hp & Ht) Hc. by eapply cancel_order_ladders.
Qed.

Lemma cancel_order_index m b id ret m' b' :
  cancel_order m b id = (ret, m', b') → orders_ b' = orders_ b.
Proof.
  unfold cancel_order.
  destruct (orders_ b !! id) as [p|]; [|intros; by simplify_eq].
  destruct (decide _); [intros; by simplify_eq|].
  intros H. simplify_eq.
  assert (Hl : ∀ bb s l, orders_ (set_side bb s l) = orders_ bb)
    by (by intros bb [] l).
  destruct (_ <? _); [|done].
  destruct (get_side b _ !! _); [|done].
  destruct (PriceLevel.is_empty _); by rewrite Hl.
Qed.

Lemma reachable_index rs :
  Forall request_u64 rs → index_ok (state_after rs).1 (state_after rs).2.
Proof.
  apply (requests_invariant index_ok).
  - intros id p H. simpl in H. by rewrite lookup_empty in H.
  - intros m b now id symbol s type qty px stop_px ret m' b' Hwf Hix Hq Ha.
    unfold add_new_order in Ha. rewrite make_shared_spec in Ha.
    set (o := Order_new now id symbol s type qty px stop_px) in *.
    set (m1 := mkMem (heap m ++ [o]) (clock m)) in *.
    assert (Hlen1 : length (heap m1) = S (length (heap m)))
      by (subst m1; simpl; rewrite length_app; simpl; lia).
    assert (Hnew : deref m1 (length (heap m)) = o)
      by apply (deref_make_shared_new m o).
    destruct (add_order_wf m1 b (length (heap m)) ret m' b')
      as [Hobj _]; try done.
    { apply (make_shared_quantities m o); [apply Hwf | exact Hq]. }
    { lia. }
    { by apply well_formed_sides. }
    apply add_order_index in Ha as [Hix' _]. rewrite Hnew in Hix'.
    intros id' p Hp. rewrite Hix' in Hp.
    destruct (same_objects_fields m1 m' p Hobj) as (Hid & _).
    destruct Hobj as (Hlen & _ & _). rewrite Hlen, Hlen1, Hid.
    apply lookup_insert_Some in Hp as [[<- <-]|[_ Hp]].
    + split; [lia|]. by rewrite Hnew.
    + destruct (Hix _ _ Hp) as [Hlt Hidp]. split; [lia|].
      change (deref m1 p) with (deref (make_shared m o).2 p).
      by rewrite deref_make_shared_old.
  - intros m b id ret m' b' Hwf Hix Hc.
    destruct (cancel_order_wf _ _ _ _ _ _ Hwf Hc) as [Hobj _].
    apply cancel_order_index in Hc. intros id' p Hp. rewrite Hc in Hp.
    destruct (Hix _ _ Hp) as [Hlt Hidp].
    destruct (same_objects_fields m m' p Hobj) as (Hid & _).
    destruct Hobj as (Hlen & _ & _). rewrite Hlen, Hid. done.
Qed.

(** X4. In every state the book reaches, the total a price level reports is
    the sum of the [quantity] fields of the entries it holds, reduced to 64
    bits: [add_order] adds and [remove_order] subtracts the full quantity of
    the order, and no fill touches the total.  The level is judged empty on
    this number, and the snapshot reports it for the best level of each
    side. *)
Theorem level_total_is_the_sum_of_quantities rs s k lvl :
  Forall request_u64 rs →
  get_side (state_after rs).2 s !! k = Some lvl →
  PriceLevel.get_total_quantity lvl
    = wrap64 (level_quantity (state_after rs).1 (PriceLevel.orders_ lvl))
  ∧ (PriceLevel.is_empty lvl = true
     ↔ wrap64 (level_quantity (state_after rs).1 (PriceLevel.orders_ lvl)) = 0)
  ∧ (s = BUY → Ladder.rbegin (bids_ (state_after rs).2) = Some k →
     MarketDataSnapshot.best_bid_quantity
       (get_market_data (state_after rs).1 (state_after rs).2)
     = wrap64 (level_quantity (state_after rs).1 (PriceLevel.orders_ lvl)))
  ∧ (s = SELL → Ladder.begin (asks_ (state_after rs).2) = Some k →
     MarketDataSnapshot.best_ask_quantity
       (get_market_data (state_after rs).1 (state_after rs).2)
     = wrap64 (level_quantity (state_after rs).1 (PriceLevel.orders_ lvl))).
Proof.
  intros Hrs Hk. destruct (reachable_ladders rs Hrs) as [_ Ht].
  specialize (Ht s k lvl Hk). unfold total_ok in Ht.
  unfold PriceLevel.get_total_quantity, PriceLevel.is_empty.
  rewrite <- Ht. split; [done|]. split; [apply Z.eqb_eq|].
  unfold get_market_data. split.
  - intros -> Hb. simpl in Hk. rewrite Hb. simpl. by rewrite Hk.
  - intros -> Hb. simpl in Hk. rewrite Hb. simpl. by rewrite Hk.
Qed.

(** X4, witness: the level of a partly filled resting order. *)
Lemma level_total_is_the_sum_of_quantities_witness :
  PriceLevel.get_total_quantity (PriceLevel.mk [0%nat] 5000)
  = wrap64 (level_quantity
              (state_after [Add 1 100 SELL LIMIT 5000 5000;
                            Add 2 100 BUY LIMIT 2000 5000]).1
              (PriceLevel.orders_ (PriceLevel.mk [0%nat] 5000))).
Proof.
  refine (proj1 (level_total_is_the_sum_of_quantities
                   [Add 1 100 SELL LIMIT 5000 5000; Add 2 100 BUY LIMIT 2000 5000]
                   SELL 5000 (PriceLevel.mk [0%nat] 5000) _ _)).
  - repeat (apply Forall_cons; split; [apply u64_literal; reflexivity|]).
    apply Forall_nil_2.
  - vm_compute. reflexivity.
Defined.

(** X5. In every state the book reaches, an entry of a price level is an
    order of that ladder's side whose price is the key of the level, it is
    not a MARKET order, and its address is one of the store: [add_to_book]
    files an order under its own side and price, and only LIMIT and STOP
    orders come to rest. *)
Theorem resting_orders_lie_at_their_own_price rs s k lvl p :
  Forall request_u64 rs →
  get_side (state_after rs).2 s !! k = Some lvl →
  p ∈ PriceLevel.orders_ lvl →
  side (deref (state_after rs).1 p) = s
  ∧ price (deref (state_after rs).1 p) = k
  ∧ order_type (deref (state_after rs).1 p) ≠ MARKET
  ∧ (p < length (heap (state_after rs).1))%nat.
Proof.
  intros Hrs Hk Hin. destruct (reachable_ladders rs Hrs) as [Hp _].
  destruct (Hp s k lvl p Hk Hin) as (? & ? & ?).
  repeat split; try done.
  pose proof (well_formed_sides _ _ (state_after_wf rs Hrs) s k lvl Hk) as Hb.
  simpl in Hb. rewrite Forall_forall in Hb. by apply Hb.
Qed.

(** X5, witness: the remainder of a BUY order that swept one ask level. *)
Lemma resting_orders_lie_at_their_own_price_witness :
  side (deref (state_after [Add 1 100 SELL LIMIT 500 5000;
                            Add 2 100 BUY LIMIT 2000 5100]).1 1%nat) = BUY.
Proof.
  apply (resting_orders_lie_at_their_own_price
           [Add 1 100 SELL LIMIT 500 5000; Add 2 100 BUY LIMIT 2000 5100]
           BUY 5100 (PriceLevel.mk [1%nat] 2000) 1%nat).
  - repeat (apply Forall_cons; split; [apply u64_literal; reflexivity|]).
    apply Forall_nil_2.
  - vm_compute. reflexivity.
  - simpl. apply list_elem_of_singleton. reflexivity.
Defined.

(** X6. In every state the book reaches, the index [orders_] maps an id to
    the address of a stored order that carries this id. *)
Theorem index_entries_carry_their_id rs id p :
  Forall request_u64 rs →
  orders_ (state_after rs).2 !! id = Some p →
  (p < length (heap (state_after rs).1))%nat
  ∧ order_id (deref (state_after rs).1 p) = id
  ∧ order_id <$> order_of (state_after rs).1 (state_after rs).2 id = Some id.
Proof.
  intros Hrs Hp. destruct (reachable_index rs Hrs id p Hp) as [Hlt Hid].
  split; [done|]. split; [done|]. unfold order_of.
  destruct (state_after rs) as [m b]. simpl in *.
  replace (orders_ b !! id) with (Some p). simpl. by rewrite Hid.
Qed.

(** X6, witness: the id of a modified order points at the replacement. *)
Lemma index_entries_carry_their_id_witness :
  order_id (deref (state_after [Add 7 100 BUY LIMIT 1000 5000;
                                Modify 7 400 0]).1 1%nat) = 7.
Proof.
  apply (index_entries_carry_their_id
           [Add 7 100 BUY LIMIT 1000 5000; Modify 7 400 0] 7 1%nat).
  - repeat (apply Forall_cons; split; [apply u64_literal; reflexivity|]).
    apply Forall_nil_2.
  - vm_compute. reflexivity.
Defined.



(** ** The level queries *)

Lemma keys_sorted (l : Ladder.t) : StronglySorted Z.lt (Ladder.keys l).
Proof.
  unfold Ladder.keys.
  assert (Hs : StronglySorted Z.le (merge_sort Z.le (elements (dom l))))
    by (apply StronglySorted_merge_sort; apply _).
  assert (Hn : NoDup (merge_sort Z.le (elements (dom l))))
    by (rewrite merge_sort_Permutation; apply NoDup_elements).
  revert Hs Hn. generalize (merge_sort Z.le (elements (dom l))).
  induction 1 as [|a ks Hs IH Hall]; intros Hn; [constructor|].
  apply NoDup_cons in Hn as [Hni Hn]. constructor; [by apply IH|].
  rewrite Forall_forall in Hall |- *. intros y Hy. specialize (Hall y Hy).
  assert (a ≠ y) by (intros ->; done). lia.
Qed.

Lemma StronglySorted_reverse {A} (R : relation A) l :
  StronglySorted R l → StronglySorted (flip R) (reverse l).
Proof.
  induction 1 as [|a l Hs IH Hall]; [constructor|].
  rewrite reverse_cons. apply StronglySorted_app_2; [|done|].
  - intros x1 x2 H1 H2. apply list_elem_of_singleton in H2 as ->.
    rewrite elem_of_reverse in H1. rewrite Forall_forall in Hall.
    unfold flip. by apply Hall.
  - repeat constructor.
Qed.

Lemma StronglySorted_take {A} (R : relation A) n l :
  StronglySorted R l → StronglySorted R (take n l).
Proof.
  intros H. rewrite <- (take_drop n l) in H.
  by apply StronglySorted_app_1_l in H.
Qed.

(** The pairs of [levels], key by key. *)
Lemma levels_keys (l : Ladder.t) :
  Ladder.levels l
  = (λ k, (k, from_option PriceLevel.get_total_quantity 0 (l !! k)))
      <$> Ladder.keys l.
Proof.
  unfold Ladder.levels.
  assert (H : Forall (λ k, is_Some (l !! k)) (Ladder.keys l)).
  { apply Forall_forall. intros k. by rewrite elem_of_keys. }
  revert H. generalize (Ladder.keys l).
  induction 1 as [|k ks [lvl Hk] _ IH]; [done|].
  csimpl. rewrite Hk. csimpl. by rewrite IH.
Qed.

Lemma fst_levels (l : Ladder.t) : (Ladder.levels l).*1 = Ladder.keys l.
Proof.
  rewrite levels_keys, <- list_fmap_compose.
  rewrite <- (list_fmap_id (Ladder.keys l)) at 2. by apply list_fmap_ext.
Qed.

Lemma levels_lookup (l : Ladder.t) :
  Forall (λ kq, PriceLevel.get_total_quantity <$> l !! kq.1 = Some kq.2)
    (Ladder.levels l).
Proof.
  rewrite levels_keys. apply Forall_fmap, Forall_forall. intros k Hk.
  apply elem_of_keys in Hk as [lvl Hk]. simpl. by rewrite Hk.
Qed.

Lemma keys_nil (l : Ladder.t) : Ladder.keys l = [] ↔ l = ∅.
Proof.
  rewrite <- map_size_empty_iff, <- length_keys. symmetry.
  apply length_zero_iff_nil.
Qed.

(** X8. [get_ask_levels(depth)] lists the first [depth] levels of the ask
    ladder (all of them when there are fewer) in strictly ascending price
    order, each with the level's total, and its first entry is the best ask
    of the snapshot. *)
Theorem ask_levels_are_listed_best_first m b depth (d : positive) :
  (get_ask_levels b depth).*1 = take (Z.to_nat depth) (Ladder.keys (asks_ b))
  ∧ StronglySorted Z.lt (get_ask_levels b depth).*1
  ∧ length (get_ask_levels b depth)
    = Nat.min (Z.to_nat depth) (size (asks_ b))
  ∧ Forall (λ kq, PriceLevel.get_total_quantity <$> asks_ b !! kq.1
                  = Some kq.2)
      (get_ask_levels b depth)
  ∧ head (get_ask_levels b (Z.pos d))
    = (if Ladder.is_empty (asks_ b) then None
       else Some (MarketDataSnapshot.best_ask_price (get_market_data m b),
                  MarketDataSnapshot.best_ask_quantity (get_market_data m b))).
Proof.
  unfold get_ask_levels.
  assert (H1 : (take (Z.to_nat depth) (Ladder.levels (asks_ b))).*1
               = take (Z.to_nat depth) (Ladder.keys (asks_ b)))
    by (by rewrite fmap_take, fst_levels).
  split; [done|]. split; [rewrite H1; apply StronglySorted_take, keys_sorted|].
  split.
  { rewrite length_take, <- (length_fmap fst), fst_levels, length_keys. done. }
  split; [apply Forall_take, levels_lookup|].
  unfold get_market_data, Ladder.is_empty, Ladder.begin. simpl.
  rewrite levels_keys.
  destruct (Ladder.keys (asks_ b)) as [|k ks] eqn:Hks.
  - apply keys_nil in Hks. rewrite bool_decide_eq_true_2 by done.
    simpl. by destruct (Z.to_nat (Z.pos d)).
  - rewrite bool_decide_eq_false_2
      by (intros He; apply keys_nil in He; by rewrite He in Hks).
    destruct (Z.to_nat (Z.pos d)) as [|n] eqn:Hd; [lia|]. done.
Qed.

(** X9. [get_bid_levels(depth)] lists the first [depth] levels of the bid
    ladder from the highest price down, in strictly descending price order,
    each with the level's total, and its first entry is the best bid of the
    snapshot. *)
Theorem bid_levels_are_listed_best_first m b depth (d : positive) :
  (get_bid_levels b depth).*1
    = take (Z.to_nat depth) (reverse (Ladder.keys (bids_ b)))
  ∧ StronglySorted (λ x y, y < x) (get_bid_levels b depth).*1
  ∧ length (get_bid_levels b depth)
    = Nat.min (Z.to_nat depth) (size (bids_ b))
  ∧ Forall (λ kq, PriceLevel.get_total_quantity <$> bids_ b !! kq.1
                  = Some kq.2)
      (get_bid_levels b depth)
  ∧ head (get_bid_levels b (Z.pos d))
    = (if Ladder.is_empty (bids_ b) then None
       else Some (MarketDataSnapshot.best_bid_price (get_market_data m b),
                  MarketDataSnapshot.best_bid_quantity (get_market_data m b))).
Proof.
  unfold get_bid_levels.
  assert (H1 : (take (Z.to_nat depth) (reverse (Ladder.levels (bids_ b)))).*1
               = take (Z.to_nat depth) (reverse (Ladder.keys (bids_ b))))
    by (by rewrite fmap_take, fmap_reverse, fst_levels).
  split; [done|]. split.
  { rewrite H1. apply StronglySorted_take.
    apply (StronglySorted_reverse Z.lt), keys_sorted. }
  split.
  { rewrite length_take, length_reverse, <- (length_fmap fst), fst_levels,
      length_keys. done. }
  split; [apply Forall_take, Forall_reverse, levels_lookup|].
  unfold get_market_data, Ladder.is_empty, Ladder.rbegin. simpl.
  rewrite levels_keys.
  destruct (Z.to_nat (Z.pos d)) as [|n] eqn:Hd; [lia|].
  assert (Hh : ∀ {A} (l : list A), head (take (S n) l) = head l)
    by (by intros A []).
  rewrite Hh, head_reverse, fmap_last.
  destruct (last (Ladder.keys (bids_ b))) as [k|] eqn:Hl.
  - rewrite bool_decide_eq_false_2; [done|].
    intros He. apply keys_nil in He. by rewrite He in Hl.
  - apply last_None in Hl. apply keys_nil in Hl.
    by rewrite bool_decide_eq_true_2.
Qed.

(** ** Price levels *)

Lemma is_live_false s : is_live s = false ↔ s = FILLED ∨ s = CANCELLED.
Proof. destruct s; simpl; split; intros H; try done; try tauto; by destruct H. Qed.

(** X10. [get_best_order] walks the level from its oldest entry and
    returns the first one whose status is neither FILLED nor CANCELLED: it
    returns nothing exactly when every entry is FILLED or CANCELLED, and it
    returns [p] exactly when [p] is an entry with another status all of
    whose predecessors in the level are FILLED or CANCELLED. *)
Theorem get_best_order_skips_dead_entries m lvl :
  (PriceLevel.get_best_order m lvl = None
   ↔ Forall (λ q, status (deref m q) = FILLED ∨ status (deref m q) = CANCELLED)
       (PriceLevel.orders_ lvl))
  ∧ ∀ p, PriceLevel.get_best_order m lvl = Some p
         ↔ ∃ older newer,
             PriceLevel.orders_ lvl = older ++ p :: newer
             ∧ Forall (λ q, status (deref m q) = FILLED
                            ∨ status (deref m q) = CANCELLED) older
             ∧ status (deref m p) ≠ FILLED
             ∧ status (deref m p) ≠ CANCELLED.
Proof.
  unfold PriceLevel.get_best_order.
  generalize (PriceLevel.orders_ lvl). intros l. split.
  - induction l as [|x l IH]; simpl; [split; [constructor | done]|].
    destruct (is_live (status (deref m x))) eqn:Hx.
    + split; [done|]. intros H. apply Forall_cons in H as [H _].
      apply is_live_false in H. congruence.
    + rewrite Forall_cons, IH. apply is_live_false in Hx. tauto.
  - intros p. induction l as [|x l IH]; simpl.
    + split; [done|]. intros (older & newer & H & _). by destruct older.
    + destruct (is_live (status (deref m x))) eqn:Hx.
      * split.
        -- intros H. simplify_eq. exists [], l. split; [done|].
           split; [constructor|]. split; intros Hs; rewrite Hs in Hx; done.
        -- intros (older & newer & H & Hold & Hp1 & Hp2).
           destruct older as [|y older]; simpl in H; simplify_eq; [done|].
           apply Forall_cons in Hold as [Hy _]. apply is_live_false in Hy.
           congruence.
      * rewrite IH. apply is_live_false in Hx. split.
        -- intros (older & newer & -> & Hold & Hp).
           exists (x :: older), newer. split; [done|].
           split; [by apply Forall_cons | done].
        -- intros (older & newer & H & Hold & Hp1 & Hp2).
           destruct older as [|y older]; simpl in H; simplify_eq.
           { destruct Hx; done. }
           apply Forall_cons in Hold as [_ Hold]. by exists older, newer.
Qed.

(** X11. [remove_order] erases by id: on a level none of whose entries
    carries the id it changes nothing (neither the entries nor the total),
    and it undoes an [add_order] of an order with this id, giving back
    the level as it was. *)
Theorem remove_order_of_an_absent_id m lvl id p :
  Forall (λ q, order_id (deref m q) ≠ id) (PriceLevel.orders_ lvl) →
  u64 (PriceLevel.total_quantity_ lvl) →
  order_id (deref m p) = id →
  PriceLevel.remove_order m lvl id = lvl
  ∧ PriceLevel.remove_order m (PriceLevel.add_order m lvl p) id = lvl
  ∧ PriceLevel.get_order_count (PriceLevel.add_order m lvl p)
    = S (PriceLevel.get_order_count lvl).
Proof.
  intros Habs Hu Hid. destruct lvl as [l total]. simpl in *.
  unfold PriceLevel.remove_order, PriceLevel.add_order,
    PriceLevel.get_order_count. simpl.
  split; [by rewrite remove_scan_absent|]. split.
  - rewrite remove_scan_app_absent by done. simpl.
    apply Z.eqb_eq in Hid. rewrite Hid. simpl. rewrite app_nil_r.
    f_equal. rewrite wrap64_sub_l.
    replace (total + quantity (deref m p) - quantity (deref m p)) with total
      by lia.
    by apply wrap64_small.
  - rewrite length_app. simpl. lia.
Qed.

(** X11, witness: a second order joins a level and leaves it again. *)
Lemma remove_order_of_an_absent_id_witness :
  PriceLevel.remove_order
    (state_after [Add 1 100 BUY LIMIT 1000 5000;
                  Add 2 100 BUY LIMIT 2000 5000]).1
    (PriceLevel.add_order
       (state_after [Add 1 100 BUY LIMIT 1000 5000;
                     Add 2 100 BUY LIMIT 2000 5000]).1
       (PriceLevel.mk [0%nat] 1000) 1%nat) 2
  = PriceLevel.mk [0%nat] 1000.
Proof.
  refine (proj1 (proj2 (remove_order_of_an_absent_id
            (state_after [Add 1 100 BUY LIMIT 1000 5000;
                          Add 2 100 BUY LIMIT 2000 5000]).1
            (PriceLevel.mk [0%nat] 1000) 2 1%nat _ _ _))).
  - apply Forall_cons. split; [vm_compute; discriminate | apply Forall_nil_2].
  - apply u64_literal. reflexivity.
  - vm_compute. reflexivity.
Defined.

(** ** Orders that meet no acceptable price *)

Lemma is_empty_false_begin (l : Ladder.t) :
  Ladder.is_empty l = false →
  (∃ k, Ladder.begin l = Some k) ∧ (∃ k, Ladder.rbegin l = Some k).
Proof.
  unfold Ladder.is_empty, Ladder.begin, Ladder.rbegin. intros H.
  apply bool_decide_eq_false in H.
  assert (Hk : Ladder.keys l ≠ []) by (by rewrite keys_nil).
  split.
  - destruct (Ladder.keys l) as [|k ks]; [done|]. by exists k.
  - destruct (last (Ladder.keys l)) as [k|] eqn:E; [by exists k|].
    by apply last_None in E.
Qed.

Lemma levels_fuel_pos (l : Ladder.t) : ∃ n, levels_fuel l = S n.
Proof. unfold levels_fuel. simpl. by eexists. Qed.

(** The match of an order that finds the first price of its walk
    unacceptable ends at once. *)
Lemma try_match_order_unacceptable m b order opp :
  filled_quantity (deref m order) = 0 →
  (∀ k, is_Some (opp !! k) → price_acceptable (deref m order) k = false) →
  try_match_order m b order opp = Some (false, m, b, opp).
Proof.
  intros Hf Hun. unfold try_match_order.
  destruct (Ladder.is_empty opp) eqn:He; [done|].
  destruct (is_empty_false_begin opp He) as [[k1 Hk1] [k2 Hk2]].
  set (it := match side (deref m order) with
             | BUY => Ladder.begin opp | SELL => Ladder.rbegin opp end).
  assert (Hit : ∃ k, it = Some k ∧ is_Some (opp !! k)).
  { subst it. destruct (side (deref m order)).
    - exists k1. split; [done | by apply begin_Some].
    - exists k2. split; [done | by apply rbegin_Some]. }
  destruct Hit as (k & -> & [lvl Hk]).
  destruct (levels_fuel_pos opp) as [n ->]. simpl.
  destruct (0 <? remaining_quantity (deref m order)).
  - rewrite Hk. simpl. rewrite (Hun k) by (by exists lvl). simpl.
    by rewrite Hf.
  - simpl. by rewrite Hf.
Qed.

Lemma set_order_status_fresh m o st :
  set_order_status (make_shared m o).2 (length (heap m)) st
  = mkMem (heap m ++ [set_status o st]) (clock m).
Proof.
  unfold set_order_status. rewrite deref_make_shared_new.
  unfold store. simpl. f_equal.
  rewrite insert_app_r_alt by lia. by rewrite Nat.sub_diag.
Qed.

(** X12. An order whose price no level of the opposite ladder meets (a BUY
    below every ask, a SELL above every bid, or any order against an empty
    opposite ladder) makes no trade and leaves the opposite ladder and every
    stored order as they are; [add_order] returns true.  A MARKET order is
    REJECTED and does not rest; a LIMIT or STOP order keeps status NEW and
    is appended to the level at its price on its own side, which is created
    if absent, and the level's total grows by the order's quantity. *)
Theorem order_beyond_the_opposite_prices_rests_untraded
    m b now id symbol s type qty px stop_px :
  (∀ k, is_Some (get_side b (opposite s) !! k) →
        match s with BUY => px < k | SELL => k < px end) →
  ∃ m' b',
    add_new_order m b (Order_new now id symbol s type qty px stop_px)
      = Some (true, m', b')
    ∧ heap m'
      = heap m ++ [set_status (Order_new now id symbol s type qty px stop_px)
                     (if decide (type = MARKET) then REJECTED else NEW)]
    ∧ trades_out b' = trades_out b
    ∧ get_total_volume b' = get_total_volume b
    ∧ orders_ b' = <[id := length (heap m)]> (orders_ b)
    ∧ get_side b' (opposite s) = get_side b (opposite s)
    ∧ get_side b' s
      = (if decide (type = MARKET) then get_side b s
         else
           let lvl := default PriceLevel.new (get_side b s !! px) in
           <[px := PriceLevel.mk (PriceLevel.orders_ lvl ++ [length (heap m)])
                     (wrap64 (PriceLevel.total_quantity_ lvl + qty))]>
             (get_side b s)).
Proof.
  intros Hun.
  set (o := Order_new now id symbol s type qty px stop_px).
  set (p := length (heap m)).
  unfold add_new_order. rewrite make_shared_spec. fold p.
  pose proof (deref_make_shared_new m o) as Hnew.
  pose proof (set_order_status_fresh m o) as Hst.
  simpl in Hnew, Hst. fold p in Hnew, Hst.
  set (m1 := mkMem (heap m ++ [o]) (clock m)) in *.
  assert (Hm : ∀ bb, (∀ s', get_side bb s' = get_side b s') →
            try_match_order m1 bb p (get_side bb (opposite s))
            = Some (false, m1, bb, get_side bb (opposite s))).
  { intros bb Hbb.
    apply try_match_order_unacceptable; rewrite Hnew; [done|].
    intros k Hk. unfold price_acceptable. simpl. rewrite Hbb in Hk.
    specialize (Hun k Hk). destruct s; lia. }
  destruct type; unfold add_order; rewrite Hnew;
    cbn [order_type order_id o Order_new];
    unfold process_limit_order, process_market_order; rewrite Hnew;
    cbn [side o Order_new]; rewrite Hm by (by intros []); simpl;
    rewrite set_side_get_side, !Hst.
  all: eexists _, _; (split; [reflexivity|]); simpl;
    (split; [reflexivity|]).
  all: try (unfold add_to_book, PriceLevel.add_order;
            assert (Hd : deref (mkMem (heap m ++ [set_status o NEW]) (clock m)) p
                         = set_status o NEW)
              by (unfold deref; simpl; by rewrite list_lookup_total_middle);
            rewrite Hd; cbn [side price quantity set_status o Order_new]).
  all: repeat split; by destruct s.
Qed.

(** X12, witness: a BUY below the only ask. *)
Lemma order_beyond_the_opposite_prices_rests_untraded_witness :
  ∃ m' b',
    add_new_order (state_after [Add 1 100 SELL LIMIT 1000 5000]).1
      (state_after [Add 1 100 SELL LIMIT 1000 5000]).2
      (Order_new 0 2 100 BUY LIMIT 700 4900 0) = Some (true, m', b')
    ∧ trades_out b'
      = trades_out (state_after [Add 1 100 SELL LIMIT 1000 5000]).2.
Proof.
  destruct (order_beyond_the_opposite_prices_rests_untraded
              (state_after [Add 1 100 SELL LIMIT 1000 5000]).1
              (state_after [Add 1 100 SELL LIMIT 1000 5000]).2
              0 2 100 BUY LIMIT 700 4900 0)
    as (m' & b' & H & _ & Hlog & _).
  - assert (Hasks : get_side (state_after [Add 1 100 SELL LIMIT 1000 5000]).2
                      (opposite BUY)
                    = <[5000 := PriceLevel.mk [0%nat] 1000]> ∅)
      by (vm_compute; reflexivity).
    intros k Hk. rewrite Hasks in Hk.
    apply lookup_insert_is_Some in Hk as [<-|[_ Hk]]; [lia|].
    rewrite lookup_empty in Hk. by destruct Hk.
  - by exists m', b'.
Defined.

(** ** The first fill of a marketable order *)

Lemma match_level_log fuel m b order lvl m' b' lvl' :
  match_level fuel m b order lvl = Some (m', b', lvl') →
  ∃ ts, trades_out b' = trades_out b ++ ts.
Proof.
  intros H.
  eapply (match_level_inv
            (λ _ b1 _, ∃ ts, trades_out b1 = trades_out b ++ ts) order);
    [| |exact H].
  - intros m0 b0 lvl0 pm m1 b1 lvl1 [ts Hts] _ Ht.
    destruct (fill_turn_trade _ _ _ _ _ _ _ _ Ht) as (t & Hlog & _).
    exists (ts ++ [t]). by rewrite Hlog, Hts, app_assoc.
  - exists []. by rewrite app_nil_r.
Qed.

Lemma match_levels_log fuel m b order opp it m' b' opp' :
  match_levels fuel m b order opp it = Some (m', b', opp') →
  ∃ ts, trades_out b' = trades_out b ++ ts.
Proof.
  intros H.
  eapply (match_levels_inv
            (λ _ b1 _, ∃ ts, trades_out b1 = trades_out b ++ ts) order);
    [| | |exact H].
  - intros m0 b0 opp0 k lvl m1 b1 lvl1 [ts Hts] _ Hml.
    destruct (match_level_log _ _ _ _ _ _ _ _ Hml) as [ts' Hts'].
    exists (ts ++ ts'). by rewrite Hts', Hts, app_assoc.
  - done.
  - exists []. by rewrite app_nil_r.
Qed.

(** The first turn of the outer loop at an acceptable level. *)
Lemma match_levels_first fuel m b order opp k lvl m' b' opp' :
  0 < remaining_quantity (deref m order) →
  opp !! k = Some lvl →
  price_acceptable (deref m order) k = true →
  match_levels (S fuel) m b order opp (Some k) = Some (m', b', opp') →
  ∃ m1 b1 lvl1 ts,
    match_level (length (PriceLevel.orders_ lvl)) m b order lvl
      = Some (m1, b1, lvl1)
    ∧ trades_out b' = trades_out b1 ++ ts.
Proof.
  intros Hrem Hk Hacc H. simpl in H.
  apply Z.ltb_lt in Hrem. rewrite Hrem, Hk in H. simpl in H.
  rewrite Hacc in H. simpl in H.
  destruct (match_level (length (PriceLevel.orders_ lvl)) m b order lvl)
    as [[[m1 b1] lvl1]|] eqn:Hml; simpl in H; [|done].
  exists m1, b1, lvl1.
  assert (Hnil : ∃ ts, trades_out b1 = trades_out b1 ++ ts)
    by (exists []; by rewrite app_nil_r).
  destruct (PriceLevel.is_empty lvl1).
  - destruct (Ladder.is_empty _).
    + simplify_eq. destruct Hnil as [ts ?]. by exists ts.
    + destruct (match_levels_log _ _ _ _ _ _ _ _ _ H) as [ts ?]. by exists ts.
  - destruct (side (deref m1 order)).
    + destruct (match_levels_log _ _ _ _ _ _ _ _ _ H) as [ts ?]. by exists ts.
    + destruct (decide _).
      * simplify_eq. destruct Hnil as [ts ?]. by exists ts.
      * destruct (match_levels_log _ _ _ _ _ _ _ _ _ H) as [ts ?].
        by exists ts.
Qed.

(** The first turn of the inner loop. *)
Lemma match_level_first fuel m b order lvl pm m' b' lvl' :
  0 < remaining_quantity (deref m order) →
  PriceLevel.get_best_order m lvl = Some pm →
  match_level (S fuel) m b order lvl = Some (m', b', lvl') →
  ∃ m1 b1 lvl1 ts,
    fill_turn m b order pm lvl = (m1, b1, lvl1)
    ∧ trades_out b' = trades_out b1 ++ ts.
Proof.
  intros Hrem Hbest H. simpl in H.
  apply Z.ltb_lt in Hrem. rewrite Hrem, Hbest in H.
  destruct (fill_turn m b order pm lvl) as [[m1 b1] lvl1] eqn:Ht.
  exists m1, b1, lvl1.
  destruct (match_level_log _ _ _ _ _ _ _ _ H) as [ts ?]. by exists ts.
Qed.

Lemma get_best_order_ext m m' lvl :
  (∀ p, p ∈ PriceLevel.orders_ lvl → deref m' p = deref m p) →
  PriceLevel.get_best_order m' lvl = PriceLevel.get_best_order m lvl.
Proof.
  unfold PriceLevel.get_best_order.
  induction (PriceLevel.orders_ lvl) as [|x l IH]; intros H; simpl; [done|].
  rewrite (H x) by left. rewrite IH; [done|].
  intros p Hp. apply H. by right.
Qed.

(** X13. Price and time priority of the first fill.  When the best level of
    the opposite ladder (the lowest ask for a BUY, the highest bid for a
    SELL) has a price the incoming order accepts and [pm] is the oldest
    entry of that level that is neither FILLED nor CANCELLED, the first
    trade of the call is between the incoming order and [pm], for the
    smaller of the order's quantity and what [pm] has left. *)
Theorem first_fill_goes_to_the_oldest_order_at_the_best_price
    m b now id symbol s type qty px stop_px k lvl pm :
  well_formed m b → u64 qty → 0 < qty →
  match s with
  | BUY => Ladder.begin (asks_ b)
  | SELL => Ladder.rbegin (bids_ b)
  end = Some k →
  match s with BUY => k <= px | SELL => px <= k end →
  get_side b (opposite s) !! k = Some lvl →
  PriceLevel.get_best_order m lvl = Some pm →
  ∃ m' b' t ts,
    add_new_order m b (Order_new now id symbol s type qty px stop_px)
      = Some (true, m', b')
    ∧ new_trades b b' = t :: ts
    ∧ trade_between (Order_new now id symbol s type qty px stop_px)
        (deref m pm) t
    ∧ Trade.quantity t = Z.min qty (remaining_quantity (deref m pm)).
Proof.
  intros Hwf Hq Hpos Hbest Hacc Hk Hpm.
  set (o := Order_new now id symbol s type qty px stop_px).
  destruct (add_new_order_wf m b o Hwf Hq) as (m' & b' & H & _).
  exists m', b'.
  unfold add_new_order in H. rewrite make_shared_spec in H.
  set (p := length (heap m)) in *.
  set (m1 := mkMem (heap m ++ [o]) (clock m)) in *.
  assert (Hnew : deref m1 p = o) by apply (deref_make_shared_new m o).
  pose proof (well_formed_sides m b Hwf) as Hb.
  assert (Hin : pm ∈ PriceLevel.orders_ lvl)
    by (by apply get_best_order_Some in Hpm as [? _]).
  assert (Hold : ∀ q, q ∈ PriceLevel.orders_ lvl → deref m1 q = deref m q).
  { intros q Hq'. apply (deref_make_shared_old m o).
    specialize (Hb (opposite s) k lvl Hk). simpl in Hb.
    rewrite Forall_forall in Hb. by apply Hb. }
  assert (Hpm1 : PriceLevel.get_best_order m1 lvl = Some pm)
    by (by rewrite (get_best_order_ext m m1)).
  assert (Hrem : remaining_quantity (deref m1 p) = qty).
  { rewrite Hnew. unfold remaining_quantity. simpl. rewrite Z.sub_0_r.
    by apply wrap64_small. }
  pose proof H as Hshape.
  apply add_order_shape in Hshape
    as (matched & m2 & b2 & side2 & st & rests & Hm & _ & Hb' & _ & _).
  assert (Hl' : ∀ bb s0 l0, trades_out (set_side bb s0 l0) = trades_out bb)
    by (by intros bb [] l0).
  assert (Hout : trades_out b' = trades_out b2)
    by (rewrite Hb'; destruct rests; [unfold add_to_book|]; by rewrite ?Hl').
  clear Hb'.
  rewrite Hnew in Hm. cbn [side order_id o Order_new] in Hm.
  unfold try_match_order in Hm.
  destruct (Ladder.is_empty (get_side b (opposite s))) eqn:He.
  { apply bool_decide_eq_true in He. rewrite He in Hk.
    by rewrite lookup_empty in Hk. }
  rewrite Hnew in Hm. cbn [side o Order_new] in Hm.
  assert (Hit : match s with
                | BUY => Ladder.begin (get_side b (opposite s))
                | SELL => Ladder.rbegin (get_side b (opposite s))
                end = Some k) by (destruct s; exact Hbest).
  rewrite Hit in Hm.
  destruct (levels_fuel_pos (get_side b (opposite s))) as [n Hn].
  rewrite Hn in Hm.
  destruct (match_levels (S n) m1 _ p _ (Some k))
    as [[[m3 b3] side3]|] eqn:Hml; simpl in Hm; [|done].
  simplify_eq.
  apply match_levels_first with (lvl := lvl) in Hml
    as (m4 & b4 & lvl4 & ts4 & Hlevel & Hlog4); [|lia|done|].
  2:{ rewrite Hnew. unfold price_acceptable. simpl. destruct s; lia. }
  destruct (PriceLevel.orders_ lvl) as [|x l] eqn:Hl;
    [by apply elem_of_nil in Hin|].
  simpl in Hlevel. rewrite <- Hl in *.
  assert (Hlevel' : match_level (S (length l)) m1
                      (set_orders b (<[id := p]> (orders_ b))) p lvl
                    = Some (m4, b4, lvl4)) by exact Hlevel.
  apply match_level_first with (pm := pm) in Hlevel'
    as (m5 & b5 & lvl5 & ts5 & Hturn & Hlog5); [|lia|done].
  destruct (fill_turn_trade _ _ _ _ _ _ _ _ Hturn) as (t & Hlog & Htb & Htq).
  exists t, (ts5 ++ ts4).
  split; [done|]. split.
  - apply new_trades_app.
    rewrite Hout, Hlog4, Hlog5, Hlog. simpl. by rewrite <- !app_assoc.
  - rewrite Hnew, (Hold pm Hin) in Htb. split; [done|].
    rewrite Htq, Hrem. by rewrite (Hold pm Hin).
Qed.

(** X13, witness: a SELL meets two BUY orders that rest at one price. *)
Lemma first_fill_goes_to_the_oldest_order_at_the_best_price_witness :
  ∃ m' b' t ts,
    add_new_order
      (state_after [Add 1 100 BUY LIMIT 1000 5000;
                    Add 2 100 BUY LIMIT 2000 5000]).1
      (state_after [Add 1 100 BUY LIMIT 1000 5000;
                    Add 2 100 BUY LIMIT 2000 5000]).2
      (Order_new 0 3 100 SELL LIMIT 1500 5000 0) = Some (true, m', b')
    ∧ new_trades
        (state_after [Add 1 100 BUY LIMIT 1000 5000;
                      Add 2 100 BUY LIMIT 2000 5000]).2 b' = t :: ts
    ∧ trade_between (Order_new 0 3 100 SELL LIMIT 1500 5000 0)
        (deref (state_after [Add 1 100 BUY LIMIT 1000 5000;
                             Add 2 100 BUY LIMIT 2000 5000]).1 0%nat) t
    ∧ Trade.quantity t
      = Z.min 1500
          (remaining_quantity
             (deref (state_after [Add 1 100 BUY LIMIT 1000 5000;
                                  Add 2 100 BUY LIMIT 2000 5000]).1 0%nat)).
Proof.
  apply (first_fill_goes_to_the_oldest_order_at_the_best_price
           (state_after [Add 1 100 BUY LIMIT 1000 5000;
                         Add 2 100 BUY LIMIT 2000 5000]).1
           (state_after [Add 1 100 BUY LIMIT 1000 5000;
                         Add 2 100 BUY LIMIT 2000 5000]).2
           0 3 100 SELL LIMIT 1500 5000 0 5000
           (PriceLevel.mk [0%nat; 1%nat] 3000) 0%nat).
  - apply state_after_wf.
    repeat (apply Forall_cons; split; [apply u64_literal; reflexivity|]).
    apply Forall_nil_2.
  - apply u64_literal. reflexivity.
  - lia.
  - vm_compute. reflexivity.
  - simpl. lia.
  - vm_compute. reflexivity.
  - vm_compute. reflexivity.
Defined.

(** ** Trades stay within the limits of both orders *)

(** The rule of the outer loop, with the price test the loop made before it
    entered the level. *)
Lemma match_levels_inv_priced (J : Mem → t → Ladder.t → Prop) (order : ptr) :
  (∀ m b opp k lvl m1 b1 lvl1,
      J m b opp → opp !! k = Some lvl →
      price_acceptable (deref m order) k = true →
      match_level (length (PriceLevel.orders_ lvl)) m b order lvl
        = Some (m1, b1, lvl1) →
      J m1 b1 (<[k := lvl1]> opp)) →
  (∀ m b opp k, J m b opp → J m b (delete k opp)) →
  ∀ fuel m b opp it m' b' opp',
    J m b opp → match_levels fuel m b order opp it = Some (m', b', opp') →
    J m' b' opp'.
Proof.
  intros Hlevel Herase fuel.
  induction fuel as [|fuel IH]; intros m b opp it m' b' opp' HJ H; simpl in H.
  - destruct it; [|by simplify_eq].
    destruct (0 <? remaining_quantity (deref m order)); by simplify_eq.
  - destruct it as [k|]; [|by simplify_eq].
    destruct (0 <? remaining_quantity (deref m order)); [|by simplify_eq].
    destruct (opp !! k) as [lvl|] eqn:Hk; simpl in H; [|done].
    destruct (price_acceptable (deref m order) k) eqn:Hacc; simpl in H;
      [|by simplify_eq].
    destruct (match_level (length (PriceLevel.orders_ lvl)) m b order lvl)
      as [[[m1 b1] lvl1]|] eqn:Hml; simpl in H; [|done].
    pose proof (Hlevel _ _ _ _ _ _ _ _ HJ Hk Hacc Hml) as HJ1.
    destruct (PriceLevel.is_empty lvl1).
    + destruct (Ladder.is_empty _).
      * simplify_eq. by apply Herase.
      * eapply IH; [|exact H]. by apply Herase.
    + destruct (side (deref m1 order)).
      * eapply IH; [|exact H]. done.
      * destruct (decide _); [by simplify_eq|]. eapply IH; [|exact H]. done.
Qed.

Lemma price_acceptable_identity o o' k :
  identity o = identity o' → price_acceptable o k = price_acceptable o' k.
Proof.
  intros H. apply identity_fields in H as (_ & _ & Hs & _ & _ & Hp).
  unfold price_acceptable. by rewrite Hs, Hp.
Qed.

(** Every trade of [try_match_order] is with an entry of a level of the
    opposite ladder whose key the incoming order accepts. *)
Lemma try_match_order_prices m b order opp matched m' b' opp' :
  try_match_order m b order opp = Some (matched, m', b', opp') →
  ∃ ts, trades_out b' = trades_out b ++ ts
        ∧ Forall (λ t, ∃ k lvl pm,
                    opp !! k = Some lvl ∧ pm ∈ PriceLevel.orders_ lvl
                    ∧ price_acceptable (deref m order) k = true
                    ∧ trade_between (deref m order) (deref m pm) t) ts.
Proof.
  unfold try_match_order.
  destruct (Ladder.is_empty opp).
  { intros H. simplify_eq. exists []. by rewrite app_nil_r. }
  destruct (match_levels _ _ _ _ _ _) as [[[m1 b1] side1]|] eqn:Hm;
    simpl; [|done].
  intros H. simplify_eq.
  set (Q := λ t, ∃ k lvl pm,
              opp !! k = Some lvl ∧ pm ∈ PriceLevel.orders_ lvl
              ∧ price_acceptable (deref m order) k = true
              ∧ trade_between (deref m order) (deref m pm) t).
  assert (Hall : same_objects m m' ∧ ladder_within opp' opp
                 ∧ ∃ ts, trades_out b' = trades_out b ++ ts ∧ Forall Q ts);
    [|apply Hall].
  eapply (match_levels_inv_priced
            (λ m1 b1 opp1, same_objects m m1 ∧ ladder_within opp1 opp
               ∧ ∃ ts, trades_out b1 = trades_out b ++ ts ∧ Forall Q ts)
            order); [| | |exact Hm].
  - intros m1 b1 opp1 k lvl m2 b2 lvl2 (Ho1 & Hw1 & HJ1) Hk Hacc Hml.
    destruct (Hw1 _ _ Hk) as (lvl0 & Hk0 & Hs0).
    pose proof (match_level_frame _ _ _ _ _ _ _ _ Hml) as (Ho2 & _ & Hs2).
    split; [by eapply same_objects_trans|]. split.
    { eapply ladder_within_trans; [|exact Hw1]. by eapply ladder_within_insert. }
    assert (Hacc0 : price_acceptable (deref m order) k = true).
    { rewrite <- Hacc. apply price_acceptable_identity.
      destruct Ho1 as (_ & _ & Hi). by rewrite Hi. }
    assert (Hlvl : same_objects m m2
                   ∧ PriceLevel.orders_ lvl2 `sublist_of` PriceLevel.orders_ lvl0
                   ∧ ∃ ts, trades_out b2 = trades_out b ++ ts ∧ Forall Q ts);
      [|apply Hlvl].
    eapply (match_level_inv
              (λ m3 b3 lvl3, same_objects m m3
                 ∧ PriceLevel.orders_ lvl3 `sublist_of` PriceLevel.orders_ lvl0
                 ∧ ∃ ts, trades_out b3 = trades_out b ++ ts ∧ Forall Q ts)
              order); [|split; [exact Ho1|split; [exact Hs0|exact HJ1]]|exact Hml].
    intros m3 b3 lvl3 pm m4 b4 lvl4 (Ho3 & Hs3 & ts & Hlog & HQ) Hbest Ht.
    apply get_best_order_Some in Hbest as [Hin _].
    pose proof (fill_turn_frame _ _ _ _ _ _ _ _ Ht) as (Ho4 & _ & Hs4).
    split; [by eapply same_objects_trans|]. split; [by etrans|].
    destruct (fill_turn_trade _ _ _ _ _ _ _ _ Ht) as (t & Hlog4 & Htb & _).
    exists (ts ++ [t]). split; [by rewrite Hlog4, Hlog, app_assoc|].
    apply Forall_app. split; [done|].
    apply Forall_cons. split; [|apply Forall_nil_2].
    exists k, lvl0, pm. split; [done|].
    split; [eapply elem_of_sublist; [exact Hin | exact Hs3]|].
    split; [done|].
    destruct Ho3 as (_ & _ & Hi).
    eapply trade_between_identity; [apply Hi | apply Hi | exact Htb].
  - intros m1 b1 opp1 k (Ho1 & Hw1 & HJ1). split; [done|]. split; [|done].
    eapply ladder_within_trans; [|exact Hw1]. apply ladder_within_delete.
  - split; [apply same_objects_refl|]. split; [apply ladder_within_refl|].
    exists []. by rewrite app_nil_r.
Qed.

(** X14. No trade goes beyond the limit of either order.  When an order is
    added to a state the book has reached, every trade of the call is with
    an order [pm] of the opposite ladder whose price the incoming order
    accepts: a BUY trades at the price of the resting SELL, which is not
    above the BUY's price; a SELL trades at its own price, which is not
    above the price of the resting BUY.  (The test is made for MARKET
    orders as well.) *)
Theorem trades_stay_within_both_limits
    rs now id symbol s type qty px stop_px ret m' b' :
  Forall request_u64 rs →
  add_new_order (state_after rs).1 (state_after rs).2
    (Order_new now id symbol s type qty px stop_px) = Some (ret, m', b') →
  Forall (λ t, ∃ pm,
            pm ∈ resting_in (get_side (state_after rs).2 (opposite s))
            ∧ side (deref (state_after rs).1 pm) = opposite s
            ∧ match s with
              | BUY =>
                  Trade.buy_order_id t = id
                  ∧ Trade.sell_order_id t
                    = order_id (deref (state_after rs).1 pm)
                  ∧ Trade.price t = price (deref (state_after rs).1 pm)
                  ∧ price (deref (state_after rs).1 pm) <= px
              | SELL =>
                  Trade.sell_order_id t = id
                  ∧ Trade.buy_order_id t
                    = order_id (deref (state_after rs).1 pm)
                  ∧ Trade.price t = px
                  ∧ px <= price (deref (state_after rs).1 pm)
              end)
    (new_trades (state_after rs).2 b').
Proof.
  intros Hrs H.
  destruct (reachable_ladders rs Hrs) as [Hplaced _].
  pose proof (state_after_wf rs Hrs) as Hwf.
  destruct (state_after rs) as [m b]. simpl in *.
  set (o := Order_new now id symbol s type qty px stop_px) in *.
  unfold add_new_order in H. rewrite make_shared_spec in H.
  set (p := length (heap m)) in *.
  set (m1 := mkMem (heap m ++ [o]) (clock m)) in *.
  assert (Hnew : deref m1 p = o) by apply (deref_make_shared_new m o).
  pose proof (well_formed_sides m b Hwf) as Hb.
  apply add_order_shape in H
    as (matched & m2 & b2 & side2 & st & rests & Hm & _ & Hb' & _ & _).
  assert (Hl' : ∀ bb s0 l0, trades_out (set_side bb s0 l0) = trades_out bb)
    by (by intros bb [] l0).
  assert (Hout : trades_out b' = trades_out b2)
    by (rewrite Hb'; destruct rests; [unfold add_to_book|]; by rewrite ?Hl').
  clear Hb'.
  apply try_match_order_prices in Hm as (ts & Hlog & Hall).
  rewrite Hnew in Hall. cbn [side o Order_new] in Hall.
  simpl in Hlog. rewrite <- Hout in Hlog.
  rewrite (new_trades_app _ _ _ Hlog).
  eapply Forall_impl; [exact Hall|]. simpl.
  intros t (k & lvl & pm & Hk & Hin & Hacc & Htb).
  exists pm.
  assert (Hlt : (pm < length (heap m))%nat).
  { specialize (Hb (opposite s) k lvl Hk). simpl in Hb.
    rewrite Forall_forall in Hb. by apply Hb. }
  pose proof (deref_make_shared_old m o pm Hlt) as Hold. simpl in Hold.
  fold m1 in Hold. rewrite Hold in Htb.
  destruct (Hplaced (opposite s) k lvl pm Hk Hin) as (Hside & Hprice & _).
  split; [apply elem_of_resting_in; by exists k, lvl|].
  split; [done|].
  unfold trade_between, price_acceptable in *. simpl in *.
  rewrite Hprice. destruct s; destruct Htb as (? & ? & ?);
    repeat split; try done; lia.
Qed.

(** X14, witness: a SELL at 4900 trades with a resting BUY at 5000. *)
Lemma trades_stay_within_both_limits_witness :
  Forall (λ t, ∃ pm,
            pm ∈ resting_in
                   (get_side (state_after [Add 1 100 BUY LIMIT 1000 5000]).2
                      (opposite SELL))
            ∧ side (deref (state_after [Add 1 100 BUY LIMIT 1000 5000]).1 pm)
              = opposite SELL
            ∧ Trade.sell_order_id t = 2
              ∧ Trade.buy_order_id t
                = order_id
                    (deref (state_after [Add 1 100 BUY LIMIT 1000 5000]).1 pm)
              ∧ Trade.price t = 4900
              ∧ 4900 <= price
                          (deref (state_after [Add 1 100 BUY LIMIT 1000 5000]).1
                             pm))
    (new_trades (state_after [Add 1 100 BUY LIMIT 1000 5000]).2
       (state_after [Add 1 100 BUY LIMIT 1000 5000;
                     Add 2 100 SELL LIMIT 1000 4900]).2).
Proof.
  apply (trades_stay_within_both_limits
           [Add 1 100 BUY LIMIT 1000 5000] 0 2 100 SELL LIMIT 1000 4900 0
           true
           (state_after [Add 1 100 BUY LIMIT 1000 5000;
                         Add 2 100 SELL LIMIT 1000 4900]).1
           (state_after [Add 1 100 BUY LIMIT 1000 5000;
                         Add 2 100 SELL LIMIT 1000 4900]).2).
  - repeat (apply Forall_cons; split; [apply u64_literal; reflexivity|]).
    apply Forall_nil_2.
  - vm_compute. reflexivity.
Defined.

(** ** Every request returns *)

Lemma add_order_returns_true m b order ret m' b' :
  add_order m b order = Some (ret, m', b') → ret = true.
Proof.
  unfold add_order. intros H.
  destruct (match order_type (deref m order) with
            | LIMIT => _ | MARKET => _ | STOP => _ end) as [[m1 b1]|];
    simpl in H; by simplify_eq.
Qed.

(** X15. From a state whose quantities are 64-bit values and whose ladders
    hold addresses of stored orders, every sequence of add, cancel and
    modify requests with 64-bit quantities returns: the two loops of
    [try_match_order] end, and the iterator of the outer loop is never
    dereferenced at [end()].  The state reached is again of this kind, there
    is one return value per request, and [add_order] returns true for every
    order, whatever became of it. *)
Theorem requests_always_return rs : ∀ m b,
  well_formed m b → Forall request_u64 rs →
  ∃ rets m' b',
    requests m b rs = Some (rets, m', b')
    ∧ well_formed m' b'
    ∧ length rets = length rs
    ∧ ∀ i id symbol s type qty px,
        rs !! i = Some (Add id symbol s type qty px) → rets !! i = Some true.
Proof.
  induction rs as [|r rs IH]; intros m b Hwf Hrs; simpl.
  - exists [], m, b. split; [done|]. split; [done|]. split; [done|].
    intros i id symbol s type qty px Hi. by rewrite lookup_nil in Hi.
  - apply Forall_cons in Hrs as [Hr Hrs].
    destruct (request_wf m b r Hwf Hr) as (ret & m1 & b1 & Hreq & Hwf1).
    destruct (IH m1 b1 Hwf1 Hrs) as (rets & m' & b' & Hrest & Hwf' & Hlen & Hadd).
    rewrite Hreq. simpl. rewrite Hrest. simpl.
    exists (ret :: rets), m', b'. split; [done|]. split; [done|].
    split; [simpl; by rewrite Hlen|].
    intros [|i] id symbol s type qty px Hi; simpl in Hi |- *.
    + simplify_eq. unfold request, add_new_order in Hreq.
      destruct (make_shared m _) as [p m0].
      by apply add_order_returns_true in Hreq as ->.
    + by eapply Hadd.
Qed.

(** X15, witness: an add that rests, an add that sweeps, a cancel and a
    modify. *)
Lemma requests_always_return_witness :
  ∃ rets m' b',
    requests mem0 book0
      [Add 1 100 SELL LIMIT 1000 5000; Add 2 100 BUY MARKET 400 5000;
       Cancel 2; Modify 1 300 5100]
    = Some (rets, m', b')
    ∧ well_formed m' b'
    ∧ length rets = 4%nat.
Proof.
  destruct (requests_always_return
              [Add 1 100 SELL LIMIT 1000 5000; Add 2 100 BUY MARKET 400 5000;
               Cancel 2; Modify 1 300 5100] mem0 book0)
    as (rets & m' & b' & H & Hwf & Hlen & _).
  - apply well_formed_new.
  - repeat (apply Forall_cons;
            split; [first [apply u64_literal; reflexivity | exact I]|]).
    apply Forall_nil_2.
  - by exists rets, m', b'.
Defined.

(** ** The engine: every call returns *)

Lemma cancel_order_symbol m b id ret m' b' :
  cancel_order m b id = (ret, m', b') → symbol_id_ b' = symbol_id_ b.
Proof.
  unfold cancel_order.
  destruct (orders_ b !! id) as [p|]; [|intros; by simplify_eq].
  destruct (decide _); [intros; by simplify_eq|].
  intros H. simplify_eq.
  assert (Hl : ∀ bb s l, symbol_id_ (set_side bb s l) = symbol_id_ bb)
    by (by intros bb [] l).
  destruct (_ <? _); [|done].
  destruct (get_side b _ !! _); [|done].
  destruct (PriceLevel.is_empty _); by rewrite Hl.
Qed.

Lemma well_formed_grow m m' b :
  well_formed m b → quantities_u64 m' →
  (length (heap m) ≤ length (heap m'))%nat → well_formed m' b.
Proof.
  intros [_ Hb Ha] Hq Hlen.
  split; [done| |]; eapply ptrs_below_mono; eauto.
Qed.

(** What one book's [add_order] of a new order does to the store and to
    the book's index. *)
Lemma add_new_order_step m b o :
  well_formed m b → u64 (quantity o) →
  ∃ m' b',
    add_new_order m b o = Some (true, m', b')
    ∧ well_formed m' b'
    ∧ length (heap m') = S (length (heap m))
    ∧ symbol_id_ b' = symbol_id_ b
    ∧ orders_ b' = <[order_id o := length (heap m)]> (orders_ b).
Proof.
  intros Hwf Hq.
  destruct (add_new_order_wf m b o Hwf Hq) as (m' & b' & H & Hwf').
  exists m', b'. split; [done|]. split; [done|].
  unfold add_new_order in H. rewrite make_shared_spec in H.
  set (m1 := mkMem (heap m ++ [o]) (clock m)) in *.
  assert (Hnew : deref m1 (length (heap m)) = o)
    by apply (deref_make_shared_new m o).
  assert (Hlen1 : length (heap m1) = S (length (heap m)))
    by (subst m1; simpl; rewrite length_app; simpl; lia).
  destruct (add_order_wf m1 b (length (heap m)) true m' b')
    as [(Hlen & _) _]; try done.
  { apply (make_shared_quantities m o); [apply Hwf | exact Hq]. }
  { lia. }
  { by apply well_formed_sides. }
  apply add_order_index in H as [Hix Hsym]. rewrite Hnew in Hix.
  split; [lia|]. done.
Qed.

Lemma cancel_order_step m b id ret m' b' :
  well_formed m b → cancel_order m b id = (ret, m', b') →
  well_formed m' b' ∧ length (heap m') = length (heap m)
  ∧ symbol_id_ b' = symbol_id_ b ∧ orders_ b' = orders_ b
  ∧ (ret = false → m' = m ∧ b' = b).
Proof.
  intros Hwf Hc.
  destruct (cancel_order_wf _ _ _ _ _ _ Hwf Hc) as [(Hlen & _) Hwf'].
  split; [done|]. split; [done|].
  split; [by eapply cancel_order_symbol|].
  split; [by eapply cancel_order_index|].
  intros ->. unfold cancel_order in Hc.
  destruct (orders_ b !! id); [|by simplify_eq].
  destruct (decide _); by simplify_eq.
Qed.

Lemma modify_order_step m b id q px :
  well_formed m b → u64 q →
  ∃ ret m' b',
    modify_order m b id q px = Some (ret, m', b')
    ∧ well_formed m' b'
    ∧ (length (heap m) ≤ length (heap m'))%nat
    ∧ symbol_id_ b' = symbol_id_ b
    ∧ (∀ id', knows id' b' ↔ knows id' b)
    ∧ (ret = false → m' = m ∧ b' = b)
    ∧ (¬ knows id b → ret = false).
Proof.
  intros Hwf Hq.
  destruct (modify_order_wf m b id q px Hwf Hq) as (ret & m' & b' & H & Hwf').
  exists ret, m', b'. split; [done|]. split; [done|].
  pose proof H as Hsteps.
  apply modify_order_steps in Hsteps
    as [(-> & -> & ->)|(m1 & b1 & p & Hix & Hc & Ha)].
  { repeat split; try done; lia. }
  destruct (cancel_order_step _ _ _ _ _ _ Hwf Hc)
    as (Hwf1 & Hlen1 & Hsym1 & Hix1 & _).
  destruct (add_new_order_step m1 b1
              (Order_new (clock m1) id (symbol_id (deref m1 p))
                 (side (deref m1 p)) (order_type (deref m1 p)) q
                 (if 0 <? px then px else price (deref m1 p)) 0) Hwf1 Hq)
    as (m2 & b2 & Ha' & _ & Hlen2 & Hsym2 & Hix2).
  rewrite Ha in Ha'. simplify_eq.
  split; [lia|]. split; [congruence|]. split.
  { intros id'. unfold knows. rewrite Hix2, Hix1. simpl.
    destruct (decide (id = id')) as [<-|Hne].
    - rewrite lookup_insert_eq, Hix. split; intros _; by eexists.
    - by rewrite lookup_insert_ne. }
  split; [done|]. intros Hk. exfalso. apply Hk. unfold knows.
  rewrite Hix. by eexists.
Qed.

Lemma cancel_order_unknown m b id :
  ¬ knows id b → cancel_order m b id = (false, m, b).
Proof.
  unfold knows, cancel_order. intros H.
  destruct (orders_ b !! id); [|done]. exfalso. apply H. by eexists.
Qed.

(** The scan of [cancel_order] over well-formed books. *)
Lemma cancel_scan_step m books id :
  quantities_u64 m →
  Forall (λ kb, well_formed m kb.2) books →
  match OrderBookSimulator.cancel_scan m books id with
  | Some (symbol, m1, book1) =>
      ∃ book, (symbol, book) ∈ books
              ∧ cancel_order m book id = (true, m1, book1)
  | None => True
  end.
Proof.
  intros Hq Hall. induction Hall as [|[sym book] rest Hwf _ IH]; simpl; [done|].
  destruct (cancel_order m book id) as [[ok m1] book1] eqn:Hc.
  destruct ok.
  - exists book. split; [by left | done].
  - destruct (OrderBookSimulator.cancel_scan m rest id) as [[[sym2 m2] b2]|];
      [|done].
    destruct IH as (book2 & Hin & Hc2). exists book2. split; [by right | done].
Qed.

(** The scan of [modify_order] over well-formed books returns. *)
Lemma modify_scan_step m books id q px :
  u64 q → Forall (λ kb, well_formed m kb.2) books →
  ∃ r, OrderBookSimulator.modify_scan m books id q px = Some r
       ∧ match r with
         | Some (symbol, m1, book1) =>
             ∃ book, (symbol, book) ∈ books
                     ∧ modify_order m book id q px = Some (true, m1, book1)
         | None => True
         end.
Proof.
  intros Hq Hall. induction Hall as [|[sym book] rest Hwf _ IH]; simpl.
  { by exists None. }
  destruct (modify_order_step m book id q px Hwf Hq)
    as (ret & m1 & book1 & Hm & _).
  rewrite Hm. simpl. destruct ret.
  - exists (Some (sym, m1, book1)). split; [done|].
    exists book. split; [by left | done].
  - destruct IH as (r & -> & Hr). exists r. split; [done|].
    destruct r as [[[sym2 m2] b2]|]; [|done].
    destruct Hr as (book2 & Hin & Hm2). exists book2.
    split; [by right | done].
Qed.

Lemma engine_wf_books m s :
  engine_wf m s →
  Forall (λ kb, well_formed m kb.2)
    (map_to_list (OrderBookSimulator.order_books_ s)).
Proof.
  intros (_ & _ & Hs). apply Forall_forall. intros [sym book] Hin.
  apply elem_of_map_to_list in Hin. simpl. by destruct (Hs _ _ Hin).
Qed.

(** One book took a step, the others stay as they are. *)
Lemma engine_wf_insert m s m' symbol book' next :
  engine_wf m s → well_formed m' book' → symbol_id_ book' = symbol →
  (length (heap m) ≤ length (heap m'))%nat → u64 next →
  engine_wf m'
    (OrderBookSimulator.mk
       (<[symbol := book']> (OrderBookSimulator.order_books_ s)) next).
Proof.
  intros (Hq & _ & Hs) Hwf Hsym Hlen Hn. split; [apply Hwf|].
  split; [done|]. simpl.
  intros sym book Hk. apply lookup_insert_Some in Hk as [[<- <-]|[_ Hk]].
  - done.
  - destruct (Hs _ _ Hk) as [Hwfb Hsymb]. split; [|done].
    eapply well_formed_grow; [exact Hwfb | apply Hwf | done].
Qed.

Lemma call_wf m s c :
  engine_wf m s → call_u64 c →
  ∃ m' s',
    call m s c = Some (m', s') ∧ engine_wf m' s'
    ∧ OrderBookSimulator.next_order_id_ s'
      = (if decide (is_Some (call_symbol c))
         then wrap64 (OrderBookSimulator.next_order_id_ s + 1)
         else OrderBookSimulator.next_order_id_ s).
Proof.
  intros Hwf Hc. pose proof Hwf as (Hq & Hu & Hs).
  destruct c as [symbol sd type qty px stop_px|id|id q px]; simpl in *.
  - unfold OrderBookSimulator.submit_order.
    set (o := Order_new (clock m) (OrderBookSimulator.next_order_id_ s)
                symbol sd type qty px stop_px).
    set (book := default (SimpleOrderBook.new symbol)
                   (OrderBookSimulator.order_books_ s !! symbol)).
    assert (Hbook : well_formed m book ∧ symbol_id_ book = symbol).
    { subst book.
      destruct (OrderBookSimulator.order_books_ s !! symbol) as [bk|] eqn:E;
        simpl; [by apply Hs|].
      split; [|done].
      split; [done| |]; intros k lvl Hk; simpl in Hk;
        by rewrite lookup_empty in Hk. }
    destruct Hbook as [Hwfb Hsym].
    destruct (add_new_order_step m book o Hwfb Hc)
      as (m' & book' & Ha & Hwf' & Hlen & Hsym' & _).
    unfold add_new_order in Ha.
    destruct (make_shared m o) as [p m1]. rewrite Ha. simpl.
    eexists _, _. split; [reflexivity|]. split; [|done].
    apply (engine_wf_insert m s); try done; [congruence | lia | apply wrap64_u64].
  - unfold OrderBookSimulator.cancel_order.
    pose proof (cancel_scan_step m _ id Hq (engine_wf_books m s Hwf)) as Hscan.
    destruct (OrderBookSimulator.cancel_scan _ _ _) as [[[sym m1] b1]|].
    + destruct Hscan as (book & Hin & Hcan).
      apply elem_of_map_to_list in Hin. destruct (Hs _ _ Hin) as [Hwfb Hsym].
      destruct (cancel_order_step _ _ _ _ _ _ Hwfb Hcan)
        as (Hwf1 & Hlen1 & Hsym1 & _).
      eexists _, _. split; [reflexivity|]. split; [|done].
      apply (engine_wf_insert m s); try done; [congruence | lia].
    + by eexists _, _.
  - unfold OrderBookSimulator.modify_order.
    destruct (modify_scan_step m _ id q px Hc (engine_wf_books m s Hwf))
      as (r & -> & Hr). simpl.
    destruct r as [[[sym m1] b1]|].
    + destruct Hr as (book & Hin & Hmod).
      apply elem_of_map_to_list in Hin. destruct (Hs _ _ Hin) as [Hwfb Hsym].
      destruct (modify_order_step m book id q px Hwfb Hc)
        as (ret & m2 & b2 & Hmod' & Hwf1 & Hlen1 & Hsym1 & _).
      rewrite Hmod in Hmod'. simplify_eq.
      eexists _, _. split; [reflexivity|]. split; [|done].
      apply (engine_wf_insert m s); try done; congruence.
    + by eexists _, _.
Qed.

Lemma engine_wf_new : engine_wf mem0 OrderBookSimulator.new.
Proof.
  split; [constructor|]. split; [by apply u64_literal|].
  intros symbol book H. simpl in H. by rewrite lookup_empty in H.
Qed.

Lemma submits_cons c cs :
  submits (c :: cs)
  = (if decide (is_Some (call_symbol c)) then 1 else 0) + submits cs.
Proof.
  unfold submits. rewrite filter_cons.
  destruct (decide (is_Some (call_symbol c))); simpl; lia.
Qed.

Lemma calls_wf cs : ∀ m s,
  engine_wf m s → Forall call_u64 cs →
  ∃ m' s',
    calls m s cs = Some (m', s') ∧ engine_wf m' s'
    ∧ OrderBookSimulator.next_order_id_ s'
      = wrap64 (OrderBookSimulator.next_order_id_ s + submits cs).
Proof.
  induction cs as [|c cs IH]; intros m s Hwf Hcs; simpl.
  - exists m, s. split; [done|]. split; [done|].
    unfold submits. simpl. rewrite Z.add_0_r. symmetry.
    apply wrap64_small, Hwf.
  - apply Forall_cons in Hcs as [Hc Hcs].
    destruct (call_wf m s c Hwf Hc) as (m1 & s1 & Hcall & Hwf1 & Hnext1).
    destruct (IH m1 s1 Hwf1 Hcs) as (m' & s' & Hrest & Hwf' & Hnext').
    rewrite Hcall. simpl. exists m', s'. split; [done|]. split; [done|].
    rewrite Hnext', Hnext1, submits_cons.
    destruct (decide _).
    + rewrite wrap64_add_l. f_equal; lia.
    + f_equal; lia.
Qed.

(** X16. From a state in which every book is well formed over the store
    and is filed under its own symbol (the state after construction is
    one), every sequence of [submit_order], [cancel_order] and
    [modify_order] calls with 64-bit quantities returns, the state reached
    is again of this kind, and [next_order_id_] has grown by the number of
    [submit_order] calls, reduced to 64 bits. *)
Theorem engine_calls_always_return cs : ∀ m s,
  engine_wf m s → Forall call_u64 cs →
  ∃ m' s',
    calls m s cs = Some (m', s')
    ∧ engine_wf m' s'
    ∧ OrderBookSimulator.next_order_id_ s'
      = wrap64 (OrderBookSimulator.next_order_id_ s + submits cs)
    ∧ ∀ symbol book,
        OrderBookSimulator.order_books_ s' !! symbol = Some book →
        get_symbol_id book = symbol
        ∧ MarketDataSnapshot.symbol_id
            (OrderBookSimulator.get_market_data m' s' symbol) = symbol.
Proof.
  intros m s Hwf Hcs.
  destruct (calls_wf cs m s Hwf Hcs) as (m' & s' & Hcalls & Hwf' & Hnext).
  exists m', s'. split; [done|]. split; [done|]. split; [done|].
  intros symbol book Hk. destruct Hwf' as (_ & _ & Hs').
  destruct (Hs' _ _ Hk) as [_ Hsym]. split; [done|].
  unfold OrderBookSimulator.get_market_data. rewrite Hk. done.
Qed.

(** X16, witness: two symbols, a trade, a cancel and a modify. *)
Lemma engine_calls_always_return_witness :
  ∃ m' s',
    calls mem0 OrderBookSimulator.new
      [Submit 1 SELL LIMIT 1000 5000 0; Submit 2 BUY LIMIT 500 4000 0;
       Submit 1 BUY LIMIT 400 5000 0; CancelOrder 2; ModifyOrder 1 300 0]
    = Some (m', s')
    ∧ engine_wf m' s'.
Proof.
  destruct (engine_calls_always_return
              [Submit 1 SELL LIMIT 1000 5000 0; Submit 2 BUY LIMIT 500 4000 0;
               Submit 1 BUY LIMIT 400 5000 0; CancelOrder 2;
               ModifyOrder 1 300 0] mem0 OrderBookSimulator.new)
    as (m' & s' & H & Hwf & _).
  - apply engine_wf_new.
  - repeat (apply Forall_cons;
            split; [first [apply u64_literal; reflexivity | exact I]|]).
    apply Forall_nil_2.
  - exists m', s'. split; [exact H | exact Hwf].
Defined.

(** ** The engine: order ids *)

Lemma knows_new id symbol : ¬ knows id (SimpleOrderBook.new symbol).
Proof. unfold knows. simpl. rewrite lookup_empty. by intros [? ?]. Qed.

(** A book is replaced by one that knows the same ids. *)
Lemma ids_ok_replace s symbol book book1 :
  OrderBookSimulator.order_books_ s !! symbol = Some book →
  (∀ id, knows id book1 ↔ knows id book) →
  ids_ok s →
  ids_ok (OrderBookSimulator.mk
            (<[symbol := book1]> (OrderBookSimulator.order_books_ s))
            (OrderBookSimulator.next_order_id_ s)).
Proof.
  intros Hk Hsame [Hrange Huniq].
  assert (Hold : ∀ sym bk id,
            <[symbol := book1]> (OrderBookSimulator.order_books_ s) !! sym
              = Some bk → knows id bk →
            ∃ bk0, OrderBookSimulator.order_books_ s !! sym = Some bk0
                   ∧ knows id bk0).
  { intros sym bk id Hb Hkn.
    apply lookup_insert_Some in Hb as [[<- <-]|[_ Hb]].
    - exists book. split; [done | by apply Hsame].
    - by exists bk. }
  split; simpl.
  - intros sym bk id Hb Hkn.
    destruct (Hold _ _ _ Hb Hkn) as (bk0 & Hb0 & Hkn0). by eapply Hrange.
  - intros sym1 sym2 bk1 bk2 id Hb1 Hb2 Hkn1 Hkn2.
    destruct (Hold _ _ _ Hb1 Hkn1) as (bk10 & Hb10 & Hkn10).
    destruct (Hold _ _ _ Hb2 Hkn2) as (bk20 & Hb20 & Hkn20).
    by eapply Huniq.
Qed.

Lemma call_ids m s c m' s' :
  engine_wf m s → ids_ok s → call_u64 c →
  1 <= OrderBookSimulator.next_order_id_ s →
  OrderBookSimulator.next_order_id_ s + 1 < 2 ^ 64 →
  call m s c = Some (m', s') →
  ids_ok s'.
Proof.
  intros Hwf Hids Hc Hlo Hhi Hcall. pose proof Hwf as (Hq & Hu & Hs).
  destruct c as [symbol sd type qty px stop_px|id|id q px]; simpl in *.
  - unfold OrderBookSimulator.submit_order in Hcall.
    set (id := OrderBookSimulator.next_order_id_ s) in *.
    set (o := Order_new (clock m) id symbol sd type qty px stop_px) in *.
    set (book := default (SimpleOrderBook.new symbol)
                   (OrderBookSimulator.order_books_ s !! symbol)) in *.
    assert (Hbook : well_formed m book
                    ∧ ∀ id', knows id' book → 1 <= id' < id
                        ∧ OrderBookSimulator.order_books_ s !! symbol
                          = Some book).
    { subst book.
      destruct (OrderBookSimulator.order_books_ s !! symbol) as [bk|] eqn:E;
        simpl.
      - split; [by destruct (Hs _ _ E)|]. intros id' Hkn. split; [|done].
        by eapply (proj1 Hids).
      - split.
        + split; [done| |]; intros k lvl Hk; simpl in Hk;
            by rewrite lookup_empty in Hk.
        + intros id' Hkn. by apply knows_new in Hkn. }
    destruct Hbook as [Hwfb Hknown].
    destruct (add_new_order_step m book o Hwfb Hc)
      as (m1 & book' & Ha & _ & _ & _ & Hix).
    unfold add_new_order in Ha.
    destruct (make_shared m o) as [p m0]. rewrite Ha in Hcall.
    simpl in Hcall. simplify_eq.
    assert (Hnext : wrap64 (id + 1) = id + 1)
      by (apply wrap64_small; unfold u64; lia).
    assert (Hkn' : ∀ id', knows id' book' → id' = id ∨ knows id' book).
    { intros id' Hkn. unfold knows in *. rewrite Hix in Hkn.
      change (order_id o) with id in Hkn.
      destruct (decide (id = id')) as [<-|Hne]; [by left|].
      right. by rewrite lookup_insert_ne in Hkn. }
    destruct Hids as [Hrange Huniq].
    assert (Hcases : ∀ sym bk id',
              <[symbol := book']> (OrderBookSimulator.order_books_ s) !! sym
                = Some bk → knows id' bk →
              (sym = symbol ∧ id' = id)
              ∨ (∃ bk0, OrderBookSimulator.order_books_ s !! sym = Some bk0
                        ∧ knows id' bk0 ∧ 1 <= id' < id)).
    { intros sym bk id' Hb Hkn.
      apply lookup_insert_Some in Hb as [[<- <-]|[_ Hb]].
      - destruct (Hkn' _ Hkn) as [->|Hkn0]; [by left|].
        right. destruct (Hknown _ Hkn0) as [? ?]. by exists book.
      - right. exists bk. split; [done|]. split; [done|]. by eapply Hrange. }
    split; simpl; rewrite ?Hnext.
    + intros sym bk id' Hb Hkn.
      destruct (Hcases _ _ _ Hb Hkn) as [[_ ->]|(bk0 & _ & _ & ?)]; lia.
    + intros sym1 sym2 bk1 bk2 id' Hb1 Hb2 Hkn1 Hkn2.
      destruct (Hcases _ _ _ Hb1 Hkn1) as [[-> ->]|(bk10 & Hb10 & Hkn10 & ?)];
        destruct (Hcases _ _ _ Hb2 Hkn2) as [[-> Hid]|(bk20 & Hb20 & Hkn20 & ?)];
        try done; try lia.
      by eapply Huniq.
  - unfold OrderBookSimulator.cancel_order in Hcall.
    pose proof (cancel_scan_step m _ id Hq (engine_wf_books m s Hwf)) as Hscan.
    destruct (OrderBookSimulator.cancel_scan _ _ _) as [[[sym m1] b1]|];
      [|by simplify_eq].
    destruct Hscan as (book & Hin & Hcan). simplify_eq.
    apply elem_of_map_to_list in Hin. destruct (Hs _ _ Hin) as [Hwfb _].
    destruct (cancel_order_step _ _ _ _ _ _ Hwfb Hcan) as (_ & _ & _ & Hix & _).
    eapply ids_ok_replace; [exact Hin| |done].
    intros id'. unfold knows. by rewrite Hix.
  - unfold OrderBookSimulator.modify_order in Hcall.
    destruct (modify_scan_step m _ id q px Hc (engine_wf_books m s Hwf))
      as (r & Hr & Hshape).
    rewrite Hr in Hcall. simpl in Hcall.
    destruct r as [[[sym m1] b1]|]; simpl in Hcall; [|by simplify_eq].
    destruct Hshape as (book & Hin & Hmod). simplify_eq.
    apply elem_of_map_to_list in Hin. destruct (Hs _ _ Hin) as [Hwfb _].
    destruct (modify_order_step m book id q px Hwfb Hc)
      as (ret & m2 & b2 & Hmod' & _ & _ & _ & Hkn & _).
    rewrite Hmod in Hmod'. simplify_eq.
    eapply ids_ok_replace; [exact Hin|exact Hkn|done].
Qed.

Lemma calls_ids cs : ∀ m s,
  engine_wf m s → ids_ok s → Forall call_u64 cs →
  1 <= OrderBookSimulator.next_order_id_ s →
  OrderBookSimulator.next_order_id_ s + Z.of_nat (length cs) < 2 ^ 64 →
  ∃ m' s',
    calls m s cs = Some (m', s') ∧ engine_wf m' s' ∧ ids_ok s'
    ∧ OrderBookSimulator.next_order_id_ s'
      = OrderBookSimulator.next_order_id_ s + submits cs.
Proof.
  induction cs as [|c cs IH]; intros m s Hwf Hids Hcs Hlo Hhi; simpl.
  - exists m, s. split; [done|]. split; [done|]. split; [done|].
    unfold submits. simpl. lia.
  - apply Forall_cons in Hcs as [Hc Hcs].
    destruct (call_wf m s c Hwf Hc) as (m1 & s1 & Hcall & Hwf1 & Hnext1).
    assert (Hids1 : ids_ok s1).
    { eapply (call_ids m s c); try done. simpl in Hhi. lia. }
    assert (Hn1 : OrderBookSimulator.next_order_id_ s1
                  = OrderBookSimulator.next_order_id_ s
                    + (if decide (is_Some (call_symbol c)) then 1 else 0)).
    { rewrite Hnext1. destruct (decide _); [|lia].
      apply wrap64_small. unfold u64. simpl in Hhi. lia. }
    destruct (IH m1 s1 Hwf1 Hids1 Hcs) as (m' & s' & Hrest & Hwf' & Hids' & Hn').
    { rewrite Hn1. destruct (decide _); lia. }
    { rewrite Hn1. simpl in Hhi. destruct (decide _); lia. }
    rewrite Hcall. simpl. exists m', s'.
    split; [done|]. split; [done|]. split; [done|].
    rewrite Hn', Hn1, submits_cons. lia.
Qed.

Lemma ids_ok_new : ids_ok OrderBookSimulator.new.
Proof.
  split; simpl.
  - intros symbol book id H. by rewrite lookup_empty in H.
  - intros s1 s2 b1 b2 id H. by rewrite lookup_empty in H.
Qed.

Lemma engine_after_ids cs :
  Forall call_u64 cs → Z.of_nat (length cs) < 2 ^ 64 - 1 →
  engine_wf (engine_after cs).1 (engine_after cs).2
  ∧ ids_ok (engine_after cs).2
  ∧ OrderBookSimulator.next_order_id_ (engine_after cs).2 = 1 + submits cs.
Proof.
  intros Hcs Hlen.
  destruct (calls_ids cs mem0 OrderBookSimulator.new engine_wf_new
              ids_ok_new Hcs)
    as (m' & s' & Hcalls & Hwf & Hids & Hnext); [simpl; lia | simpl; lia |].
  unfold engine_after. rewrite Hcalls. done.
Qed.

(** X17. The engine hands out the ids 1, 2, 3, ... in the order of the
    [submit_order] calls, and an id is known to one book only: after fewer
    than 2^64 - 1 calls from the state after construction, every id a book
    knows is at least 1 and below [next_order_id_], which is one more than
    the number of [submit_order] calls so far, and two books that know the
    same id are the same book. *)
Theorem order_ids_are_unique_across_books cs symbol1 symbol2 book1 book2 id :
  Forall call_u64 cs → Z.of_nat (length cs) < 2 ^ 64 - 1 →
  OrderBookSimulator.order_books_ (engine_after cs).2 !! symbol1 = Some book1 →
  OrderBookSimulator.order_books_ (engine_after cs).2 !! symbol2 = Some book2 →
  is_Some (orders_ book1 !! id) → is_Some (orders_ book2 !! id) →
  symbol1 = symbol2
  ∧ 1 <= id <= submits cs
  ∧ OrderBookSimulator.next_order_id_ (engine_after cs).2 = 1 + submits cs.
Proof.
  intros Hcs Hlen Hb1 Hb2 Hk1 Hk2.
  destruct (engine_after_ids cs Hcs Hlen) as (_ & [Hrange Huniq] & Hnext).
  split; [by eapply Huniq|]. split; [|done].
  pose proof (Hrange _ _ _ Hb1 Hk1). lia.
Qed.

(** X17, witness: the second order of the book of symbol 1. *)
Lemma order_ids_are_unique_across_books_witness :
  1 <= 3 <= submits [Submit 1 SELL LIMIT 1000 5000 0;
                     Submit 2 BUY LIMIT 500 4000 0;
                     Submit 1 BUY LIMIT 400 4900 0].
Proof.
  refine (proj1 (proj2 (order_ids_are_unique_across_books
            [Submit 1 SELL LIMIT 1000 5000 0; Submit 2 BUY LIMIT 500 4000 0;
             Submit 1 BUY LIMIT 400 4900 0] 1 1
            (default (SimpleOrderBook.new 1)
               (OrderBookSimulator.order_books_
                  (engine_after [Submit 1 SELL LIMIT 1000 5000 0;
                                 Submit 2 BUY LIMIT 500 4000 0;
                                 Submit 1 BUY LIMIT 400 4900 0]).2 !! 1))
            (default (SimpleOrderBook.new 1)
               (OrderBookSimulator.order_books_
                  (engine_after [Submit 1 SELL LIMIT 1000 5000 0;
                                 Submit 2 BUY LIMIT 500 4000 0;
                                 Submit 1 BUY LIMIT 400 4900 0]).2 !! 1))
            3 _ _ _ _ _ _))).
  - repeat (apply Forall_cons; split; [apply u64_literal; reflexivity|]).
    apply Forall_nil_2.
  - simpl. lia.
  - vm_compute. reflexivity.
  - vm_compute. reflexivity.
  - exists 2%nat. vm_compute. reflexivity.
  - exists 2%nat. vm_compute. reflexivity.
Defined.

(** ** The engine: the scans over the books

    [std::unordered_map] fixes no iteration order.  An id is known to one
    book at most, so the scans of [cancel_order] and [modify_order] give
    the same result in every order. *)

Lemma modify_order_unknown m b id q px :
  ¬ knows id b → modify_order m b id q px = Some (false, m, b).
Proof.
  unfold knows, modify_order. intros H.
  destruct (orders_ b !! id); [|done]. exfalso. apply H. by eexists.
Qed.

Lemma cancel_scan_unknown m l id :
  Forall (λ kb, ¬ knows id kb.2) l →
  OrderBookSimulator.cancel_scan m l id = None.
Proof.
  induction 1 as [|[sym book] l Hx _ IH]; simpl; [done|].
  by rewrite cancel_order_unknown.
Qed.

Lemma cancel_scan_one m l1 kb l2 id :
  Forall (λ kb, ¬ knows id kb.2) l1 → Forall (λ kb, ¬ knows id kb.2) l2 →
  OrderBookSimulator.cancel_scan m (l1 ++ kb :: l2) id
  = OrderBookSimulator.cancel_scan m [kb] id.
Proof.
  intros H1 H2. induction H1 as [|[sym book] l Hx _ IH]; simpl.
  - destruct kb as [sym book].
    destruct (cancel_order m book id) as [[ok m1] b1].
    destruct ok; [done|]. by apply cancel_scan_unknown.
  - by rewrite cancel_order_unknown.
Qed.

Lemma modify_scan_unknown m l id q px :
  Forall (λ kb, ¬ knows id kb.2) l →
  OrderBookSimulator.modify_scan m l id q px = Some None.
Proof.
  induction 1 as [|[sym book] l Hx _ IH]; simpl; [done|].
  by rewrite modify_order_unknown.
Qed.

Lemma modify_scan_one m l1 kb l2 id q px :
  Forall (λ kb, ¬ knows id kb.2) l1 → Forall (λ kb, ¬ knows id kb.2) l2 →
  OrderBookSimulator.modify_scan m (l1 ++ kb :: l2) id q px
  = OrderBookSimulator.modify_scan m [kb] id q px.
Proof.
  intros H1 H2. induction H1 as [|[sym book] l Hx _ IH]; simpl.
  - destruct kb as [sym book].
    destruct (modify_order m book id q px) as [[[ok m1] b1]|]; simpl; [|done].
    destruct ok; [done|]. by apply modify_scan_unknown.
  - by rewrite modify_order_unknown.
Qed.

(** A list of books in which one book at most knows the id. *)
Lemma split_by_knower (l : list (Z * SimpleOrderBook.t)) id :
  NoDup l →
  (∀ x y, x ∈ l → y ∈ l → knows id x.2 → knows id y.2 → x = y) →
  Forall (λ kb, ¬ knows id kb.2) l
  ∨ ∃ l1 kb l2, l = l1 ++ kb :: l2 ∧ knows id kb.2
                ∧ Forall (λ kb, ¬ knows id kb.2) l1
                ∧ Forall (λ kb, ¬ knows id kb.2) l2.
Proof.
  induction l as [|x l IH]; intros Hnd Huniq; [by left|].
  apply NoDup_cons in Hnd as [Hx Hnd].
  destruct (decide (knows id x.2)) as [Hk|Hk].
  - right. exists [], x, l. split; [done|]. split; [done|].
    split; [constructor|]. apply Forall_forall. intros y Hy Hky.
    assert (y = x) as -> by (apply Huniq; [by right | by left | done | done]).
    done.
  - destruct IH as [Hall|(l1 & kb & l2 & -> & Hkb & H1 & H2)]; [done| | |].
    + intros y z Hy Hz. apply Huniq; by right.
    + left. by apply Forall_cons.
    + right. exists (x :: l1), kb, l2. split; [done|]. split; [done|].
      split; [by apply Forall_cons | done].
Qed.

Lemma scans_of_permuted_books m (l l0 : list (Z * SimpleOrderBook.t)) id q px :
  NoDup l0 →
  (∀ x y, x ∈ l0 → y ∈ l0 → knows id x.2 → knows id y.2 → x = y) →
  l ≡ₚ l0 →
  OrderBookSimulator.cancel_scan m l id
    = OrderBookSimulator.cancel_scan m l0 id
  ∧ OrderBookSimulator.modify_scan m l id q px
    = OrderBookSimulator.modify_scan m l0 id q px.
Proof.
  intros Hnd0 Huniq0 Hperm.
  assert (Hnd : NoDup l) by (by rewrite Hperm).
  assert (Huniq : ∀ x y, x ∈ l → y ∈ l → knows id x.2 → knows id y.2 → x = y).
  { intros x y Hx Hy. rewrite Hperm in Hx, Hy. by apply Huniq0. }
  destruct (split_by_knower l id Hnd Huniq)
    as [Hall|(l1 & kb & l2 & El & Hkb & H1 & H2)];
    destruct (split_by_knower l0 id Hnd0 Huniq0)
      as [Hall0|(l10 & kb0 & l20 & El0 & Hkb0 & H10 & H20)].
  - by rewrite !cancel_scan_unknown, !modify_scan_unknown.
  - exfalso. assert (Hin : kb0 ∈ l).
    { rewrite Hperm, El0. apply elem_of_app. right. by left. }
    rewrite Forall_forall in Hall. by apply (Hall kb0).
  - exfalso. assert (Hin : kb ∈ l0).
    { rewrite <- Hperm, El. apply elem_of_app. right. by left. }
    rewrite Forall_forall in Hall0. by apply (Hall0 kb).
  - assert (kb = kb0) as <-.
    { apply Huniq0; try done.
      - rewrite <- Hperm, El. apply elem_of_app. right. by left.
      - rewrite El0. apply elem_of_app. right. by left. }
    rewrite El, El0.
    by rewrite !cancel_scan_one, !modify_scan_one.
Qed.

(** X18. The result of the engine's [cancel_order] and [modify_order] does
    not depend on the order in which the books are visited: after fewer
    than 2^64 - 1 calls from the state after construction, the scan over
    any arrangement of the books stops at the same book with the same
    result as the scan in the order of the model. *)
Theorem scans_do_not_depend_on_the_iteration_order cs l id q px :
  Forall call_u64 cs → Z.of_nat (length cs) < 2 ^ 64 - 1 →
  l ≡ₚ map_to_list (OrderBookSimulator.order_books_ (engine_after cs).2) →
  OrderBookSimulator.cancel_scan (engine_after cs).1 l id
    = OrderBookSimulator.cancel_scan (engine_after cs).1
        (map_to_list (OrderBookSimulator.order_books_ (engine_after cs).2)) id
  ∧ OrderBookSimulator.modify_scan (engine_after cs).1 l id q px
    = OrderBookSimulator.modify_scan (engine_after cs).1
        (map_to_list (OrderBookSimulator.order_books_ (engine_after cs).2))
        id q px.
Proof.
  intros Hcs Hlen Hperm.
  destruct (engine_after_ids cs Hcs Hlen) as (_ & [_ Huniq] & _).
  apply scans_of_permuted_books; [apply NoDup_map_to_list| |done].
  intros [sym1 b1] [sym2 b2] H1 H2 Hk1 Hk2. simpl in *.
  apply elem_of_map_to_list in H1, H2.
  assert (sym1 = sym2) as -> by (by eapply Huniq).
  rewrite H1 in H2. by simplify_eq.
Qed.

(** X18, witness: two books visited in the reverse order. *)
Lemma scans_do_not_depend_on_the_iteration_order_witness :
  OrderBookSimulator.cancel_scan
    (engine_after [Submit 1 SELL LIMIT 1000 5000 0;
                   Submit 2 BUY LIMIT 500 4000 0]).1
    (reverse (map_to_list
                (OrderBookSimulator.order_books_
                   (engine_after [Submit 1 SELL LIMIT 1000 5000 0;
                                  Submit 2 BUY LIMIT 500 4000 0]).2))) 2
  = OrderBookSimulator.cancel_scan
      (engine_after [Submit 1 SELL LIMIT 1000 5000 0;
                     Submit 2 BUY LIMIT 500 4000 0]).1
      (map_to_list
         (OrderBookSimulator.order_books_
            (engine_after [Submit 1 SELL LIMIT 1000 5000 0;
                           Submit 2 BUY LIMIT 500 4000 0]).2)) 2.
Proof.
  refine (proj1 (scans_do_not_depend_on_the_iteration_order
                   [Submit 1 SELL LIMIT 1000 5000 0;
                    Submit 2 BUY LIMIT 500 4000 0] _ 2 0 0 _ _ _)).
  - repeat (apply Forall_cons; split; [apply u64_literal; reflexivity|]).
    apply Forall_nil_2.
  - simpl. lia.
  - apply reverse_Permutation.
Defined.

(** ** An incoming LIMIT or STOP order *)

(** X19. A LIMIT or STOP order added to a well-formed state: [add_order]
    returns true; the status written to the order is FILLED when it traded
    its whole quantity, PARTIALLY_FILLED when it traded a part, and NEW when
    it traded nothing.  A fully filled order is put into no ladder and its
    own side is left as it was; every other order comes to rest as the last
    entry of the level at its price on its own side (behind the orders
    that were there), and the level's total grows by the order's full
    quantity, whatever it has traded. *)
Theorem limit_order_rests_last_unless_filled
    m b now id symbol s type qty px stop_px :
  well_formed m b → u64 qty → type ≠ MARKET →
  ∃ m' b',
    add_new_order m b (Order_new now id symbol s type qty px stop_px)
      = Some (true, m', b')
    ∧ let p := length (heap m) in
      let f := filled_quantity (deref m' p) in
      let lvl0 := default PriceLevel.new (get_side b s !! px) in
      status (deref m' p)
      = (if 0 <? f then if f =? qty then FILLED else PARTIALLY_FILLED
         else NEW)
      ∧ if (0 <? f) && (f =? qty)
        then (p ∉ resting_in (bids_ b')) ∧ (p ∉ resting_in (asks_ b'))
             ∧ get_side b' s = get_side b s
        else get_side b' s
             = <[px := PriceLevel.mk (PriceLevel.orders_ lvl0 ++ [p])
                         (wrap64 (PriceLevel.total_quantity_ lvl0 + qty))]>
                 (get_side b s).
Proof.
  intros Hwf Hq Hty.
  set (o := Order_new now id symbol s type qty px stop_px).
  destruct (add_new_order_wf m b o Hwf Hq) as (m' & b' & H & _).
  exists m', b'. split; [exact H|].
  unfold add_new_order in H. rewrite make_shared_spec in H.
  set (p := length (heap m)) in *.
  set (m1 := mkMem (heap m ++ [o]) (clock m)) in *.
  assert (Hnew : deref m1 p = o) by apply (deref_make_shared_new m o).
  assert (Hlt : (p < length (heap m1))%nat).
  { subst m1 p. cbn [heap]. rewrite length_app. cbn [length]. lia. }
  pose proof (well_formed_sides m b Hwf) as Hb. fold p in Hb.
  apply add_order_shape in H
    as (matched & m2 & b2 & side2 & st & rests & Hm & -> & -> & Hst & Hrests).
  rewrite Hnew in Hm, Hst, Hrests.
  change (order_type o) with type in Hst, Hrests.
  destruct (decide (type = MARKET)) as [?|_]; [done|].
  cbn [side order_id o Order_new] in Hm.
  rewrite !Hnew. cbn [side o Order_new].
  assert (Hf0 : filled_quantity (deref m1 p) = 0) by (by rewrite Hnew).
  pose proof (try_match_order_matched _ _ _ _ _ _ _ _ Hf0 Hm) as Hmatched.
  pose proof (try_match_order_frame _ _ _ _ _ _ _ _ Hm)
    as ((Hlen & _ & Hid) & (_ & Hbid & Hask & _) & Hw).
  assert (Hfields : quantity (deref m2 p) = qty ∧ side (deref m2 p) = s
                    ∧ price (deref m2 p) = px).
  { specialize (Hid p). rewrite Hnew in Hid.
    by apply identity_fields in Hid as (_ & _ & -> & _ & -> & ->). }
  destruct Hfields as (Hqty & Hside & Hprice).
  assert (Hd : deref (set_order_status m2 p st) p = set_status (deref m2 p) st).
  { unfold set_order_status. apply deref_store_eq. lia. }
  cbv zeta. fold p. rewrite Hd.
  cbn [status filled_quantity set_status].
  unfold is_filled in Hst, Hrests. rewrite Hqty in Hst, Hrests.
  rewrite Hmatched in Hst, Hrests.
  assert (Hown : get_side (set_side b2 (opposite s) side2) s = get_side b s).
  { rewrite get_set_side_opposite.
    destruct s; simpl; [by rewrite Hbid | by rewrite Hask]. }
  split; [exact Hst|].
  rewrite Hrests.
  destruct ((0 <? filled_quantity (deref m2 p))
            && (filled_quantity (deref m2 p) =? qty)); simpl.
  - assert (Hbelow : ∀ sd, ptrs_below p
                             (get_side (set_side b2 (opposite s) side2) sd)).
    { intros sd. destruct (decide (sd = opposite s)) as [->|Hne].
      - rewrite get_set_side. eapply ladder_within_below; [exact Hw|].
        destruct s; [exact (Hb SELL) | exact (Hb BUY)].
      - assert (sd = s) as -> by (destruct s, sd; done). rewrite Hown.
        destruct s; [exact (Hb BUY) | exact (Hb SELL)]. }
    assert (Hnot : ∀ sd, p ∉ resting_in
                           (get_side (set_side b2 (opposite s) side2) sd)).
    { intros sd Hin. pose proof (resting_in_below _ _ _ (Hbelow sd) Hin). lia. }
    split; [exact (Hnot BUY)|]. split; [exact (Hnot SELL) | exact Hown].
  - unfold add_to_book. rewrite Hd.
    cbn [side price set_status]. rewrite Hside, Hprice.
    rewrite get_set_side, Hown. unfold PriceLevel.add_order.
    rewrite Hd. cbn [quantity set_status]. by rewrite Hqty.
Qed.

(** X19, witness: a BUY that fills a part against the only ask and rests. *)
Lemma limit_order_rests_last_unless_filled_witness :
  ∃ m' b',
    add_new_order (state_after [Add 1 100 SELL LIMIT 300 5000]).1
      (state_after [Add 1 100 SELL LIMIT 300 5000]).2
      (Order_new 0 2 100 BUY LIMIT 1000 5000 0) = Some (true, m', b')
    ∧ status (deref m' 1%nat)
      = (if 0 <? filled_quantity (deref m' 1%nat)
         then if filled_quantity (deref m' 1%nat) =? 1000
              then FILLED else PARTIALLY_FILLED
         else NEW).
Proof.
  destruct (limit_order_rests_last_unless_filled
              (state_after [Add 1 100 SELL LIMIT 300 5000]).1
              (state_after [Add 1 100 SELL LIMIT 300 5000]).2
              0 2 100 BUY LIMIT 1000 5000 0)
    as (m' & b' & H & Hst & _).
  - apply state_after_wf.
    repeat (apply Forall_cons; split; [apply u64_literal; reflexivity|]).
    apply Forall_nil_2.
  - apply u64_literal. reflexivity.
  - discriminate.
  - exists m', b'. split; [exact H | exact Hst].
Defined.

(** ** The snapshot *)

Lemma keys_head_least (l : Ladder.t) k0 k :
  Ladder.begin l = Some k0 → is_Some (l !! k) → k0 <= k.
Proof.
  unfold Ladder.begin. intros Hh Hk. apply elem_of_keys in Hk.
  pose proof (keys_sorted l) as Hs.
  destruct (Ladder.keys l) as [|x ks]; simpl in Hh; [done|]. simplify_eq.
  apply StronglySorted_cons in Hs as [Hall _].
  apply elem_of_cons in Hk as [->|Hk]; [lia|].
  rewrite Forall_forall in Hall. specialize (Hall _ Hk). lia.
Qed.

Lemma keys_last_greatest (l : Ladder.t) k0 k :
  Ladder.rbegin l = Some k0 → is_Some (l !! k) → k <= k0.
Proof.
  unfold Ladder.rbegin. intros Hh Hk. apply elem_of_keys in Hk.
  pose proof (keys_sorted l) as Hs.
  apply last_Some in Hh as [ks Hks]. rewrite Hks in Hs, Hk.
  apply StronglySorted_app in Hs as (Hall & _ & _).
  apply elem_of_app in Hk as [Hk|Hk].
  - specialize (Hall k k0 Hk). assert (k < k0) by (apply Hall; by left). lia.
  - apply list_elem_of_singleton in Hk as ->. lia.
Qed.

(** X20. The snapshot of a book: the best ask is the lowest price of the
    ask ladder and the best bid the highest price of the bid ladder, each
    with the total of its level; a side without levels is reported as
    price 0 and quantity 0.  The snapshot carries the book's symbol and the
    volume traded so far; its last-trade fields are 0 in every state, the
    code never writes them. *)
Theorem snapshot_reports_the_best_prices m b :
  MarketDataSnapshot.symbol_id (get_market_data m b) = get_symbol_id b
  ∧ MarketDataSnapshot.volume (get_market_data m b) = get_total_volume b
  ∧ MarketDataSnapshot.last_trade_price (get_market_data m b) = 0
  ∧ MarketDataSnapshot.last_trade_quantity (get_market_data m b) = 0
  ∧ (if Ladder.is_empty (asks_ b)
     then MarketDataSnapshot.best_ask_price (get_market_data m b) = 0
          ∧ MarketDataSnapshot.best_ask_quantity (get_market_data m b) = 0
     else PriceLevel.get_total_quantity
            <$> asks_ b !! MarketDataSnapshot.best_ask_price (get_market_data m b)
          = Some (MarketDataSnapshot.best_ask_quantity (get_market_data m b))
          ∧ Forall (λ k, MarketDataSnapshot.best_ask_price (get_market_data m b)
                         <= k)
              (Ladder.keys (asks_ b)))
  ∧ (if Ladder.is_empty (bids_ b)
     then MarketDataSnapshot.best_bid_price (get_market_data m b) = 0
          ∧ MarketDataSnapshot.best_bid_quantity (get_market_data m b) = 0
     else PriceLevel.get_total_quantity
            <$> bids_ b !! MarketDataSnapshot.best_bid_price (get_market_data m b)
          = Some (MarketDataSnapshot.best_bid_quantity (get_market_data m b))
          ∧ Forall (λ k, k <= MarketDataSnapshot.best_bid_price
                                (get_market_data m b))
              (Ladder.keys (bids_ b))).
Proof.
  split; [done|]. split; [done|]. split; [done|]. split; [done|].
  unfold get_market_data. simpl. split.
  - destruct (Ladder.is_empty (asks_ b)) eqn:He.
    + apply bool_decide_eq_true in He. rewrite He. done.
    + destruct (is_empty_false_begin _ He) as [[k Hk] _]. rewrite Hk. simpl.
      destruct (begin_Some _ _ Hk) as [lvl Hl]. rewrite Hl. simpl.
      split; [done|]. apply Forall_forall. intros k' Hk'.
      apply elem_of_keys in Hk'. by eapply keys_head_least.
  - destruct (Ladder.is_empty (bids_ b)) eqn:He.
    + apply bool_decide_eq_true in He. rewrite He. done.
    + destruct (is_empty_false_begin _ He) as [_ [k Hk]]. rewrite Hk. simpl.
      destruct (rbegin_Some _ _ Hk) as [lvl Hl]. rewrite Hl. simpl.
      split; [done|]. apply Forall_forall. intros k' Hk'.
      apply elem_of_keys in Hk'. by eapply keys_last_greatest.
Qed.

(** X10, witness: a level whose only entry has been cancelled. *)
Lemma get_best_order_skips_dead_entries_witness :
  PriceLevel.get_best_order
    (state_after [Add 1 100 BUY LIMIT 0 5000; Cancel 1]).1
    (PriceLevel.mk [0%nat] 0) = None.
Proof.
  apply (get_best_order_skips_dead_entries
           (state_after [Add 1 100 BUY LIMIT 0 5000; Cancel 1]).1
           (PriceLevel.mk [0%nat] 0)).
  apply Forall_cons. split; [right; vm_compute; reflexivity | apply Forall_nil_2].
Defined.

(** ** The engine: orders are filed under their symbol *)

Lemma held_by_sides (b : SimpleOrderBook.t) p :
  held_by b p ↔
  (∃ sd, p ∈ resting_in (get_side b sd)) ∨ ∃ id, orders_ b !! id = Some p.
Proof.
  unfold held_by. split.
  - intros [H|[H|H]]; [left; by exists BUY | left; by exists SELL | by right].
  - intros [[[] H]|H]; [by left | right; by left | right; by right].
Qed.

Lemma same_objects_symbol m m' p :
  same_objects m m' → symbol_id (deref m' p) = symbol_id (deref m p).
Proof.
  intros (_ & _ & Hi). specialize (Hi p).
  by apply identity_fields in Hi as (_ & ? & _).
Qed.

Lemma resting_in_within (l' l : Ladder.t) p :
  ladder_within l' l → p ∈ resting_in l' → p ∈ resting_in l.
Proof.
  intros Hw. rewrite !elem_of_resting_in. intros (k & lvl' & Hk & Hp).
  destruct (Hw _ _ Hk) as (lvl & Hk0 & Hsub). exists k, lvl.
  split; [done|]. eapply elem_of_sublist; [exact Hp | exact Hsub].
Qed.

Lemma cancel_order_within m b id ret m' b' :
  cancel_order m b id = (ret, m', b') →
  ∀ s, ladder_within (get_side b' s) (get_side b s).
Proof.
  unfold cancel_order.
  destruct (orders_ b !! id) as [p|];
    [|intros; simplify_eq; apply ladder_within_refl].
  destruct (decide _); [intros; simplify_eq; apply ladder_within_refl|].
  intros H s. simplify_eq.
  set (s0 := side (deref m p)). set (px := price (deref m p)).
  destruct (_ <? _); [|apply ladder_within_refl].
  destruct (get_side b s0 !! px) as [lvl|] eqn:Hk; [|apply ladder_within_refl].
  destruct (PriceLevel.is_empty _);
    (destruct (decide (s = s0)) as [->|Hne];
     [rewrite get_set_side
     |rewrite get_set_side_ne by done; apply ladder_within_refl]).
  - apply ladder_within_delete.
  - eapply ladder_within_insert; [exact Hk | apply remove_order_sublist].
Qed.

(** The entries of the ladders after [add_order]: entries that were there,
    and the incoming order. *)
Lemma add_order_resting m b order ret m' b' sd p :
  add_order m b order = Some (ret, m', b') →
  p ∈ resting_in (get_side b' sd) →
  p = order ∨ p ∈ resting_in (get_side b sd).
Proof.
  intros H.
  apply add_order_shape in H
    as (matched & m1 & b1 & side1 & st & rests & Hm & -> & -> & _ & _).
  set (opp := opposite (side (deref m order))) in *.
  pose proof (try_match_order_frame _ _ _ _ _ _ _ _ Hm)
    as (_ & (_ & Hbid & Hask & _) & Hw).
  assert (Hside : ∀ s, get_side b1 s = get_side b s).
  { intros []; simpl; [by rewrite Hbid | by rewrite Hask]. }
  assert (H2 : ∀ q, q ∈ resting_in (get_side (set_side b1 opp side1) sd) →
                    q ∈ resting_in (get_side b sd)).
  { intros q. destruct (decide (sd = opp)) as [->|Hne].
    - rewrite get_set_side. by apply resting_in_within.
    - rewrite get_set_side_ne by done. by rewrite Hside. }
  destruct rests; [|intros Hp; right; by apply H2].
  unfold add_to_book.
  set (m' := set_order_status m1 order st).
  set (so := side (deref m' order)). set (px := price (deref m' order)).
  destruct (decide (sd = so)) as [->|Hne].
  - rewrite get_set_side, elem_of_resting_in.
    intros (k & lvl & Hk & Hp).
    apply lookup_insert_Some in Hk as [[<- <-]|[_ Hk]].
    + unfold PriceLevel.add_order in Hp. simpl in Hp.
      apply elem_of_app in Hp as [Hp|Hp].
      * right. apply H2.
        destruct (get_side (set_side b1 opp side1) so !! px) as [lvl0|] eqn:Hk0;
          simpl in Hp; [|by apply elem_of_nil in Hp].
        apply elem_of_resting_in. by exists px, lvl0.
      * left. by apply list_elem_of_singleton in Hp.
    + right. apply H2. apply elem_of_resting_in. by exists k, lvl.
  - rewrite get_set_side_ne by done. intros Hp. right. by apply H2.
Qed.

(** The orders a book holds after it took a new order. *)
Lemma add_new_order_held m b o ret m' b' :
  well_formed m b → u64 (quantity o) →
  add_new_order m b o = Some (ret, m', b') →
  length (heap m') = S (length (heap m))
  ∧ (∀ p, (p < length (heap m))%nat →
          symbol_id (deref m' p) = symbol_id (deref m p))
  ∧ symbol_id (deref m' (length (heap m))) = symbol_id o
  ∧ ∀ p, held_by b' p → p = length (heap m) ∨ held_by b p.
Proof.
  intros Hwf Hq H.
  unfold add_new_order in H. rewrite make_shared_spec in H.
  set (m1 := mkMem (heap m ++ [o]) (clock m)) in *.
  assert (Hnew : deref m1 (length (heap m)) = o)
    by apply (deref_make_shared_new m o).
  assert (Hlen1 : length (heap m1) = S (length (heap m)))
    by (subst m1; simpl; rewrite length_app; simpl; lia).
  destruct (add_order_wf m1 b (length (heap m)) ret m' b')
    as [Hobj _]; try done.
  { apply (make_shared_quantities m o); [apply Hwf | exact Hq]. }
  { lia. }
  { by apply well_formed_sides. }
  split; [destruct Hobj as (Hlen & _); lia|]. split.
  { intros p Hp. rewrite (same_objects_symbol m1 m' p Hobj).
    change (deref m1 p) with (deref (make_shared m o).2 p).
    by rewrite deref_make_shared_old. }
  split; [by rewrite (same_objects_symbol m1 m' _ Hobj), Hnew|].
  intros p. rewrite !held_by_sides. intros [[sd Hp]|[id Hp]].
  - destruct (add_order_resting _ _ _ _ _ _ _ _ H Hp) as [->|Hp0];
      [by left|]. right. left. by exists sd.
  - apply add_order_index in H as [Hix _]. rewrite Hix in Hp.
    apply lookup_insert_Some in Hp as [[_ <-]|[_ Hp]]; [by left|].
    right. right. by exists id.
Qed.

Lemma cancel_order_held m b id ret m' b' p :
  cancel_order m b id = (ret, m', b') → held_by b' p → held_by b p.
Proof.
  intros Hc. rewrite !held_by_sides. intros [[sd Hp]|[id' Hp]].
  - left. exists sd. eapply resting_in_within; [|exact Hp].
    by eapply cancel_order_within.
  - right. exists id'. by rewrite <- (cancel_order_index _ _ _ _ _ _ Hc).
Qed.

(** The step of one book inside the engine. *)
Lemma filed_ok_step m s m' symbol book book' next :
  filed_ok m s →
  OrderBookSimulator.order_books_ s !! symbol = Some book
  ∨ (OrderBookSimulator.order_books_ s !! symbol = None
     ∧ book = SimpleOrderBook.new symbol) →
  (length (heap m) ≤ length (heap m'))%nat →
  (∀ p, (p < length (heap m))%nat →
        symbol_id (deref m' p) = symbol_id (deref m p)) →
  (∀ p, held_by book' p →
        held_by book p
        ∨ ((p < length (heap m'))%nat ∧ symbol_id (deref m' p) = symbol)) →
  filed_ok m'
    (OrderBookSimulator.mk
       (<[symbol := book']> (OrderBookSimulator.order_books_ s)) next).
Proof.
  intros Hf Hbook Hlen Hsym Hheld sym bk p Hk Hp. simpl in Hk.
  assert (Hold : ∀ sym0 bk0, OrderBookSimulator.order_books_ s !! sym0 = Some bk0 →
            held_by bk0 p →
            (p < length (heap m'))%nat ∧ symbol_id (deref m' p) = sym0).
  { intros sym0 bk0 Hk0 Hp0. destruct (Hf _ _ _ Hk0 Hp0) as [Hlt Hs].
    split; [lia|]. by rewrite Hsym. }
  apply lookup_insert_Some in Hk as [[<- <-]|[_ Hk]]; [|by eapply Hold].
  destruct (Hheld _ Hp) as [Hp0|Hnew]; [|done].
  destruct Hbook as [Hk0|[_ ->]]; [by eapply Hold|].
  exfalso. apply held_by_sides in Hp0 as [[sd Hp0]|[id Hp0]].
  - apply elem_of_resting_in in Hp0 as (k & lvl & Hl & _).
    destruct sd; simpl in Hl; by rewrite lookup_empty in Hl.
  - simpl in Hp0. by rewrite lookup_empty in Hp0.
Qed.

Lemma call_filed m s c m' s' :
  engine_wf m s → filed_ok m s → call_u64 c →
  call m s c = Some (m', s') → filed_ok m' s'.
Proof.
  intros Hwf Hf Hc Hcall. pose proof Hwf as (Hq & Hu & Hs).
  destruct c as [symbol sd type qty px stop_px|id|id q px]; simpl in *.
  - unfold OrderBookSimulator.submit_order in Hcall.
    set (o := Order_new (clock m) (OrderBookSimulator.next_order_id_ s)
                symbol sd type qty px stop_px) in *.
    set (book := default (SimpleOrderBook.new symbol)
                   (OrderBookSimulator.order_books_ s !! symbol)) in *.
    assert (Hbook : well_formed m book
                    ∧ (OrderBookSimulator.order_books_ s !! symbol = Some book
                       ∨ (OrderBookSimulator.order_books_ s !! symbol = None
                          ∧ book = SimpleOrderBook.new symbol))).
    { subst book.
      destruct (OrderBookSimulator.order_books_ s !! symbol) as [bk|] eqn:E;
        simpl.
      - split; [by destruct (Hs _ _ E) | by left].
      - split; [|by right].
        split; [done| |]; intros k lvl Hk; simpl in Hk;
          by rewrite lookup_empty in Hk. }
    destruct Hbook as [Hwfb Hcase].
    destruct (make_shared m o) as [p m0] eqn:Hmk.
    destruct (add_order m0 book p) as [[[ok m1] book']|] eqn:Ha;
      simpl in Hcall; [|done].
    simplify_eq.
    assert (Ha' : add_new_order m book o = Some (ok, m', book'))
      by (unfold add_new_order; by rewrite Hmk).
    destruct (add_new_order_held m book o ok m' book' Hwfb Hc Ha')
      as (Hlen & Hsym & Hnew & Hheld).
    eapply (filed_ok_step m s); [done|exact Hcase|lia|done|].
    intros p0 Hp0. destruct (Hheld _ Hp0) as [->|?]; [|by left].
    right. split; [lia|]. by rewrite Hnew.
  - unfold OrderBookSimulator.cancel_order in Hcall.
    pose proof (cancel_scan_step m _ id Hq (engine_wf_books m s Hwf)) as Hscan.
    destruct (OrderBookSimulator.cancel_scan _ _ _) as [[[sym m1] b1]|];
      [|by simplify_eq].
    destruct Hscan as (book & Hin & Hcan). simplify_eq.
    apply elem_of_map_to_list in Hin. destruct (Hs _ _ Hin) as [Hwfb _].
    destruct (cancel_order_wf _ _ _ _ _ _ Hwfb Hcan) as [Hobj _].
    eapply (filed_ok_step m s); [done|by left| | |].
    + destruct Hobj as (Hlen & _). lia.
    + intros p _. by apply same_objects_symbol.
    + intros p Hp. left. by eapply cancel_order_held.
  - unfold OrderBookSimulator.modify_order in Hcall.
    destruct (modify_scan_step m _ id q px Hc (engine_wf_books m s Hwf))
      as (r & Hr & Hshape).
    rewrite Hr in Hcall. simpl in Hcall.
    destruct r as [[[sym m1] b1]|]; simpl in Hcall; [|by simplify_eq].
    destruct Hshape as (book & Hin & Hmod). simplify_eq.
    apply elem_of_map_to_list in Hin. destruct (Hs _ _ Hin) as [Hwfb _].
    apply modify_order_steps in Hmod
      as [(? & _)|(m2 & b2 & p & Hix & Hcan & Ha)]; [done|].
    destruct (cancel_order_wf _ _ _ _ _ _ Hwfb Hcan) as [Hobj Hwf1].
    assert (Hpold : (p < length (heap m))%nat ∧ symbol_id (deref m p) = sym).
    { eapply Hf; [exact Hin|]. right. right. by exists id. }
    destruct Hpold as [Hplt Hpsym].
    match type of Ha with
    | add_new_order _ _ ?o = _ =>
        destruct (add_new_order_held m2 b2 o _ _ _ Hwf1 Hc Ha)
          as (Hlen & Hsym & Hnew & Hheld)
    end.
    pose proof Hobj as (Hlen1 & _).
    eapply (filed_ok_step m s); [done|by left|lia| |].
    + intros p0 Hp0. rewrite Hsym by lia. by apply same_objects_symbol.
    + intros p0 Hp0. destruct (Hheld _ Hp0) as [->|Hp1].
      * right. split; [lia|]. rewrite Hnew. simpl.
        by rewrite (same_objects_symbol m m2 p Hobj).
      * left. by eapply cancel_order_held.
Qed.

Lemma calls_filed cs : ∀ m s m' s',
  engine_wf m s → filed_ok m s → Forall call_u64 cs →
  calls m s cs = Some (m', s') → filed_ok m' s'.
Proof.
  induction cs as [|c cs IH]; intros m s m' s' Hwf Hf Hcs H; simpl in H.
  - by simplify_eq.
  - apply Forall_cons in Hcs as [Hc Hcs].
    destruct (call_wf m s c Hwf Hc) as (m1 & s1 & Hcall & Hwf1 & _).
    rewrite Hcall in H. simpl in H.
    eapply (IH m1 s1); [exact Hwf1| |exact Hcs|exact H].
    eapply (call_filed m s c); [exact Hwf|exact Hf|exact Hc|exact Hcall].
Qed.

(** X21. The books of the engine keep their symbols apart.  After any
    sequence of calls from the state after construction, every order a
    book holds (in a level of its ladders or in its index) is a stored
    order whose [symbol_id] is the symbol the book is filed under; so no
    order is held by the books of two symbols, and an incoming order, which
    trades with entries of its own book only, never trades with an order
    of another symbol. *)
Theorem orders_are_filed_under_their_symbol cs symbol book p :
  Forall call_u64 cs →
  OrderBookSimulator.order_books_ (engine_after cs).2 !! symbol = Some book →
  held_by book p →
  (p < length (heap (engine_after cs).1))%nat
  ∧ symbol_id (deref (engine_after cs).1 p) = symbol
  ∧ get_symbol_id book = symbol
  ∧ ∀ symbol' book',
      OrderBookSimulator.order_books_ (engine_after cs).2 !! symbol'
        = Some book' →
      held_by book' p → symbol' = symbol.
Proof.
  intros Hcs Hk Hp.
  destruct (calls_wf cs mem0 OrderBookSimulator.new engine_wf_new Hcs)
    as (m' & s' & Hcalls & Hwf & _).
  assert (Hf : filed_ok m' s').
  { eapply (calls_filed cs mem0 OrderBookSimulator.new);
      [apply engine_wf_new| |exact Hcs|exact Hcalls].
    intros sym bk q H. simpl in H. by rewrite lookup_empty in H. }
  unfold engine_after in *. rewrite Hcalls in *. simpl in *.
  destruct (Hf _ _ _ Hk Hp) as [Hlt Hsym].
  split; [done|]. split; [done|]. split.
  - destruct Hwf as (_ & _ & Hs). by destruct (Hs _ _ Hk).
  - intros symbol' book' Hk' Hp'. destruct (Hf _ _ _ Hk' Hp') as [_ Hsym'].
    congruence.
Qed.

(** X21, witness: the order resting in the book of symbol 2. *)
Lemma orders_are_filed_under_their_symbol_witness :
  symbol_id
    (deref (engine_after [Submit 1 SELL LIMIT 1000 5000 0;
                          Submit 2 BUY LIMIT 500 4000 0]).1 1%nat) = 2.
Proof.
  refine (proj1 (proj2 (orders_are_filed_under_their_symbol
            [Submit 1 SELL LIMIT 1000 5000 0; Submit 2 BUY LIMIT 500 4000 0] 2
            (default (SimpleOrderBook.new 2)
               (OrderBookSimulator.order_books_
                  (engine_after [Submit 1 SELL LIMIT 1000 5000 0;
                                 Submit 2 BUY LIMIT 500 4000 0]).2 !! 2))
            1%nat _ _ _))).
  - repeat (apply Forall_cons; split; [apply u64_literal; reflexivity|]).
    apply Forall_nil_2.
  - vm_compute. reflexivity.
  - right. right. exists 2. vm_compute. reflexivity.
Defined.
